(** * useSubscribe: the subscription-lifecycle state machine of replicache-react

    A shallow embedding of the hook's module (the [index.ts] the tests
    import, in its current revision with the generation counter): the
    module-level batch scheduler ([callbacks], [hasPendingCallback],
    [doCallback]) and the hook [useSubscribe] with its state and refs, its
    subscription effect, the effect's cleanup and the [onData] closure handed
    to [r.subscribe].  Line numbers in section titles are those of that
    revision.

    The host framework is not part of the repository.  Its contract is
    written out where it is used: a render calls the hook body; the commit
    follows the render at once (as under [flushSync]) and runs the effect
    when the dependency array [[r, ...dependencies]] changed, the cleanup of
    the previous run first; [setSnapshot] replaces the state the next render
    reads; a promise job runs [doCallback] once for each
    [Promise.resolve().then(doCallback)].  Renders are events of their own:
    the framework may render an instance at any time. *)

From Stdlib Require Import ZArith NArith Lia.
From stdpp Require Import base decidable option list gmap strings.

Open Scope Z_scope.
Open Scope nat_scope.

(** ** JavaScript values *)

(** The values a query result, a default or a dependency can take.  Objects
    are known by their address only: [===] and [Object.is] compare them by
    identity.  Numbers are the integers ([NaN] and the two zeros, where
    [===] and [Object.is] part, are left out). *)
Inductive JsVal : Type :=
  | JUndefined
  | JNull
  | JBool (b : bool)
  | JNum (n : Z)
  | JStr (s : string)
  | JRef (addr : nat).

Global Instance JsVal_eq_dec : EqDecision JsVal.
Proof. solve_decision. Defined.

(** [Object.is(a, b)] *)
Definition Object_is (a b : JsVal) : bool := bool_decide (a = b).

(** [v === undefined] *)
Definition is_undefined (v : JsVal) : bool :=
  match v with JUndefined => true | _ => false end.

(** [arr[i]]: reading past the end of an array gives [undefined]. *)
Definition array_get (arr : list JsVal) (i : nat) : JsVal :=
  default JUndefined (arr !! i).

(** [arr.some((x, i) => p(x, i))], the index counted from [i]. *)
Fixpoint array_some (p : JsVal -> nat -> bool) (arr : list JsVal) (i : nat) : bool :=
  match arr with
  | [] => false
  | x :: rest => p x i || array_some p rest (S i)
  end.

(** The first argument of the hook, [r: Subscribable<Tx> | null | undefined]. *)
Inductive Source : Type :=
  | SrcUndefined
  | SrcNull
  | SrcObj (addr : nat).

Global Instance Source_eq_dec : EqDecision Source.
Proof. solve_decision. Defined.

(** [!r] *)
Definition absent (r : Source) : bool :=
  match r with SrcObj _ => false | _ => true end.

(** [r] as an element of a dependency array. *)
Definition src_val (r : Source) : JsVal :=
  match r with
  | SrcUndefined => JUndefined
  | SrcNull => JNull
  | SrcObj a => JRef a
  end.

(** ** Computations that may throw *)

Inductive Outcome (S A : Type) : Type :=
  | Returned (a : A) (s : S)
  | Threw (e : JsVal) (s : S).
Arguments Returned {S A} a s.
Arguments Threw {S A} e s.

Definition Js (S A : Type) : Type := S -> Outcome S A.

Definition js_ret {S A} (a : A) : Js S A := fun s => Returned a s.

Definition js_bind {S A B} (m : Js S A) (k : A -> Js S B) : Js S B :=
  fun s => match m s with
           | Returned a s' => k a s'
           | Threw e s' => Threw e s'
           end.

Definition js_modify {S} (f : S -> S) : Js S unit := fun s => Returned tt (f s).

(** [try { m } catch (e) { handler(e) }] *)
Definition try_catch {S} (m : Js S unit) (handler : JsVal -> Js S unit) : Js S unit :=
  fun s => match m s with
           | Returned a s' => Returned a s'
           | Threw e s' => handler e s'
           end.

Notation "m >>> k" := (js_bind m (fun _ => k))
  (at level 65, right associativity).

(** [for (const x of xs) { body(x) }] *)
Fixpoint for_of {S A} (xs : list A) (body : A -> Js S unit) : Js S unit :=
  match xs with
  | [] => js_ret tt
  | x :: rest => body x >>> for_of rest body
  end.

(** The state a computation leaves behind, thrown or not. *)
Definition final {S A} (o : Outcome S A) : S :=
  match o with Returned _ s => s | Threw _ s => s end.

(** ** The batch scheduler *)

(** The two module-level variables, the promise jobs that
    [Promise.resolve().then(doCallback)] has queued and not yet run, and what
    [console.error] has printed. *)
Record Sched (Cb : Type) : Type := mkSched {
  callbacks : list Cb;
  hasPendingCallback : bool;
  microtasks : nat;
  console : list JsVal
}.
Arguments mkSched {Cb}.
Arguments callbacks {Cb}.
Arguments hasPendingCallback {Cb}.
Arguments microtasks {Cb}.
Arguments console {Cb}.

Definition initSched {Cb} : Sched Cb := mkSched [] false 0 [].

Section Scheduler.
(** [Cb] are the closures in the queue, [R] is the rest of the heap; what
    calling a closure does is [invoke]. *)
Context {Cb R : Type}.
Variable invoke : Cb -> Js (Sched Cb * R) unit.

(** The tail of [onData]:
    [callbacks.push(cb); if (!hasPendingCallback) { void
    Promise.resolve().then(doCallback); hasPendingCallback = true; }] *)
Definition schedule (cb : Cb) (s : Sched Cb) : Sched Cb :=
  let pushed := callbacks s ++ [cb] in
  if hasPendingCallback s
  then mkSched pushed true (microtasks s) (console s)
  else mkSched pushed true (S (microtasks s)) (console s).

Definition get_callbacks : Js (Sched Cb * R) (list Cb) :=
  fun w => Returned (callbacks w.1) w.

Definition set_callbacks (cbs : list Cb) : Js (Sched Cb * R) unit :=
  js_modify (fun w => (mkSched cbs (hasPendingCallback w.1) (microtasks w.1) (console w.1), w.2)).

Definition set_hasPendingCallback (b : bool) : Js (Sched Cb * R) unit :=
  js_modify (fun w => (mkSched (callbacks w.1) b (microtasks w.1) (console w.1), w.2)).

(** [console.error('useSubscribe callback error:', e)] *)
Definition console_error (e : JsVal) : Js (Sched Cb * R) unit :=
  js_modify (fun w => (mkSched (callbacks w.1) (hasPendingCallback w.1) (microtasks w.1) (console w.1 ++ [e]), w.2)).

Definition doCallback : Js (Sched Cb * R) unit :=
  js_bind get_callbacks (fun cbs =>
    set_callbacks [] >>>
    set_hasPendingCallback false >>>
    for_of cbs (fun callback =>
      try_catch (invoke callback) (fun e => console_error e))).

(** The job queue runs one pending [doCallback]. *)
Definition run_microtask (w : Sched Cb * R) : Sched Cb * R :=
  match microtasks w.1 with
  | O => w
  | S n =>
      final (doCallback
               (mkSched (callbacks w.1) (hasPendingCallback w.1) n (console w.1), w.2))
  end.
End Scheduler.

(** ** The hook's per-instance state *)

(** [useState] and the five [useRef] cells of one hook instance.  The
    generation counter is a JavaScript number that only ever grows by one; it
    is a natural number here. *)
Record HookState : Type := mkHook {
  snapshot : JsVal;
  prevSnapshotRef : JsVal;
  generationRef : N;
  prevRRef : Source;
  prevDepsRef : list JsVal;
  hasRunEffectRef : bool
}.

Definition initHook : HookState :=
  mkHook JUndefined JUndefined 0%N SrcUndefined [] false.

(** [UseSubscribeOptions]; a field left out is [undefined] or [None]. *)
Record UseSubscribeOptions : Type := mkOptions {
  opt_default : JsVal;
  opt_dependencies : option (list JsVal);
  opt_isEqual : option nat;
  opt_keepPreviousData : option bool
}.

(** [const {default: def, dependencies = [], isEqual, keepPreviousData = true} = options] *)
Definition def_of (o : UseSubscribeOptions) : JsVal := opt_default o.
Definition dependencies_of (o : UseSubscribeOptions) : list JsVal :=
  default [] (opt_dependencies o).
Definition keepPreviousData_of (o : UseSubscribeOptions) : bool :=
  default true (opt_keepPreviousData o).

(** ** The transition detector *)

Definition depsChanged (dependencies prevDeps : list JsVal) : bool :=
  negb (length dependencies =? length prevDeps)
  || array_some (fun dep i => negb (Object_is dep (array_get prevDeps i))) dependencies 0.

Definition hasTransitioned (h : HookState) (r : Source) (dependencies : list JsVal) : bool :=
  (negb (bool_decide (r = prevRRef h)) || depsChanged dependencies (prevDepsRef h))
  && hasRunEffectRef h.

(** ** The value a render returns *)

(** The hook body after the effect is registered. *)
Definition useSubscribe_value (h : HookState) (r : Source) (o : UseSubscribeOptions) : JsVal :=
  let def := def_of o in
  let keepPreviousData := keepPreviousData_of o in
  if hasTransitioned h r (dependencies_of o) && negb keepPreviousData then def
  else if is_undefined (snapshot h) then
    if keepPreviousData && negb (is_undefined (prevSnapshotRef h))
    then prevSnapshotRef h
    else def
  else snapshot h.

(** ** Closures, component instances and the heap *)

(** One run of the subscription effect that reached [r.subscribe]: the
    variables its [onData], its queued callbacks and its cleanup close over.
    [currentGen] and [isMounted] are the effect's locals, [cl_keep] is the
    [keepPreviousData] of the render that registered the effect, [cl_inst]
    the hook instance whose refs and [setSnapshot] it holds.  [cl_source],
    [cl_query] and [cl_isEqual] are what [r.subscribe] was called with, and
    [cl_unsubscribed] records that [unsubscribe()] has been called. *)
Record Closure : Type := mkClosure {
  cl_inst : nat;
  currentGen : N;
  isMounted : bool;
  cl_keep : bool;
  cl_source : nat;
  cl_query : nat;
  cl_isEqual : option nat;
  cl_unsubscribed : bool
}.

(** A mounted component instance that calls the hook: the hook's state, and
    the framework's record of the effect (the dependency array of its last
    run and the cleanup that run returned).  [alive] falls at unmount. *)
Record Fiber : Type := mkFiber {
  hook : HookState;
  effectDeps : option (list JsVal);
  destroy : option nat;
  alive : bool
}.

Definition initFiber : Fiber := mkFiber initHook None None true.

Record Store : Type := mkStore {
  fibers : gmap nat Fiber;
  closures : list Closure
}.

(** [() => { if (isMounted) { setSnapshot(data); } }] of closure [cb_closure]. *)
Record Callback : Type := mkCallback {
  cb_closure : nat;
  cb_data : JsVal
}.

Definition World : Type := Sched Callback * Store.

Definition initWorld : World := (initSched, mkStore ∅ []).

Definition with_hook (g : HookState -> HookState) (f : Fiber) : Fiber :=
  mkFiber (g (hook f)) (effectDeps f) (destroy f) (alive f).

Definition set_snapshot (v : JsVal) (h : HookState) : HookState :=
  mkHook v (prevSnapshotRef h) (generationRef h) (prevRRef h) (prevDepsRef h) (hasRunEffectRef h).

Definition set_prevSnapshotRef (v : JsVal) (h : HookState) : HookState :=
  mkHook (snapshot h) v (generationRef h) (prevRRef h) (prevDepsRef h) (hasRunEffectRef h).

(** [setSnapshot(v)] of instance [i]: the state the next render reads.  The
    framework drops updates to an unmounted instance. *)
Definition setSnapshot (i : nat) (v : JsVal) (st : Store) : Store :=
  mkStore (alter (fun f => if alive f then with_hook (set_snapshot v) f else f) i (fibers st))
          (closures st).

(** [prevSnapshotRef.current = v] of instance [i]. *)
Definition write_prevSnapshotRef (i : nat) (v : JsVal) (st : Store) : Store :=
  mkStore (alter (with_hook (set_prevSnapshotRef v)) i (fibers st)) (closures st).

(** The queued callback. *)
Definition invoke_cb (cb : Callback) : Js World unit :=
  fun w =>
    match closures w.2 !! cb_closure cb with
    | Some c =>
        if isMounted c
        then Returned tt (w.1, setSnapshot (cl_inst c) (cb_data cb) w.2)
        else Returned tt w
    | None => Returned tt w
    end.

(** [onData(data)] of closure [k]. *)
Definition onData (k : nat) (data : JsVal) (w : World) : World :=
  match closures w.2 !! k with
  | None => w
  | Some c =>
      match fibers w.2 !! cl_inst c with
      | None => w
      | Some f =>
          if negb (bool_decide (generationRef (hook f) = currentGen c)) then w
          else (schedule (mkCallback k data) w.1,
                write_prevSnapshotRef (cl_inst c) data w.2)
      end
  end.

(** [isMounted = false; unsubscribe();] on the closure's own variables. *)
Definition unmounted (c : Closure) : Closure :=
  mkClosure (cl_inst c) (currentGen c) false (cl_keep c)
            (cl_source c) (cl_query c) (cl_isEqual c) true.

(** The function the effect returns, for closure [k]. *)
Definition cleanup (k : nat) (st : Store) : Store :=
  match closures st !! k with
  | None => st
  | Some c =>
      let st1 := mkStore (fibers st) (<[k := unmounted c]> (closures st)) in
      let st2 := write_prevSnapshotRef (cl_inst c) JUndefined st1 in
      if negb (cl_keep c) then setSnapshot (cl_inst c) JUndefined st2 else st2
  end.

(** The effect body of instance [i], registered by a render that saw
    [snapshot_at_render]; it gives back the closure whose cleanup it returns. *)
Definition effect (i : nat) (r : Source) (query : nat) (o : UseSubscribeOptions)
    (snapshot_at_render : JsVal) (st : Store) : Store * option nat :=
  match fibers st !! i with
  | None => (st, None)
  | Some f =>
      let h := hook f in
      let h1 := mkHook (snapshot h) (prevSnapshotRef h) (generationRef h)
                       r (dependencies_of o) true in
      match r with
      | SrcObj a =>
          let h2 :=
            if keepPreviousData_of o && negb (is_undefined snapshot_at_render)
            then set_prevSnapshotRef snapshot_at_render h1 else h1 in
          let currentGen := (generationRef h2 + 1)%N in
          let h3 := mkHook (snapshot h2) (prevSnapshotRef h2) currentGen
                           (prevRRef h2) (prevDepsRef h2) (hasRunEffectRef h2) in
          let c := mkClosure i currentGen true (keepPreviousData_of o)
                             a query (opt_isEqual o) false in
          (mkStore (<[i := with_hook (fun _ => h3) f]> (fibers st)) (closures st ++ [c]),
           Some (length (closures st)))
      | _ =>
          (mkStore (<[i := with_hook (fun _ => h1) f]> (fibers st)) (closures st), None)
      end
  end.

(** The framework's comparison of two dependency arrays: element by element
    with [Object.is], over the common prefix. *)
Fixpoint areHookInputsEqual (nextDeps prevDeps : list JsVal) : bool :=
  match nextDeps, prevDeps with
  | n :: ns, p :: ps => Object_is n p && areHookInputsEqual ns ps
  | _, _ => true
  end.

(** Whether the framework re-runs the effect of an instance whose record of
    the effect is in [f0], for the array [[r, ...dependencies]]: always on the
    first commit, afterwards when the array changed. *)
Definition effect_reruns (f0 : Fiber) (r : Source) (o : UseSubscribeOptions) : bool :=
  match effectDeps f0 with
  | None => true
  | Some prevDeps => negb (areHookInputsEqual (src_val r :: dependencies_of o) prevDeps)
  end.

(** The commit after a render of instance [i]: when the effect re-runs, the
    previous cleanup runs first, then the effect body, and the framework
    records the new array and the new cleanup. *)
Definition commit (i : nat) (r : Source) (query : nat) (o : UseSubscribeOptions)
    (f0 : Fiber) (st : Store) : Store :=
  if effect_reruns f0 r o then
    let st1 := match destroy f0 with Some k => cleanup k st | None => st end in
    let '(st2, d) := effect i r query o (snapshot (hook f0)) st1 in
    mkStore (alter (fun f => mkFiber (hook f) (Some (src_val r :: dependencies_of o)) d (alive f))
                   i (fibers st2))
            (closures st2)
  else st.

(** One call of the hook by instance [i] and the commit that follows: the
    value returned and the heap afterwards.  The first call mounts the
    instance; an unmounted instance is not rendered again. *)
Definition useSubscribe (i : nat) (r : Source) (query : nat) (o : UseSubscribeOptions)
    (w : World) : JsVal * World :=
  let f0 := default initFiber (fibers w.2 !! i) in
  (useSubscribe_value (hook f0) r o,
   if alive f0
   then (w.1, commit i r query o f0 (mkStore (<[i := f0]> (fibers w.2)) (closures w.2)))
   else w).

(** The instance is destroyed: its effect's cleanup runs. *)
Definition unmount (i : nat) (w : World) : World :=
  match fibers w.2 !! i with
  | None => w
  | Some f =>
      if alive f then
        let st1 := match destroy f with Some k => cleanup k w.2 | None => w.2 end in
        (w.1, mkStore (alter (fun f => mkFiber (hook f) (effectDeps f) None false) i (fibers st1))
                      (closures st1))
      else w
  end.

(** ** Events *)

Inductive Event : Type :=
  | Render (i : nat) (r : Source) (query : nat) (o : UseSubscribeOptions)
  | Data (k : nat) (data : JsVal)
  | Tick
  | Unmount (i : nat).

Definition step (e : Event) (w : World) : World :=
  match e with
  | Render i r query o => (useSubscribe i r query o w).2
  | Data k data => onData k data w
  | Tick => run_microtask invoke_cb w
  | Unmount i => unmount i w
  end.

Definition run (es : list Event) (w : World) : World :=
  foldl (fun w e => step e w) w es.

(** What instance [i] would return if it rendered now. *)
Definition observe (i : nat) (r : Source) (o : UseSubscribeOptions) (w : World) : JsVal :=
  (useSubscribe i r 0 o w).1.

Definition hook_of (i : nat) (w : World) : HookState :=
  hook (default initFiber (fibers w.2 !! i)).

(** ** Vocabulary of the statements *)

(** *** The detector *)

(** The detector's test on the dependency lists, in the words of the
    design: the lengths differ, or some position holds two values that are
    not identical. *)
Definition deps_differ (dependencies prevDeps : list JsVal) : Prop :=
  length dependencies <> length prevDeps
  \/ exists i x y, dependencies !! i = Some x /\ prevDeps !! i = Some y /\ x <> y.

(** *** The scheduler *)

Section SchedulerVocabulary.
Context {Cb R : Type}.
Variable invoke : Cb -> Js (Sched Cb * R) unit.

(** The heap right after [callbacks = []; hasPendingCallback = false]. *)
Definition flush_start (w : Sched Cb * R) : Sched Cb * R :=
  (mkSched [] false (microtasks w.1) (console w.1), w.2).

(** One turn of the loop in [doCallback]: the callback is called; what it
    throws is printed and the loop goes on from the heap it left. *)
Definition call_guarded (w : Sched Cb * R) (cb : Cb) : Sched Cb * R :=
  match invoke cb w with
  | Returned _ w' => w'
  | Threw e w' => (mkSched (callbacks w'.1) (hasPendingCallback w'.1)
                           (microtasks w'.1) (console w'.1 ++ [e]), w'.2)
  end.

(** The queue and the flag agree with the job queue: a flush is pending
    exactly when the flag is set, there is never more than one, and a
    non-empty queue has its flush pending. *)
Definition sched_ok (s : Sched Cb) : Prop :=
  microtasks s = (if hasPendingCallback s then 1 else 0)
  /\ (hasPendingCallback s = false -> callbacks s = []).
End SchedulerVocabulary.

(** [console.error(e)] on a heap. *)
Definition logged {Cb R : Type} (e : JsVal) (w : Sched Cb * R) : Sched Cb * R :=
  (mkSched (callbacks w.1) (hasPendingCallback w.1) (microtasks w.1) (console w.1 ++ [e]), w.2).

(** What calling a queued callback does to the store. *)
Definition apply_cb (st : Store) (cb : Callback) : Store :=
  match closures st !! cb_closure cb with
  | Some c => if isMounted c then setSnapshot (cl_inst c) (cb_data cb) st else st
  | None => st
  end.

(** [onData] of closure [k] passes its generation check. *)
Definition accepts (k : nat) (w : World) : bool :=
  match closures w.2 !! k with
  | Some c =>
      match fibers w.2 !! cl_inst c with
      | Some f => bool_decide (generationRef (hook f) = currentGen c)
      | None => false
      end
  | None => false
  end.

Definition is_Tick (e : Event) : bool :=
  match e with Tick => true | _ => false end.

(** How many times [doCallback] runs along a trace: a [Tick] runs it when a
    promise job is pending. *)
Fixpoint jobs_run (es : list Event) (w : World) : nat :=
  match es with
  | [] => 0
  | e :: rest =>
      (match e with
       | Tick => match microtasks w.1 with O => 0 | S _ => 1 end
       | _ => 0
       end) + jobs_run rest (step e w)
  end.

(** *** Heap invariants *)

(** The heaps the events can produce. *)
Definition reachable (w : World) : Prop := exists es, w = run es initWorld.

(** Everything in a fiber but the two cells that hold data. *)
Definition ctrl (f : Fiber) : N * Source * list JsVal * bool * option (list JsVal) * option nat * bool :=
  (generationRef (hook f), prevRRef (hook f), prevDepsRef (hook f),
   hasRunEffectRef (hook f), effectDeps f, destroy f, alive f).

Definition same_ctrl (st st' : Store) : Prop :=
  forall j, ctrl <$> (fibers st' !! j) = ctrl <$> (fibers st !! j).

(** A mounted instance has run its effect; the framework's dependency array
    is the one the refs hold; a registered cleanup belongs to a live closure
    of this instance that carries the current generation. *)
Definition fiber_ok (st : Store) (i : nat) (f : Fiber) : Prop :=
  hasRunEffectRef (hook f) = true
  /\ effectDeps f = Some (src_val (prevRRef (hook f)) :: prevDepsRef (hook f))
  /\ (forall k, destroy f = Some k ->
        alive f = true /\ absent (prevRRef (hook f)) = false
        /\ exists c, closures st !! k = Some c /\ cl_inst c = i /\ isMounted c = true
                    /\ currentGen c = generationRef (hook f)).

(** A closure's instance exists, its generation is not ahead of the
    instance's counter, and while [isMounted] holds it is the instance's
    registered cleanup. *)
Definition closure_ok (st : Store) (k : nat) (c : Closure) : Prop :=
  exists f, fibers st !! cl_inst c = Some f
    /\ (currentGen c <= generationRef (hook f))%N
    /\ (isMounted c = true -> destroy f = Some k).

(** Closures of one instance carry strictly increasing generations. *)
Definition gens_ordered (st : Store) : Prop :=
  forall k1 k2 c1 c2,
    closures st !! k1 = Some c1 -> closures st !! k2 = Some c2 ->
    cl_inst c1 = cl_inst c2 -> k1 < k2 -> (currentGen c1 < currentGen c2)%N.

Definition store_ok (st : Store) : Prop :=
  (forall i f, fibers st !! i = Some f -> fiber_ok st i f)
  /\ (forall k c, closures st !! k = Some c -> closure_ok st k c)
  /\ gens_ordered st.

Definition wf (w : World) : Prop := sched_ok w.1 /\ store_ok w.2.

(** Splits an equation between two [ctrl] views into its fields. *)
Ltac ctrl_fields H :=
  unfold ctrl in H; injection H; clear H;
  intros ?Ectl ?Ectl ?Ectl ?Ectl ?Ectl ?Ectl ?Ectl.

(** *** Summaries of the cleanup and of the effect *)

(** The closures after the cleanup registered in [d] (if any) has run. *)
Definition teardown_closures (d : option nat) (cls : list Closure) : list Closure :=
  match d with
  | Some k => match cls !! k with
              | Some c => <[k := unmounted c]> cls
              | None => cls
              end
  | None => cls
  end.

(** What a cleanup whose closure captured [keep] does to its instance. *)
Definition cleanup_fiber (keep : bool) (f : Fiber) : Fiber :=
  let f1 := with_hook (set_prevSnapshotRef JUndefined) f in
  if negb keep then (if alive f1 then with_hook (set_snapshot JUndefined) f1 else f1) else f1.

(** The [keepPreviousData] captured by the cleanup that instance state [f0]
    has registered, if it has one. *)
Definition registered_keep (f0 : Fiber) (st : Store) : option bool :=
  match destroy f0 with
  | Some k => cl_keep <$> closures st !! k
  | None => None
  end.

(** The instance after that cleanup has run. *)
Definition torn_down (f0 : Fiber) (st : Store) : Fiber :=
  match registered_keep f0 st with
  | Some keep => cleanup_fiber keep f0
  | None => f0
  end.

(** The closure the effect creates when it subscribes. *)
Definition new_closures (i : nat) (r : Source) (query : nat) (o : UseSubscribeOptions)
    (gen : N) : list Closure :=
  match r with
  | SrcObj a => [mkClosure i gen true (keepPreviousData_of o) a query (opt_isEqual o) false]
  | _ => []
  end.

(** The cleanup that [f] has registered captured [keepPreviousData = b]. *)
Definition cleanup_keeps (b : bool) (f : Fiber) (st : Store) : Prop :=
  forall k c, destroy f = Some k -> closures st !! k = Some c -> cl_keep c = b.

(** *** Traces *)

(** [P] holds of every event of the trace, in the heap it meets. *)
Fixpoint window (P : Event -> World -> bool) (es : list Event) (w : World) : bool :=
  match es with
  | [] => true
  | e :: rest => P e w && window P rest (step e w)
  end.

(** If the event is a render of instance [i], it passes [keepPreviousData = b]. *)
Definition renders_with (i : nat) (b : bool) (e : Event) : bool :=
  match e with
  | Render j _ _ o => if decide (j = i) then bool_decide (keepPreviousData_of o = b) else true
  | _ => true
  end.

(** A callback of a mounted closure of instance [i] is in the queue. *)
Definition pending_for (i : nat) (w : World) : bool :=
  existsb (fun cb =>
             match closures w.2 !! cb_closure cb with
             | Some c => isMounted c && bool_decide (cl_inst c = i)
             | None => false
             end) (callbacks w.1).

(** The event applies a delivered value to instance [i]: a promise job runs
    while such a callback is queued. *)
Definition applies_to (i : nat) (e : Event) (w : World) : bool :=
  match e with
  | Tick => negb (microtasks w.1 =? 0) && pending_for i w
  | _ => false
  end.

(** The event is a Data event of a subscription of instance [i]. *)
Definition delivers_to (i : nat) (e : Event) (w : World) : bool :=
  match e with
  | Data k _ =>
      match closures w.2 !! k with
      | Some c => bool_decide (cl_inst c = i)
      | None => false
      end
  | _ => false
  end.

(** The values the subscriptions of instance [i] deliver along a trace. *)
Fixpoint delivered (i : nat) (es : list Event) (w : World) : list JsVal :=
  match es with
  | [] => []
  | e :: rest =>
      match e with
      | Data k data =>
          match closures w.2 !! k with
          | Some c => if decide (cl_inst c = i) then [data] else []
          | None => []
          end
      | _ => []
      end ++ delivered i rest (step e w)
  end.

(** The cells of instance [i], and the callbacks queued for it, hold nothing
    but [undefined] and values of [D]. *)
Definition cells_from (i : nat) (D : list JsVal) (w : World) : Prop :=
  (forall f, fibers w.2 !! i = Some f ->
     snapshot (hook f) ∈ JUndefined :: D /\ prevSnapshotRef (hook f) ∈ JUndefined :: D)
  /\ (forall cb, cb ∈ callbacks w.1 ->
        exists c, closures w.2 !! cb_closure cb = Some c
                  /\ (cl_inst c = i -> cb_data cb ∈ D)).

(** Without retention: the closures of instance [i] captured
    [keepPreviousData = false], and the snapshot is [undefined] whenever no
    cleanup is registered. *)
Definition nokeep_inv (i : nat) (w : World) : Prop :=
  (forall k c, closures w.2 !! k = Some c -> cl_inst c = i -> cl_keep c = false)
  /\ (forall f, fibers w.2 !! i = Some f -> destroy f = None ->
        snapshot (hook f) = JUndefined).

(** The render returns the snapshot or the cache, not the default. *)
Definition returns_data (h : HookState) (r : Source) (o : UseSubscribeOptions) : bool :=
  negb (hasTransitioned h r (dependencies_of o) && negb (keepPreviousData_of o))
  && (negb (is_undefined (snapshot h))
      || (keepPreviousData_of o && negb (is_undefined (prevSnapshotRef h)))).

(** The real values the renders of instance [i] returned along a trace. *)
Fixpoint observed_data (i : nat) (es : list Event) (w : World) : list JsVal :=
  match es with
  | [] => []
  | e :: rest =>
      match e with
      | Render j r _ o =>
          if decide (j = i)
          then (if returns_data (hook_of i w) r o then [observe i r o w] else [])
          else []
      | _ => []
      end ++ observed_data i rest (step e w)
  end.

(** The no-flash property in the words of the design: an instance that
    always renders with [keepPreviousData = true] goes through a transition;
    on the renders that follow, until a delivered value is applied, it
    returns the last real value it returned before the transition, or the
    default when it never returned one. *)
Definition no_flash_as_stated : Prop :=
  forall (before after : list Event) (i : nat) (r r' : Source) (query : nat)
         (o o' : UseSubscribeOptions),
    let w := run before initWorld in
    let w1 := step (Render i r query o) w in
    forallb (renders_with i true) before = true ->
    keepPreviousData_of o = true -> keepPreviousData_of o' = true ->
    hasTransitioned (hook_of i w) r (dependencies_of o) = true ->
    window (fun e w => renders_with i true e && negb (applies_to i e w)) after w1 = true ->
    observe i r' o' (run after w1)
    = match last (observed_data i before initWorld) with
      | Some v => v
      | None => def_of o'
      end.

(** The values the renders of a trace return, in order (all instances). *)
Fixpoint render_log (es : list Event) (w : World) : list JsVal :=
  match es with
  | [] => []
  | e :: rest =>
      match e with
      | Render i r query o => [(useSubscribe i r query o w).1]
      | _ => []
      end ++ render_log rest (step e w)
  end.

(** ** Sample inputs *)

Definition opts (def : string) (keep : bool) : UseSubscribeOptions :=
  mkOptions (JStr def) None None (Some keep).

Definition repA : Source := SrcObj 1.
Definition repB : Source := SrcObj 2.

(** The slow subscription is superseded by the fast one before it answers. *)
Definition race_trace : list Event :=
  [Render 0 repA 0 (opts "default" true); Render 0 repB 0 (opts "default" true)].

(** A subscription delivers ["data1"] and the flush applies it. *)
Definition loaded_trace (keep : bool) : list Event :=
  [Render 0 repA 0 (opts "default" keep); Data 0 (JStr "data1"); Tick].

(** A component subscribes; nothing has been delivered yet. *)
Definition null_trace : list Event :=
  [Render 0 repA 0 (opts "default" true)].

(** Two components subscribe and both receive data in the same tick. *)
Definition batch_prefix : list Event :=
  [Render 0 repA 0 (opts "default" true); Render 1 repA 1 (opts "default" true)].
Definition batch_data : list Event :=
  [Data 0 (JStr "a1"); Data 1 (JStr "b2")].

(** A query that answers ["a1"], then [undefined] (its key was deleted);
    the component renders after each flush. *)
Definition vanished_trace : list Event :=
  [Render 0 repA 0 (opts "default" true);
   Data 0 (JStr "a1"); Tick;
   Render 0 repA 0 (opts "default" true);
   Data 0 JUndefined; Tick;
   Render 0 repA 0 (opts "default" true)].

(** A switch of source under retention, with a late answer of the old
    subscription. *)
Definition switch_trace : list Event :=
  [Render 0 repB 0 (opts "default" true); Data 0 (JStr "late"); Tick].

(** Closures to exercise the scheduler with: one records its number in the
    heap, one throws, one pushes another callback through [schedule]. *)
Inductive TestCb : Type :=
  | Trecord (n : nat)
  | Tthrow (e : JsVal)
  | Tenqueue (n : nat).

Definition test_invoke (cb : TestCb) : Js (Sched TestCb * list nat) unit :=
  fun w =>
    match cb with
    | Trecord n => Returned tt (w.1, w.2 ++ [n])
    | Tthrow e => Threw e w
    | Tenqueue n => Returned tt (schedule (Trecord n) w.1, w.2)
    end.

Definition test_enq (cb : TestCb) : list TestCb :=
  match cb with Tenqueue n => [Trecord n] | _ => [] end.

Definition test_act (cb : TestCb) (log : list nat) : list nat :=
  match cb with Trecord n => log ++ [n] | _ => log end.

(** Scenarios of the repository's test suite.  A query that resolves is a
    Data event of the subscription it was started for, followed by the
    promise job. *)
Definition repC : Source := SrcObj 3.

Definition opts_deps (def : string) (keep : bool) (deps : list JsVal) : UseSubscribeOptions :=
  mkOptions (JStr def) (Some deps) None (Some keep).

Definition test_keep_true : list Event :=
  [Render 0 SrcNull 0 (opts "default" true);
   Render 0 repA 0 (opts "default" true);
   Data 0 (JStr "data1"); Tick;
   Render 0 repA 0 (opts "default" true);
   Render 0 repB 0 (opts "default" true);
   Data 1 (JStr "data2"); Tick;
   Render 0 repB 0 (opts "default" true)].

Definition test_keep_false : list Event :=
  [Render 0 repA 0 (opts "default" false);
   Data 0 (JStr "data1"); Tick;
   Render 0 repA 0 (opts "default" false);
   Render 0 repB 0 (opts "default" false);
   Render 0 repB 0 (opts "default" false);
   Data 1 (JStr "data2"); Tick;
   Render 0 repB 0 (opts "default" false)].

Definition test_rapid_changes : list Event :=
  [Render 0 repA 0 (opts "default" true);
   Data 0 (JStr "data-a"); Tick;
   Render 0 repA 0 (opts "default" true);
   Render 0 repB 0 (opts "default" true);
   Render 0 repC 0 (opts "default" true);
   Data 1 (JStr "data-b"); Tick;
   Data 2 (JStr "data-c"); Tick;
   Render 0 repC 0 (opts "default" true)].

Definition test_stale_generation : list Event :=
  [Render 0 repA 0 (opts "default" true);
   Render 0 repB 0 (opts "default" true);
   Data 1 (JStr "fast-data"); Tick;
   Render 0 repB 0 (opts "default" true);
   Data 0 (JStr "slow-data"); Tick;
   Render 0 repB 0 (opts "default" true)].

Definition test_previous_null : list Event :=
  [Render 0 repA 0 (opts "default" true);
   Data 0 JNull; Tick;
   Render 0 repA 0 (opts "default" true);
   Render 0 repB 0 (opts "default" true);
   Data 1 (JStr "data2"); Tick;
   Render 0 repB 0 (opts "default" true)].

Definition test_multiple_transitions : list Event :=
  [Render 0 repA 0 (opts_deps "default" true [JStr "dataA"]);
   Data 0 (JStr "dataA"); Tick;
   Render 0 repA 0 (opts_deps "default" true [JStr "dataA"]);
   Render 0 repB 0 (opts_deps "default" true [JStr "dataB"]);
   Data 1 (JStr "dataB"); Tick;
   Render 0 repB 0 (opts_deps "default" true [JStr "dataB"]);
   Render 0 repA 0 (opts_deps "default" true [JStr "dataA2"]);
   Data 2 (JStr "dataA2"); Tick;
   Render 0 repA 0 (opts_deps "default" true [JStr "dataA2"]);
   Render 0 SrcNull 0 (opts_deps "default" true [JStr "unused"]);
   Render 0 repB 0 (opts_deps "default" true [JStr "dataB2"]);
   Data 3 (JStr "dataB2"); Tick;
   Render 0 repB 0 (opts_deps "default" true [JStr "dataB2"])].

Definition test_returning_undefined : list Event :=
  [Render 0 repA 0 (opts "default" true);
   Data 0 JUndefined; Tick;
   Render 0 repA 0 (opts "default" true)].

Definition test_batching : list Event :=
  [Render 0 repA 0 (mkOptions JNull None None None);
   Render 1 repA 1 (mkOptions JNull None None None);
   Data 0 (JStr "a1"); Data 1 (JStr "b2"); Tick;
   Render 0 repA 0 (mkOptions JNull None None None);
   Render 1 repA 1 (mkOptions JNull None None None)].

(** ** Further vocabulary: the lifecycle as a whole *)

Definition is_Data (e : Event) : bool :=
  match e with Data _ _ => true | _ => false end.

(** How many times instance [i] has called [r.subscribe]. *)
Definition subscriptions_of (i : nat) (st : Store) : nat :=
  length (filter (fun j => j = i) (cl_inst <$> closures st)).

(** The event is a render of instance [i] whose effect runs and reaches
    [r.subscribe]. *)
Definition subscribes (i : nat) (e : Event) (w : World) : bool :=
  match e with
  | Render j r _ o =>
      let f0 := default initFiber (fibers w.2 !! j) in
      bool_decide (j = i) && alive f0 && effect_reruns f0 r o && negb (absent r)
  | _ => false
  end.

(** A subscription is unsubscribed exactly when its closure is unmounted;
    the registered cleanup is that of a closure subscribed to the source the
    instance last saw; an instance that is alive and last saw a present
    source has a cleanup registered. *)
Definition lifecycle_inv (st : Store) : Prop :=
  (forall k c, closures st !! k = Some c -> cl_unsubscribed c = negb (isMounted c))
  /\ (forall i f k c, fibers st !! i = Some f -> destroy f = Some k ->
        closures st !! k = Some c -> prevRRef (hook f) = SrcObj (cl_source c))
  /\ (forall i f, fibers st !! i = Some f -> alive f = true ->
        absent (prevRRef (hook f)) = false -> is_Some (destroy f)).

(** The event is a Data event of closure [k]. *)
Definition is_Data_of (k : nat) (e : Event) : bool :=
  match e with Data k' _ => bool_decide (k' = k) | _ => false end.

(** The event touches instance [i]: a render or the unmount of [i], a Data
    event of one of its subscriptions, or a promise job that runs while a
    callback of its mounted closure is queued. *)
Definition concerns (i : nat) (e : Event) (w : World) : bool :=
  match e with
  | Render j _ _ _ | Unmount j => bool_decide (j = i)
  | Data _ _ => delivers_to i e w
  | Tick => applies_to i e w
  end.

(** * The first revision of the module

    The [index.ts] before the generation counter, the [isMounted] flag, the
    transition detector and the [try]/[catch] of the flush were added: the
    same scheduler variables, [doCallback] without a handler, and a hook
    whose [onData] and queued callback have no guard.  The compiled build
    has this [doCallback] too.  Events, sources, options, values and the
    framework's contract are those of the current revision. *)

Module Rev1.

Section Scheduler.
Context {Cb R : Type}.
Variable invoke : Cb -> Js (Sched Cb * R) unit.

(** [doCallback] as first written: what a callback throws leaves the loop
    and the function. *)
Definition doCallback : Js (Sched Cb * R) unit :=
  js_bind get_callbacks (fun cbs =>
    set_callbacks [] >>>
    set_hasPendingCallback false >>>
    for_of cbs (fun callback => invoke callback)).

(** The job queue runs one pending [doCallback]; when it throws, the job
    ends there (the promise is rejected). *)
Definition run_microtask (w : Sched Cb * R) : Sched Cb * R :=
  match microtasks w.1 with
  | O => w
  | S n =>
      final (doCallback
               (mkSched (callbacks w.1) (hasPendingCallback w.1) n (console w.1), w.2))
  end.
End Scheduler.

(** The hook's state and ref. *)
Record HookState : Type := mkHook {
  snapshot : JsVal;
  prevSnapshotRef : JsVal
}.

Definition initHook : HookState := mkHook JUndefined JUndefined.

(** One run of the effect that reached [r.subscribe]: the instance whose
    [setSnapshot] and ref its [onData] holds, the [keepPreviousData] its
    cleanup captured, and what [r.subscribe] was called with. *)
Record Closure : Type := mkClosure {
  cl_inst : nat;
  cl_keep : bool;
  cl_source : nat;
  cl_query : nat;
  cl_isEqual : option nat;
  cl_unsubscribed : bool
}.

Record Fiber : Type := mkFiber {
  hook : HookState;
  effectDeps : option (list JsVal);
  destroy : option nat;
  alive : bool
}.

Definition initFiber : Fiber := mkFiber initHook None None true.

Record Store : Type := mkStore {
  fibers : gmap nat Fiber;
  closures : list Closure
}.

(** The queued callback [() => setSnapshot(data)]: the instance whose
    [setSnapshot] it holds, and the data. *)
Record Callback : Type := mkCallback {
  cb_inst : nat;
  cb_data : JsVal
}.

Definition World : Type := Sched Callback * Store.

Definition initWorld : World := (initSched, mkStore ∅ []).

Definition with_hook (g : HookState -> HookState) (f : Fiber) : Fiber :=
  mkFiber (g (hook f)) (effectDeps f) (destroy f) (alive f).

Definition setSnapshot (i : nat) (v : JsVal) (st : Store) : Store :=
  mkStore (alter (fun f => if alive f
                           then with_hook (fun h => mkHook v (prevSnapshotRef h)) f
                           else f) i (fibers st))
          (closures st).

Definition write_prevSnapshotRef (i : nat) (v : JsVal) (st : Store) : Store :=
  mkStore (alter (with_hook (fun h => mkHook (snapshot h) v)) i (fibers st)) (closures st).

Definition invoke_cb (cb : Callback) : Js World unit :=
  fun w => Returned tt (w.1, setSnapshot (cb_inst cb) (cb_data cb) w.2).

(** [onData(data)] of closure [k]. *)
Definition onData (k : nat) (data : JsVal) (w : World) : World :=
  match closures w.2 !! k with
  | None => w
  | Some c =>
      (schedule (mkCallback (cl_inst c) data) w.1,
       write_prevSnapshotRef (cl_inst c) data w.2)
  end.

Definition unsubscribed (c : Closure) : Closure :=
  mkClosure (cl_inst c) (cl_keep c) (cl_source c) (cl_query c) (cl_isEqual c) true.

(** The function the effect returns, for closure [k]. *)
Definition cleanup (k : nat) (st : Store) : Store :=
  match closures st !! k with
  | None => st
  | Some c =>
      let st1 := mkStore (fibers st) (<[k := unsubscribed c]> (closures st)) in
      if negb (cl_keep c) then setSnapshot (cl_inst c) JUndefined st1 else st1
  end.

(** The effect body of instance [i]. *)
Definition effect (i : nat) (r : Source) (query : nat) (o : UseSubscribeOptions)
    (st : Store) : Store * option nat :=
  match r with
  | SrcObj a =>
      (mkStore (fibers st)
               (closures st ++ [mkClosure i (keepPreviousData_of o) a query (opt_isEqual o) false]),
       Some (length (closures st)))
  | _ => (st, None)
  end.

Definition effect_reruns (f0 : Fiber) (r : Source) (o : UseSubscribeOptions) : bool :=
  match effectDeps f0 with
  | None => true
  | Some prevDeps => negb (areHookInputsEqual (src_val r :: dependencies_of o) prevDeps)
  end.

Definition commit (i : nat) (r : Source) (query : nat) (o : UseSubscribeOptions)
    (f0 : Fiber) (st : Store) : Store :=
  if effect_reruns f0 r o then
    let st1 := match destroy f0 with Some k => cleanup k st | None => st end in
    let '(st2, d) := effect i r query o st1 in
    mkStore (alter (fun f => mkFiber (hook f) (Some (src_val r :: dependencies_of o)) d (alive f))
                   i (fibers st2))
            (closures st2)
  else st.

(** The hook body after the effect is registered. *)
Definition useSubscribe_value (h : HookState) (o : UseSubscribeOptions) : JsVal :=
  if is_undefined (snapshot h) then
    if keepPreviousData_of o && negb (is_undefined (prevSnapshotRef h))
    then prevSnapshotRef h
    else def_of o
  else snapshot h.

Definition useSubscribe (i : nat) (r : Source) (query : nat) (o : UseSubscribeOptions)
    (w : World) : JsVal * World :=
  let f0 := default initFiber (fibers w.2 !! i) in
  (useSubscribe_value (hook f0) o,
   if alive f0
   then (w.1, commit i r query o f0 (mkStore (<[i := f0]> (fibers w.2)) (closures w.2)))
   else w).

Definition unmount (i : nat) (w : World) : World :=
  match fibers w.2 !! i with
  | None => w
  | Some f =>
      if alive f then
        let st1 := match destroy f with Some k => cleanup k w.2 | None => w.2 end in
        (w.1, mkStore (alter (fun f => mkFiber (hook f) (effectDeps f) None false) i (fibers st1))
                      (closures st1))
      else w
  end.

Definition step (e : Event) (w : World) : World :=
  match e with
  | Render i r query o => (useSubscribe i r query o w).2
  | Data k data => onData k data w
  | Tick => run_microtask invoke_cb w
  | Unmount i => unmount i w
  end.

Definition run (es : list Event) (w : World) : World :=
  foldl (fun w e => step e w) w es.

Definition hook_of (i : nat) (w : World) : HookState :=
  hook (default initFiber (fibers w.2 !! i)).

(** What calling a queued callback does to the store. *)
Definition apply_cb (st : Store) (cb : Callback) : Store :=
  setSnapshot (cb_inst cb) (cb_data cb) st.

End Rev1.

(** The state the callbacks of a list leave when each one returns. *)
Fixpoint all_return {Cb R : Type} (invoke : Cb -> Js (Sched Cb * R) unit)
    (cbs : list Cb) (w : Sched Cb * R) : option (Sched Cb * R) :=
  match cbs with
  | [] => Some w
  | cb :: rest =>
      match invoke cb w with
      | Returned _ w' => all_return invoke rest w'
      | Threw _ _ => None
      end
  end.

(** The component switches from source A to source B; then the query it
    had started on A answers. *)
Definition late_answer_trace : list Event :=
  [Render 0 repA 0 (opts "default" true);
   Render 0 repB 0 (opts "default" true);
   Data 0 (JStr "late"); Tick].

(** * Render passes

    The framework's side of [setSnapshot], for the events of one tick.  A
    state update does not render: it marks the instance as updated, and the
    framework runs one render pass for all the updates that are pending when
    it next gets control (automatic batching, which the comment above
    [doCallback] relies on).  A pass is a task of its own: it never runs
    inside a promise job.  It renders each updated instance once, and since a
    render with the inputs of the last one leaves the heap as it is, a pass
    is recorded as the instances it rendered with the snapshot each one
    read.  The bail-out for an update that does not change the state is left
    out: it only removes passes. *)

Record Renderer : Type := mkRenderer {
  updated : list nat;
  passLog : list (list (nat * JsVal))
}.

Definition RWorld : Type := Sched Callback * (Store * Renderer).

(** The hook's heap, without the framework's bookkeeping. *)
Definition erase (w : RWorld) : World := (w.1, w.2.1).

(** [setSnapshot(v)] of instance [i] with the bookkeeping. *)
Definition dispatchSetState (i : nat) (v : JsVal) (h : Store * Renderer) : Store * Renderer :=
  (setSnapshot i v h.1,
   match fibers h.1 !! i with
   | Some f => if alive f then mkRenderer (updated h.2 ++ [i]) (passLog h.2) else h.2
   | None => h.2
   end).

(** The queued callback on this heap. *)
Definition invoke_cb_tracked (cb : Callback) : Js RWorld unit :=
  fun w =>
    match closures w.2.1 !! cb_closure cb with
    | Some c =>
        if isMounted c
        then Returned tt (w.1, dispatchSetState (cl_inst c) (cb_data cb) w.2)
        else Returned tt w
    | None => Returned tt w
    end.

(** One render pass, when updates are pending. *)
Definition run_pass (h : Store * Renderer) : Store * Renderer :=
  match updated h.2 with
  | [] => h
  | _ :: _ =>
      (h.1,
       mkRenderer []
         (passLog h.2
          ++ [(fun i => (i, snapshot (hook (default initFiber (fibers h.1 !! i)))))
                <$> remove_dups (updated h.2)]))
  end.

(** What can happen within a tick: a subscription delivers a result, the
    promise job runs, the framework runs a render pass. *)
Inductive TickEvent : Type :=
  | Deliver (k : nat) (data : JsVal)
  | Job
  | Pass.

Definition tick_step (t : TickEvent) (w : RWorld) : RWorld :=
  match t with
  | Deliver k data => let w' := onData k data (erase w) in (w'.1, (w'.2, w.2.2))
  | Job => run_microtask invoke_cb_tracked w
  | Pass => (w.1, run_pass w.2)
  end.

Definition tick_run (ts : list TickEvent) (w : RWorld) : RWorld :=
  foldl (fun w t => tick_step t w) w ts.

(** The same events for the hook's heap alone. *)
Definition hook_events (ts : list TickEvent) : list Event :=
  flat_map (fun t => match t with
                     | Deliver k data => [Data k data]
                     | Job => [Tick]
                     | Pass => []
                     end) ts.

Definition is_Job (t : TickEvent) : bool :=
  match t with Job => true | _ => false end.

Definition is_Deliver (t : TickEvent) : bool :=
  match t with Deliver _ _ => true | _ => false end.

(** How many times [doCallback] runs along the events of a tick. *)
Fixpoint tick_jobs (ts : list TickEvent) (w : RWorld) : nat :=
  match ts with
  | [] => 0
  | t :: rest =>
      (match t with
       | Job => match microtasks w.1 with O => 0 | S _ => 1 end
       | _ => 0
       end) + tick_jobs rest (tick_step t w)
  end.

(** The instance whose [setSnapshot] callback [cb] calls on store [st], if
    it calls it and the instance is there to take the update. *)
Definition update_of (st : Store) (cb : Callback) : list nat :=
  match closures st !! cb_closure cb with
  | Some c =>
      if isMounted c
      then match fibers st !! cl_inst c with
           | Some f => if alive f then [cl_inst c] else []
           | None => []
           end
      else []
  | None => []
  end.

(** What calling a queued callback does to the store and the bookkeeping. *)
Definition apply_cb_tracked (h : Store * Renderer) (cb : Callback) : Store * Renderer :=
  match closures h.1 !! cb_closure cb with
  | Some c => if isMounted c then dispatchSetState (cl_inst c) (cb_data cb) h else h
  | None => h
  end.

(** The batching scenario with the framework's passes: both results are
    delivered, the framework gets control in between, the job runs, the
    framework renders. *)
Definition batch_tick : list TickEvent :=
  [Deliver 0 (JStr "a1"); Pass; Deliver 1 (JStr "b2"); Pass].

(** The absent-source rule in the words of the design: an instance renders
    with [keepPreviousData = true] throughout and has received a real value;
    when it renders with an absent source the hook returns a retained value,
    that is, a real value it received. *)
Definition absent_source_as_stated : Prop :=
  forall (es : list Event) (i : nat) (r : Source) (query : nat) (o : UseSubscribeOptions),
    absent r = true ->
    keepPreviousData_of o = true ->
    forallb (renders_with i true) es = true ->
    (exists d, d ∈ delivered i es initWorld /\ d <> JUndefined) ->
    let v := (useSubscribe i r query o (run es initWorld)).1 in
    v <> JUndefined /\ v ∈ delivered i es initWorld.

(** A result is delivered, and before the promise job runs the component
    renders without a source. *)
Definition pending_lost_trace : list Event :=
  [Render 0 repA 0 (opts "default" true);
   Data 0 (JStr "v");
   Render 0 SrcNull 0 (opts "default" true)].
(** * Properties *)

(** ** The scenarios of the test suite *)

Example keep_true_preserves :
  render_log test_keep_true initWorld
  = [JStr "default"; JStr "default"; JStr "data1"; JStr "data1"; JStr "data2"].
Proof. reflexivity. Qed.

Example keep_false_resets :
  render_log test_keep_false initWorld
  = [JStr "default"; JStr "data1"; JStr "default"; JStr "default"; JStr "data2"].
Proof. reflexivity. Qed.

Example rapid_changes_settle_on_last :
  render_log test_rapid_changes initWorld
  = [JStr "default"; JStr "data-a"; JStr "data-a"; JStr "data-a"; JStr "data-c"].
Proof. reflexivity. Qed.

Example stale_generation_ignored :
  render_log test_stale_generation initWorld
  = [JStr "default"; JStr "default"; JStr "fast-data"; JStr "fast-data"].
Proof. reflexivity. Qed.

Example previous_null_preserved :
  render_log test_previous_null initWorld
  = [JStr "default"; JNull; JNull; JStr "data2"].
Proof. reflexivity. Qed.

Example multiple_transitions :
  render_log test_multiple_transitions initWorld
  = [JStr "default"; JStr "dataA"; JStr "dataA"; JStr "dataB"; JStr "dataB";
     JStr "dataA2"; JStr "dataA2"; JStr "dataA2"; JStr "dataB2"].
Proof. reflexivity. Qed.

Example returning_undefined_gives_default :
  render_log test_returning_undefined initWorld = [JStr "default"; JStr "default"].
Proof. reflexivity. Qed.

Example batching_one_flush :
  render_log test_batching initWorld = [JNull; JNull; JStr "a1"; JStr "b2"]
  /\ jobs_run test_batching initWorld = 1.
Proof. split; reflexivity. Qed.

(** ** The transition detector (lines 259-261) *)

Lemma Object_is_true (a b : JsVal) : Object_is a b = true <-> a = b.
Proof. unfold Object_is. apply bool_decide_eq_true. Qed.

Lemma Object_is_false (a b : JsVal) : Object_is a b = false <-> a <> b.
Proof. unfold Object_is. apply bool_decide_eq_false. Qed.

Lemma array_some_true (p : JsVal -> nat -> bool) (arr : list JsVal) (i : nat) :
  array_some p arr i = true <-> exists j x, arr !! j = Some x /\ p x (i + j) = true.
Proof.
  revert i. induction arr as [|a arr IH]; intros i; simpl.
  - split; [discriminate | intros (j & x & H & _); discriminate].
  - rewrite orb_true_iff, IH. split.
    + intros [H | (j & x & Hj & Hp)].
      * exists 0, a. rewrite Nat.add_0_r. auto.
      * exists (S j), x. rewrite Nat.add_succ_r. auto.
    + intros ([|j] & x & Hj & Hp); simpl in Hj.
      * left. inversion Hj; subst. by rewrite Nat.add_0_r in Hp.
      * right. exists j, x. rewrite Nat.add_succ_r in Hp. auto.
Qed.

Lemma depsChanged_true (dependencies prevDeps : list JsVal) :
  depsChanged dependencies prevDeps = true <-> deps_differ dependencies prevDeps.
Proof.
  unfold depsChanged, deps_differ.
  rewrite orb_true_iff, negb_true_iff, Nat.eqb_neq, array_some_true.
  split.
  - intros [H | (j & x & Hj & Hp)]; [by left |].
    destruct (decide (length dependencies = length prevDeps)) as [Hlen | Hlen]; [right | by left].
    apply negb_true_iff, Object_is_false in Hp. simpl in Hp.
    destruct (prevDeps !! j) as [y|] eqn:Hy.
    + exists j, x, y. unfold array_get in Hp. rewrite Hy in Hp. auto.
    + apply lookup_ge_None in Hy. apply lookup_lt_Some in Hj. lia.
  - intros [H | (j & x & y & Hj & Hy & Hne)]; [by left | right].
    exists j, x. split; [done |].
    apply negb_true_iff, Object_is_false. simpl.
    unfold array_get. by rewrite Hy.
Qed.

Lemma deps_differ_neq (dependencies prevDeps : list JsVal) :
  deps_differ dependencies prevDeps <-> dependencies <> prevDeps.
Proof.
  split.
  - intros [H | (j & x & y & Hj & Hy & Hne)] ->; [done |]. congruence.
  - revert prevDeps. induction dependencies as [|a l IH]; intros [|b m] Hne.
    + done.
    + left. simpl. lia.
    + left. simpl. lia.
    + destruct (decide (a = b)) as [-> | Hab].
      * destruct (IH m) as [H | (j & x & y & Hj & Hy & Hxy)]; [congruence | |].
        -- left. simpl. lia.
        -- right. by exists (S j), x, y.
      * right. by exists 0, a, b.
Qed.

(** What the effect leaves in the three refs the detector reads. *)
Lemma effect_refs (i : nat) (r : Source) (query : nat) (o : UseSubscribeOptions)
    (snap : JsVal) (st : Store) (f : Fiber) :
  fibers st !! i = Some f ->
  exists f', fibers (effect i r query o snap st).1 !! i = Some f'
    /\ hasRunEffectRef (hook f') = true
    /\ prevRRef (hook f') = r
    /\ prevDepsRef (hook f') = dependencies_of o.
Proof.
  intros Hf. unfold effect. rewrite Hf.
  destruct r; simpl; rewrite lookup_insert_eq; eexists; (split; [done |]); simpl; auto.
  by destruct (keepPreviousData_of o && negb (is_undefined snap)).
Qed.

(** C9. The detector answers yes exactly when the effect has run before and
    either the source is not the one the effect last captured, or the
    dependency list differs from the captured one (other length, or some
    position not identical); the captured values are the [r] and the
    [dependencies] of the effect's last run, and a hook whose effect never
    ran (first mount) is never in transition. *)
Theorem C9_transition_detector :
  (forall h r dependencies,
     hasTransitioned h r dependencies = true
     <-> hasRunEffectRef h = true
         /\ (r <> prevRRef h \/ deps_differ dependencies (prevDepsRef h)))
  /\ (forall dependencies prevDeps,
        deps_differ dependencies prevDeps <-> dependencies <> prevDeps)
  /\ (forall r dependencies, hasTransitioned initHook r dependencies = false)
  /\ (forall h r dependencies,
        hasRunEffectRef h = false -> hasTransitioned h r dependencies = false)
  /\ (forall i r query o snap st f,
        fibers st !! i = Some f ->
        exists f', fibers (effect i r query o snap st).1 !! i = Some f'
          /\ hasRunEffectRef (hook f') = true
          /\ prevRRef (hook f') = r
          /\ prevDepsRef (hook f') = dependencies_of o).
Proof.
  split; [| split; [| split; [| split]]].
  - intros h r deps. unfold hasTransitioned.
    rewrite andb_true_iff, orb_true_iff, negb_true_iff, bool_decide_eq_false,
      depsChanged_true. tauto.
  - apply deps_differ_neq.
  - intros r deps. unfold hasTransitioned. simpl. apply andb_false_r.
  - intros h r deps H. unfold hasTransitioned. rewrite H. apply andb_false_r.
  - apply effect_refs.
Qed.

(** ** The batch scheduler (lines 141-156 and 294-303) *)

Section SchedulerFacts.
Context {Cb R : Type}.
Variable invoke : Cb -> Js (Sched Cb * R) unit.

Lemma for_of_guarded (cbs : list Cb) (w : Sched Cb * R) :
  for_of cbs (fun callback => try_catch (invoke callback) (fun e => console_error e)) w
  = Returned tt (foldl (call_guarded invoke) w cbs).
Proof.
  revert w. induction cbs as [|cb cbs IH]; intros w; simpl; [done |].
  unfold js_bind at 1, try_catch at 1, call_guarded at 2.
  destruct (invoke cb w) as [[] w' | e w']; simpl; apply IH.
Qed.

(** [doCallback] never throws; it empties the queue and clears the flag
    first, then calls the captured callbacks one after the other. *)
Lemma doCallback_fold (w : Sched Cb * R) :
  doCallback invoke w
  = Returned tt (foldl (call_guarded invoke) (flush_start w) (callbacks w.1)).
Proof.
  unfold doCallback, js_bind, get_callbacks, set_callbacks, set_hasPendingCallback,
    js_modify. simpl. apply for_of_guarded.
Qed.

Lemma schedule_callbacks (cb : Cb) (s : Sched Cb) :
  callbacks (schedule cb s) = callbacks s ++ [cb].
Proof. unfold schedule. by destruct (hasPendingCallback s). Qed.

Lemma schedule_flag (cb : Cb) (s : Sched Cb) :
  hasPendingCallback (schedule cb s) = true.
Proof. unfold schedule. by destruct (hasPendingCallback s). Qed.

Lemma schedule_microtasks (cb : Cb) (s : Sched Cb) :
  microtasks (schedule cb s)
  = if hasPendingCallback s then microtasks s else S (microtasks s).
Proof. unfold schedule. by destruct (hasPendingCallback s). Qed.

Lemma schedule_console (cb : Cb) (s : Sched Cb) :
  console (schedule cb s) = console s.
Proof. unfold schedule. by destruct (hasPendingCallback s). Qed.

Lemma schedule_ok (cb : Cb) (s : Sched Cb) : sched_ok s -> sched_ok (schedule cb s).
Proof.
  intros [Hm Hq]. split.
  - rewrite schedule_flag, schedule_microtasks. destruct (hasPendingCallback s); lia.
  - rewrite schedule_flag. discriminate.
Qed.

Lemma schedule_all_callbacks (cbs : list Cb) (s : Sched Cb) :
  callbacks (foldl (fun s cb => schedule cb s) s cbs) = callbacks s ++ cbs.
Proof.
  revert s. induction cbs as [|cb cbs IH]; intros s; simpl.
  - by rewrite app_nil_r.
  - rewrite IH, schedule_callbacks, <- app_assoc. done.
Qed.

Lemma schedule_all_ok (cbs : list Cb) (s : Sched Cb) :
  sched_ok s -> sched_ok (foldl (fun s cb => schedule cb s) s cbs).
Proof.
  revert s. induction cbs as [|cb cbs IH]; intros s Hs; simpl; [done |].
  by apply IH, schedule_ok.
Qed.

Lemma schedule_all_microtasks (cbs : list Cb) (s : Sched Cb) :
  microtasks (foldl (fun s cb => schedule cb s) s cbs)
  = match cbs with
    | [] => microtasks s
    | _ :: _ => if hasPendingCallback s then microtasks s else S (microtasks s)
    end.
Proof.
  destruct cbs as [|cb cbs]; simpl; [done |].
  assert (forall (l : list Cb) (t : Sched Cb), hasPendingCallback t = true ->
            microtasks (foldl (fun s cb => schedule cb s) t l) = microtasks t) as Hkeep.
  { induction l as [|x l IH]; intros t Ht; simpl; [done |].
    rewrite IH by apply schedule_flag. rewrite schedule_microtasks. by rewrite Ht. }
  rewrite Hkeep by apply schedule_flag. apply schedule_microtasks.
Qed.

Lemma schedule_all_flag (cbs : list Cb) (s : Sched Cb) :
  hasPendingCallback (foldl (fun s cb => schedule cb s) s cbs)
  = match cbs with [] => hasPendingCallback s | _ :: _ => true end.
Proof.
  revert s. induction cbs as [|cb cbs IH]; intros s; simpl; [done |].
  rewrite IH. destruct cbs; [apply schedule_flag | done].
Qed.

(** Callbacks that enqueue: [enq cb] is what [cb] pushes through
    [schedule] when called, [act cb] what it does to the rest of the heap. *)
Lemma flush_enqueuing (enq : Cb -> list Cb) (act : Cb -> R -> R)
    (cbs : list Cb) (w : Sched Cb * R) :
  (forall cb w', cb ∈ cbs ->
     invoke cb w' = Returned tt (foldl (fun s c => schedule c s) w'.1 (enq cb), act cb w'.2)) ->
  foldl (call_guarded invoke) w cbs
  = (foldl (fun s c => schedule c s) w.1 (concat (map enq cbs)),
     foldl (fun h cb => act cb h) w.2 cbs).
Proof.
  revert w. induction cbs as [|cb cbs IH]; intros w H; simpl.
  - by destruct w.
  - unfold call_guarded at 2. rewrite H by apply list_elem_of_here.
    rewrite IH by (intros; apply H; by apply list_elem_of_further).
    simpl. by rewrite foldl_app.
Qed.

Lemma flush_preserves_ok (cbs : list Cb) (w : Sched Cb * R) :
  (forall cb w', sched_ok w'.1 -> sched_ok (call_guarded invoke w' cb).1) ->
  sched_ok w.1 -> sched_ok (foldl (call_guarded invoke) w cbs).1.
Proof.
  intros H. revert w. induction cbs as [|cb cbs IH]; intros w Hw; simpl; [done |].
  by apply IH, H.
Qed.

Lemma run_microtask_ok (w : Sched Cb * R) :
  (forall cb w', sched_ok w'.1 -> sched_ok (call_guarded invoke w' cb).1) ->
  sched_ok w.1 -> sched_ok (run_microtask invoke w).1.
Proof.
  intros H Hok. unfold run_microtask.
  destruct (microtasks w.1) as [|n] eqn:Hn; [exact Hok |].
  rewrite doCallback_fold. simpl. apply flush_preserves_ok; [done |].
  destruct Hok as [Hm Hq]. unfold flush_start. split; simpl; [| done].
  rewrite Hn in Hm. destruct (hasPendingCallback w.1); lia.
Qed.
End SchedulerFacts.

(** ** Heap invariants *)

Lemma same_ctrl_refl (st : Store) : same_ctrl st st.
Proof. by intros j. Qed.

Lemma same_ctrl_trans (st1 st2 st3 : Store) :
  same_ctrl st1 st2 -> same_ctrl st2 st3 -> same_ctrl st1 st3.
Proof. intros H1 H2 j. by rewrite H2, H1. Qed.

Lemma same_ctrl_alter (g : Fiber -> Fiber) (i : nat) (st : Store) (cls : list Closure) :
  (forall f, ctrl (g f) = ctrl f) ->
  same_ctrl st (mkStore (alter g i (fibers st)) cls).
Proof.
  intros Hg j. simpl. rewrite lookup_alter. case_decide; [subst |done].
  destruct (fibers st !! j); simpl; [by rewrite Hg | done].
Qed.

Lemma setSnapshot_ctrl (i : nat) (v : JsVal) (st : Store) :
  same_ctrl st (setSnapshot i v st).
Proof. apply same_ctrl_alter. intros f. by destruct (alive f). Qed.

Lemma write_prevSnapshotRef_ctrl (i : nat) (v : JsVal) (st : Store) :
  same_ctrl st (write_prevSnapshotRef i v st).
Proof. by apply same_ctrl_alter. Qed.

Lemma setSnapshot_closures (i : nat) (v : JsVal) (st : Store) :
  closures (setSnapshot i v st) = closures st.
Proof. done. Qed.

Lemma cleanup_closures (k : nat) (st : Store) :
  closures (cleanup k st)
  = match closures st !! k with
    | Some c => <[k := unmounted c]> (closures st)
    | None => closures st
    end.
Proof.
  unfold cleanup. destruct (closures st !! k) as [c|]; [| done].
  by destruct (cl_keep c).
Qed.

Lemma cleanup_ctrl (k : nat) (st : Store) : same_ctrl st (cleanup k st).
Proof.
  unfold cleanup. destruct (closures st !! k) as [c|]; [| apply same_ctrl_refl].
  set (st1 := mkStore (fibers st) (<[k:=unmounted c]> (closures st))).
  assert (same_ctrl st st1) as H1 by (by intros j).
  assert (same_ctrl st (write_prevSnapshotRef (cl_inst c) JUndefined st1)) as H2.
  { eapply same_ctrl_trans; [exact H1 | apply write_prevSnapshotRef_ctrl]. }
  destruct (cl_keep c); simpl; [done |].
  eapply same_ctrl_trans; [exact H2 | apply setSnapshot_ctrl].
Qed.

Lemma same_ctrl_lookup (st st' : Store) (j : nat) (f' : Fiber) :
  same_ctrl st st' -> fibers st' !! j = Some f' ->
  exists f, fibers st !! j = Some f /\ ctrl f = ctrl f'.
Proof.
  intros H Hf. specialize (H j). rewrite Hf in H. simpl in H.
  destruct (fibers st !! j) as [f|]; simpl in H; [| done].
  exists f. split; [done | congruence].
Qed.

Lemma same_ctrl_lookup_rev (st st' : Store) (j : nat) (f : Fiber) :
  same_ctrl st st' -> fibers st !! j = Some f ->
  exists f', fibers st' !! j = Some f' /\ ctrl f = ctrl f'.
Proof.
  intros H Hf. specialize (H j). rewrite Hf in H. simpl in H.
  destruct (fibers st' !! j) as [f'|]; simpl in H; [| done].
  exists f'. split; [done | congruence].
Qed.

(** The invariant does not read the data cells. *)
Lemma store_ok_same_ctrl (st st' : Store) :
  same_ctrl st st' -> closures st' = closures st -> store_ok st -> store_ok st'.
Proof.
  intros Hc Hcl (Hf & Hk & Hg). split; [| split].
  - intros i f' Hf'. destruct (same_ctrl_lookup _ _ _ _ Hc Hf') as (f & Hfi & E).
    destruct (Hf i f Hfi) as (H1 & H2 & H3). ctrl_fields E.
    unfold fiber_ok. rewrite Hcl. split; [congruence |]. split; [congruence |].
    intros k Hd. destruct (H3 k) as (? & ? & c & ? & ? & ? & ?); [congruence |].
    split; [congruence |]. split; [congruence |].
    exists c. repeat split; congruence.
  - intros k c Hkc. rewrite Hcl in Hkc. destruct (Hk k c Hkc) as (f & Hfi & Hle & Hm).
    destruct (same_ctrl_lookup_rev _ _ _ _ Hc Hfi) as (f' & Hf' & E). ctrl_fields E.
    exists f'. repeat split; [done | congruence |]. intros. rewrite <- Hm; congruence.
  - unfold gens_ordered. rewrite Hcl. exact Hg.
Qed.

Lemma invoke_cb_apply (cb : Callback) (w : World) :
  invoke_cb cb w = Returned tt (w.1, apply_cb w.2 cb).
Proof.
  unfold invoke_cb, apply_cb. destruct w as [s st]. simpl.
  destruct (closures st !! cb_closure cb) as [c|]; [| done]. by destruct (isMounted c).
Qed.

Lemma call_guarded_apply (cb : Callback) (w : World) :
  call_guarded invoke_cb w cb = (w.1, apply_cb w.2 cb).
Proof. unfold call_guarded. by rewrite invoke_cb_apply. Qed.

Lemma flush_apply (cbs : list Callback) (w : World) :
  foldl (call_guarded invoke_cb) w cbs = (w.1, foldl apply_cb w.2 cbs).
Proof.
  revert w. induction cbs as [|cb cbs IH]; intros w; simpl; [by destruct w |].
  by rewrite call_guarded_apply, IH.
Qed.

(** A promise job on the hook's own callbacks: the queue is emptied, the
    flag cleared, the callbacks applied in order; nothing is printed. *)
Lemma run_microtask_hook (w : World) :
  run_microtask invoke_cb w
  = match microtasks w.1 with
    | O => w
    | S n => (mkSched [] false n (console w.1), foldl apply_cb w.2 (callbacks w.1))
    end.
Proof.
  unfold run_microtask. destruct (microtasks w.1) as [|n]; [done |].
  rewrite doCallback_fold. simpl. by rewrite flush_apply.
Qed.

Lemma apply_cb_closures (st : Store) (cb : Callback) :
  closures (apply_cb st cb) = closures st.
Proof.
  unfold apply_cb. destruct (closures st !! cb_closure cb) as [c|]; [| done].
  by destruct (isMounted c).
Qed.

Lemma apply_cb_ctrl (st : Store) (cb : Callback) : same_ctrl st (apply_cb st cb).
Proof.
  unfold apply_cb. destruct (closures st !! cb_closure cb) as [c|]; [| apply same_ctrl_refl].
  destruct (isMounted c); [apply setSnapshot_ctrl | apply same_ctrl_refl].
Qed.

Lemma apply_all_closures (cbs : list Callback) (st : Store) :
  closures (foldl apply_cb st cbs) = closures st.
Proof.
  revert st. induction cbs as [|cb cbs IH]; intros st; simpl; [done |].
  by rewrite IH, apply_cb_closures.
Qed.

Lemma apply_all_ctrl (cbs : list Callback) (st : Store) :
  same_ctrl st (foldl apply_cb st cbs).
Proof.
  revert st. induction cbs as [|cb cbs IH]; intros st; simpl; [apply same_ctrl_refl |].
  eapply same_ctrl_trans; [apply apply_cb_ctrl | apply IH].
Qed.

Lemma wf_tick (w : World) : wf w -> wf (step Tick w).
Proof.
  intros [Hs Hst]. simpl. rewrite run_microtask_hook.
  destruct (microtasks w.1) as [|n] eqn:Hn; [by split |]. split; simpl.
  - destruct Hs as [Hm Hq]. rewrite Hn in Hm. split; simpl; [| done].
    destruct (hasPendingCallback w.1); lia.
  - eapply store_ok_same_ctrl; [apply apply_all_ctrl | apply apply_all_closures | done].
Qed.

Lemma wf_data (k : nat) (data : JsVal) (w : World) : wf w -> wf (step (Data k data) w).
Proof.
  intros [Hs Hst]. simpl. unfold onData.
  destruct (closures w.2 !! k) as [c|]; [| by split].
  destruct (fibers w.2 !! cl_inst c) as [f|]; [| by split].
  destruct (negb _); [by split |]. split; simpl.
  - by apply schedule_ok.
  - eapply store_ok_same_ctrl; [apply write_prevSnapshotRef_ctrl | done | done].
Qed.

Lemma teardown_length (d : option nat) (cls : list Closure) :
  length (teardown_closures d cls) = length cls.
Proof.
  unfold teardown_closures. destruct d as [k|]; [| done].
  destruct (cls !! k); [apply length_insert | done].
Qed.

Lemma teardown_lookup (d : option nat) (cls : list Closure) (k : nat) (c' : Closure) :
  teardown_closures d cls !! k = Some c' ->
  exists c, cls !! k = Some c
    /\ cl_inst c' = cl_inst c /\ currentGen c' = currentGen c
    /\ (isMounted c' = true -> c' = c /\ d <> Some k).
Proof.
  unfold teardown_closures. destruct d as [k0|]; [| by eauto 10].
  destruct (cls !! k0) as [c0|] eqn:H0.
  - rewrite list_lookup_insert_Some. intros [(-> & <- & Hlt) | (Hne & H)].
    + exists c0. by repeat split.
    + exists c'. repeat split; [done | congruence].
  - intros H. exists c'. repeat split; [done | congruence].
Qed.

(** The heap after a commit that re-ran the effect of instance [i], or after
    its unmount, described by what changed; it satisfies the invariant. *)
Lemma store_ok_commit (st0 st' : Store) (i : nat) (f0 f1 : Fiber) (news : list Closure) :
  fibers st0 !! i = Some f0 ->
  (forall j f, j <> i -> fibers st0 !! j = Some f -> fiber_ok st0 j f) ->
  (forall k c, closures st0 !! k = Some c -> closure_ok st0 k c) ->
  gens_ordered st0 ->
  (forall k, destroy f0 = Some k -> exists c, closures st0 !! k = Some c /\ cl_inst c = i) ->
  closures st' = teardown_closures (destroy f0) (closures st0) ++ news ->
  (forall j, j <> i -> ctrl <$> (fibers st' !! j) = ctrl <$> (fibers st0 !! j)) ->
  fibers st' !! i = Some f1 ->
  hasRunEffectRef (hook f1) = true ->
  effectDeps f1 = Some (src_val (prevRRef (hook f1)) :: prevDepsRef (hook f1)) ->
  (generationRef (hook f0) <= generationRef (hook f1))%N ->
  match news with
  | [] => destroy f1 = None
  | c :: rest =>
      rest = [] /\ destroy f1 = Some (length (closures st0)) /\ alive f1 = true
      /\ absent (prevRRef (hook f1)) = false /\ cl_inst c = i /\ isMounted c = true
      /\ currentGen c = generationRef (hook f1)
      /\ (generationRef (hook f0) < generationRef (hook f1))%N
  end ->
  store_ok st'.
Proof.
  intros Hi P1 P2 P3 P4 Q1 Q2 Q3 Qrun Qdeps Qgen Qnew.
  set (cls1 := teardown_closures (destroy f0) (closures st0)) in *.
  assert (length cls1 = length (closures st0)) as Hlen by apply teardown_length.
  assert (forall k c', closures st' !! k = Some c' ->
            (k < length cls1 /\ cls1 !! k = Some c')
            \/ (k = length cls1 /\ news = [c'])) as Hsplit.
  { intros k c'. rewrite Q1. destruct news as [|c rest].
    - rewrite app_nil_r. intros H. left. split; [by eapply lookup_lt_Some | done].
    - destruct Qnew as (-> & _). rewrite lookup_snoc_Some.
      intros [[Hk Hc] | [-> ->]]; [by left | by right]. }
  assert (forall k c', cls1 !! k = Some c' -> closures st' !! k = Some c') as Hold.
  { intros k c' H. rewrite Q1. rewrite lookup_app_l; [done | by eapply lookup_lt_Some]. }
  assert (forall j f, j <> i -> fibers st0 !! j = Some f ->
            exists f', fibers st' !! j = Some f' /\ ctrl f = ctrl f') as Hfwd.
  { intros j f Hj Hf. specialize (Q2 j Hj). rewrite Hf in Q2. simpl in Q2.
    destruct (fibers st' !! j) as [f'|]; simpl in Q2; [| done].
    exists f'. split; [done | congruence]. }
  split; [| split].
  - (* fibers *)
    intros j f' Hf'. destruct (decide (j = i)) as [-> | Hj].
    + rewrite Q3 in Hf'. inversion Hf'; subst f'. clear Hf'.
      split; [done |]. split; [done |]. intros k Hk.
      destruct news as [|c rest]; [congruence |].
      destruct Qnew as (-> & Hd & Hal & Hab & Hci & Hm & Hg & _).
      split; [done |]. split; [done |]. exists c.
      split; [| done]. rewrite Q1. rewrite Hd in Hk. inversion Hk; subst k.
      rewrite <- Hlen. by apply list_lookup_middle.
    + specialize (Q2 j Hj). rewrite Hf' in Q2. simpl in Q2.
      destruct (fibers st0 !! j) as [f|] eqn:Hf; simpl in Q2; [| done].
      assert (ctrl f = ctrl f') as E by congruence. ctrl_fields E.
      destruct (P1 j f Hj Hf) as (H1 & H2 & H3).
      split; [congruence |]. split; [congruence |]. intros k Hk.
      destruct (H3 k) as (Ha & Hb & c & Hc & Hci & Hm & Hg); [congruence |].
      split; [congruence |]. split; [congruence |]. exists c.
      split; [| repeat split; congruence].
      apply Hold. unfold cls1, teardown_closures.
      destruct (destroy f0) as [k0|] eqn:Hd0; [| done].
      destruct (P4 k0 eq_refl) as (c0 & Hc0 & Hci0). rewrite Hc0.
      rewrite list_lookup_insert_ne; [done |]. intros ->. congruence.
  - (* closures *)
    intros k c' Hk. destruct (Hsplit k c' Hk) as [[Hlt Hc1] | [-> ->]].
    + destruct (teardown_lookup _ _ _ _ Hc1) as (c & Hc & Ei & Eg & Hm).
      destruct (P2 k c Hc) as (f & Hf & Hle & Hmo).
      unfold closure_ok. rewrite Ei. destruct (decide (cl_inst c = i)) as [Hci | Hci].
      * rewrite Hci in *. exists f1. split; [done |].
        assert (f = f0) by congruence. subst f.
        split; [rewrite Eg; lia |]. intros Hmt.
        destruct (Hm Hmt) as [-> Hd]. exfalso. apply Hd. by apply Hmo.
      * destruct (Hfwd _ _ Hci Hf) as (f' & Hf' & E). ctrl_fields E.
        exists f'. split; [done |]. split; [rewrite Eg; congruence |].
        intros Hmt. destruct (Hm Hmt) as [-> _]. rewrite <- Hmo; [congruence | done].
    + destruct Qnew as (_ & Hd & Hal & Hab & Hci & Hm & Hg & _).
      exists f1. rewrite Hci. split; [done |]. split; [rewrite Hg; lia |].
      intros _. by rewrite Hd, Hlen.
  - (* generations *)
    intros k1 k2 c1 c2 H1 H2 Hinst Hlt.
    destruct (Hsplit k1 c1 H1) as [[Hlt1 Hc1] | [-> Hn1]];
      destruct (Hsplit k2 c2 H2) as [[Hlt2 Hc2] | [-> Hn2]]; try lia.
    + destruct (teardown_lookup _ _ _ _ Hc1) as (d1 & Hd1 & Ei1 & Eg1 & _).
      destruct (teardown_lookup _ _ _ _ Hc2) as (d2 & Hd2 & Ei2 & Eg2 & _).
      rewrite Eg1, Eg2. eapply P3; eauto. congruence.
    + destruct (teardown_lookup _ _ _ _ Hc1) as (d1 & Hd1 & Ei1 & Eg1 & _).
      rewrite Hn2 in Qnew. destruct Qnew as (_ & _ & _ & _ & Hci & _ & Hg & Hgt).
      destruct (P2 k1 d1 Hd1) as (f & Hf & Hle & _).
      assert (f = f0) by congruence. subst f. rewrite Eg1, Hg. lia.
Qed.

(** The effect body, by what it leaves behind. *)
Lemma effect_spec (i : nat) (r : Source) (query : nat) (o : UseSubscribeOptions)
    (snap : JsVal) (st : Store) (f : Fiber) :
  fibers st !! i = Some f ->
  exists h',
    fibers (effect i r query o snap st).1
      = <[i := mkFiber h' (effectDeps f) (destroy f) (alive f)]> (fibers st)
    /\ hasRunEffectRef h' = true /\ prevRRef h' = r /\ prevDepsRef h' = dependencies_of o
    /\ snapshot h' = snapshot (hook f)
    /\ prevSnapshotRef h'
       = (if negb (absent r) && (keepPreviousData_of o && negb (is_undefined snap))
          then snap else prevSnapshotRef (hook f))
    /\ match r with
       | SrcObj a =>
           closures (effect i r query o snap st).1
             = closures st ++ [mkClosure i (generationRef h') true (keepPreviousData_of o)
                                         a query (opt_isEqual o) false]
           /\ (effect i r query o snap st).2 = Some (length (closures st))
           /\ generationRef h' = (generationRef (hook f) + 1)%N
       | _ =>
           closures (effect i r query o snap st).1 = closures st
           /\ (effect i r query o snap st).2 = None
           /\ generationRef h' = generationRef (hook f)
       end.
Proof.
  intros Hf. unfold effect. rewrite Hf.
  destruct r as [| |a]; simpl.
  - eexists. split; [reflexivity |]. simpl. by repeat split.
  - eexists. split; [reflexivity |]. simpl. by repeat split.
  - eexists. split; [reflexivity |]. simpl.
    destruct (keepPreviousData_of o && negb (is_undefined snap)); simpl; by repeat split.
Qed.

Lemma wf_unmount (i : nat) (w : World) : wf w -> wf (step (Unmount i) w).
Proof.
  intros [Hs (Hf & Hk & Hg)]. simpl. unfold unmount.
  destruct (fibers w.2 !! i) as [f|] eqn:Hi; [| by split].
  destruct (alive f) eqn:Hal; [| by split]. split; [done |]. simpl.
  set (st1 := match destroy f with Some k => cleanup k w.2 | None => w.2 end).
  assert (same_ctrl w.2 st1) as Hc1.
  { unfold st1. destruct (destroy f); [apply cleanup_ctrl | apply same_ctrl_refl]. }
  assert (closures st1 = teardown_closures (destroy f) (closures w.2)) as Hcl1.
  { unfold st1, teardown_closures. destruct (destroy f); [apply cleanup_closures | done]. }
  destruct (same_ctrl_lookup_rev _ _ _ _ Hc1 Hi) as (f1 & Hf1 & E). ctrl_fields E.
  destruct (Hf i f Hi) as (H1 & H2 & H3).
  eapply (store_ok_commit w.2 _ i f (mkFiber (hook f1) (effectDeps f1) None false) []).
  - done.
  - intros; by apply Hf.
  - done.
  - done.
  - intros k Hd. destruct (H3 k Hd) as (_ & _ & c & ? & ? & _). by exists c.
  - simpl. by rewrite app_nil_r.
  - intros j Hj. simpl. rewrite lookup_alter_ne by done. apply Hc1.
  - simpl. by rewrite lookup_alter_eq, Hf1.
  - simpl. congruence.
  - simpl. congruence.
  - simpl. apply N.eq_le_incl. congruence.
  - done.
Qed.

Lemma areHookInputsEqual_refl (l : list JsVal) : areHookInputsEqual l l = true.
Proof.
  induction l as [|x l IH]; simpl; [done |].
  rewrite IH, andb_true_r. by apply Object_is_true.
Qed.

Lemma wf_render (i : nat) (r : Source) (query : nat) (o : UseSubscribeOptions) (w : World) :
  wf w -> wf (step (Render i r query o) w).
Proof.
  intros [Hs (Hf & Hk & Hg)]. simpl.
  set (f0 := default initFiber (fibers w.2 !! i)).
  destruct (alive f0) eqn:Hal; [| by split]. split; [done |]. simpl.
  set (st0 := mkStore (<[i:=f0]> (fibers w.2)) (closures w.2)).
  unfold commit.
  set (nextDeps := src_val r :: dependencies_of o).
  destruct (effect_reruns f0 r o) eqn:Hrerun.
  2:{ (* the effect is skipped: the instance was mounted and nothing changes *)
      unfold effect_reruns in Hrerun.
      destruct (fibers w.2 !! i) as [f|] eqn:Hi; [| done].
      unfold st0, f0. simpl. rewrite insert_id by done. by destruct w as [s []]. }
  assert (fibers st0 !! i = Some f0) as Hi0 by apply lookup_insert_eq.
  assert (forall j, j <> i -> fibers st0 !! j = fibers w.2 !! j) as Hother.
  { intros j Hj. unfold st0. simpl. by rewrite lookup_insert_ne. }
  (* the closures of a heap without instance [i] belong to other instances *)
  assert (forall k c, closures w.2 !! k = Some c -> closure_ok st0 k c) as Hk0.
  { intros k c Hc. destruct (Hk k c Hc) as (f & Hfc & Hle & Hm).
    destruct (decide (cl_inst c = i)) as [Hci | Hci].
    - exists f0. rewrite Hci in *. split; [done |].
      unfold f0. rewrite Hfc. simpl. done.
    - exists f. rewrite Hother by done. done. }
  assert (forall k, destroy f0 = Some k ->
            exists c, closures st0 !! k = Some c /\ cl_inst c = i) as Hd0.
  { intros k Hd. unfold f0 in Hd. destruct (fibers w.2 !! i) as [f|] eqn:Hi; [| done].
    simpl in Hd. destruct (Hf i f Hi) as (_ & _ & H3).
    destruct (H3 k Hd) as (_ & _ & c & ? & ? & _). by exists c. }
  set (st1 := match destroy f0 with Some k => cleanup k st0 | None => st0 end).
  assert (same_ctrl st0 st1) as Hc1.
  { unfold st1. destruct (destroy f0); [apply cleanup_ctrl | apply same_ctrl_refl]. }
  assert (closures st1 = teardown_closures (destroy f0) (closures st0)) as Hcl1.
  { unfold st1, teardown_closures. destruct (destroy f0); [apply cleanup_closures | done]. }
  destruct (same_ctrl_lookup_rev _ _ _ _ Hc1 Hi0) as (f1 & Hf1 & E). ctrl_fields E.
  destruct (effect_spec i r query o (snapshot (hook f0)) st1 f1 Hf1)
    as (h' & Hfib & Hrun & HR & HD & Hsnap & Hprev & Hcase).
  destruct (effect i r query o (snapshot (hook f0)) st1) as [st2 d] eqn:Heff.
  simpl in Hfib, Hcase.
  eapply (store_ok_commit st0 _ i f0 (mkFiber h' (Some nextDeps) d (alive f1))
            (match r with
             | SrcObj a => [mkClosure i (generationRef h') true (keepPreviousData_of o)
                                      a query (opt_isEqual o) false]
             | _ => []
             end)).
  - done.
  - intros j f Hj Hfj. rewrite Hother in Hfj by done.
    destruct (Hf j f Hfj) as (H1 & H2 & H3). split; [done |]. split; [done |]. exact H3.
  - exact Hk0.
  - exact Hg.
  - exact Hd0.
  - simpl. change (closures w.2) with (closures st0). rewrite <- Hcl1. destruct r; destruct Hcase as (-> & _); by rewrite ?app_nil_r.
  - intros j Hj. simpl. rewrite lookup_alter_ne by done. rewrite Hfib.
    rewrite lookup_insert_ne by done. apply Hc1.
  - simpl. rewrite lookup_alter_eq, Hfib, lookup_insert_eq. done.
  - done.
  - simpl. by rewrite HR, HD.
  - simpl. destruct r; destruct Hcase as (_ & _ & ->); lia.
  - assert (length (closures st1) = length (closures st0)) as Hlen.
    { rewrite Hcl1. apply teardown_length. }
    destruct r as [| |a]; simpl; destruct Hcase as (_ & -> & Hgen); [done | done |].
    rewrite Hlen. repeat split; try done; try congruence.
    + by rewrite HR.
    + lia.
Qed.

Lemma wf_init : wf initWorld.
Proof.
  split; [by split |]. split; [| split].
  - intros i f H. simpl in H. by rewrite lookup_empty in H.
  - intros k c H. done.
  - intros k1 k2 c1 c2 H. done.
Qed.

Lemma wf_step (e : Event) (w : World) : wf w -> wf (step e w).
Proof.
  destruct e; [apply wf_render | apply wf_data | apply wf_tick | apply wf_unmount].
Qed.

Lemma wf_run (es : list Event) (w : World) : wf w -> wf (run es w).
Proof.
  revert w. induction es as [|e es IH]; intros w Hw; simpl; [done |].
  by apply IH, wf_step.
Qed.

Lemma reachable_wf (w : World) : reachable w -> wf w.
Proof. intros [es ->]. apply wf_run, wf_init. Qed.

Lemma reachable_step (e : Event) (w : World) : reachable w -> reachable (step e w).
Proof.
  intros [es ->]. exists (es ++ [e]). unfold run. by rewrite foldl_app.
Qed.

Lemma reachable_run (es : list Event) (w : World) : reachable w -> reachable (run es w).
Proof.
  intros [es0 ->]. exists (es0 ++ es). unfold run. by rewrite foldl_app.
Qed.

(** ** The data cells, operation by operation *)

Lemma setSnapshot_lookup (i j : nat) (v : JsVal) (st : Store) :
  fibers (setSnapshot i v st) !! j
  = if decide (i = j)
    then (fun f => if alive f then with_hook (set_snapshot v) f else f) <$> fibers st !! j
    else fibers st !! j.
Proof. unfold setSnapshot. simpl. rewrite lookup_alter. by case_decide; subst. Qed.

Lemma write_prevSnapshotRef_lookup (i j : nat) (v : JsVal) (st : Store) :
  fibers (write_prevSnapshotRef i v st) !! j
  = if decide (i = j)
    then with_hook (set_prevSnapshotRef v) <$> fibers st !! j
    else fibers st !! j.
Proof. unfold write_prevSnapshotRef. simpl. rewrite lookup_alter. by case_decide; subst. Qed.

Lemma cleanup_lookup (k j : nat) (c : Closure) (st : Store) :
  closures st !! k = Some c ->
  fibers (cleanup k st) !! j
  = if decide (cl_inst c = j)
    then cleanup_fiber (cl_keep c) <$> fibers st !! j
    else fibers st !! j.
Proof.
  intros Hc. unfold cleanup. rewrite Hc. unfold cleanup_fiber.
  destruct (cl_keep c); cbn [negb].
  - rewrite write_prevSnapshotRef_lookup. simpl. done.
  - rewrite setSnapshot_lookup, write_prevSnapshotRef_lookup. simpl.
    case_decide; [| done]. by destruct (fibers st !! j).
Qed.

Lemma apply_cb_lookup (st : Store) (cb : Callback) (j : nat) :
  fibers (apply_cb st cb) !! j
  = match closures st !! cb_closure cb with
    | Some c =>
        if isMounted c && bool_decide (cl_inst c = j)
        then (fun f => if alive f then with_hook (set_snapshot (cb_data cb)) f else f)
               <$> fibers st !! j
        else fibers st !! j
    | None => fibers st !! j
    end.
Proof.
  unfold apply_cb. destruct (closures st !! cb_closure cb) as [c|]; [| done].
  destruct (isMounted c); cbn [andb]; [| done].
  rewrite setSnapshot_lookup. by case_decide; case_bool_decide.
Qed.

(** A render of a mounted (or new) instance whose effect re-runs. *)
Lemma render_rerun (i : nat) (r : Source) (query : nat) (o : UseSubscribeOptions) (w : World) :
  let f0 := default initFiber (fibers w.2 !! i) in
  let st0 := mkStore (<[i:=f0]> (fibers w.2)) (closures w.2) in
  let st1 := match destroy f0 with Some k => cleanup k st0 | None => st0 end in
  alive f0 = true -> effect_reruns f0 r o = true ->
  exists f1 h',
    fibers st1 !! i = Some f1
    /\ (step (Render i r query o) w).1 = w.1
    /\ fibers (step (Render i r query o) w).2
       = alter (fun f => mkFiber (hook f) (Some (src_val r :: dependencies_of o))
                           (if absent r then None else Some (length (closures st1)))
                           (alive f))
           i (<[i := mkFiber h' (effectDeps f1) (destroy f1) (alive f1)]> (fibers st1))
    /\ closures (step (Render i r query o) w).2
       = closures st1
         ++ match r with
            | SrcObj a => [mkClosure i (generationRef h') true (keepPreviousData_of o)
                                     a query (opt_isEqual o) false]
            | _ => []
            end
    /\ hasRunEffectRef h' = true /\ prevRRef h' = r /\ prevDepsRef h' = dependencies_of o
    /\ snapshot h' = snapshot (hook f1)
    /\ prevSnapshotRef h'
       = (if negb (absent r)
             && (keepPreviousData_of o && negb (is_undefined (snapshot (hook f0))))
          then snapshot (hook f0) else prevSnapshotRef (hook f1))
    /\ generationRef h'
       = (if absent r then generationRef (hook f1) else generationRef (hook f1) + 1)%N.
Proof.
  intros f0 st0 st1 Hal Hrerun.
  assert (fibers st0 !! i = Some f0) as Hi0 by apply lookup_insert_eq.
  assert (same_ctrl st0 st1) as Hc1.
  { unfold st1. destruct (destroy f0); [apply cleanup_ctrl | apply same_ctrl_refl]. }
  destruct (same_ctrl_lookup_rev _ _ _ _ Hc1 Hi0) as (f1 & Hf1 & E).
  destruct (effect_spec i r query o (snapshot (hook f0)) st1 f1 Hf1)
    as (h' & Hfib & Hrun & HR & HD & Hsnap & Hprev & Hcase).
  exists f1, h'. split; [done |].
  simpl. fold f0. rewrite Hal. simpl. unfold commit. fold f0.
  rewrite Hrerun. fold st0. fold st1.
  destruct (effect i r query o (snapshot (hook f0)) st1) as [st2 d] eqn:Heff.
  simpl in *. split; [done |]. rewrite Hfib.
  destruct r as [| |a]; simpl in *; destruct Hcase as (-> & -> & ->);
    rewrite ?app_nil_r; repeat split; done.
Qed.

(** A render whose effect is skipped leaves the heap as it is. *)
Lemma render_skip (i : nat) (r : Source) (query : nat) (o : UseSubscribeOptions) (w : World) :
  let f0 := default initFiber (fibers w.2 !! i) in
  alive f0 = false \/ effect_reruns f0 r o = false ->
  step (Render i r query o) w = w.
Proof.
  intros f0 H. simpl. fold f0. destruct (alive f0) eqn:Hal; [| done].
  destruct H as [H | H]; [done |]. unfold commit. fold f0.
  rewrite H. unfold effect_reruns in H.
  unfold f0 in *. destruct (fibers w.2 !! i) as [f|] eqn:Hi; [| done].
  simpl. rewrite insert_id by done. by destruct w as [s []].
Qed.

(** ** Stale results *)

(** C1. When a later subscription of the same instance exists (the effect
    re-ran, incremented the generation and subscribed again), a Data event
    of the older subscription fails the generation check of [onData]: the
    heap is left exactly as it was, so no render of the instance sees a
    different value. *)
Theorem C1_stale_rejection (w : World) (old new : nat) (c_old c_new : Closure)
    (data : JsVal) :
  reachable w ->
  closures w.2 !! old = Some c_old ->
  closures w.2 !! new = Some c_new ->
  cl_inst c_old = cl_inst c_new ->
  old < new ->
  generationRef (hook_of (cl_inst c_old) w) <> currentGen c_old
  /\ step (Data old data) w = w
  /\ forall r o, observe (cl_inst c_old) r o (step (Data old data) w)
                 = observe (cl_inst c_old) r o w.
Proof.
  intros Hr Hold Hnew Hinst Hlt.
  destruct (reachable_wf w Hr) as [_ (Hf & Hk & Hg)].
  destruct (Hk new c_new Hnew) as (f & Hfi & Hle & _).
  pose proof (Hg old new c_old c_new Hold Hnew Hinst Hlt) as Hgen.
  assert (generationRef (hook f) <> currentGen c_old) as Hne by lia.
  assert (step (Data old data) w = w) as Hstep.
  { simpl. unfold onData. rewrite Hold, Hinst, Hfi.
    by rewrite bool_decide_eq_false_2. }
  split; [| split].
  - unfold hook_of. by rewrite Hinst, Hfi.
  - done.
  - intros r o. by rewrite Hstep.
Qed.

Lemma C1_witness :
  let w := run race_trace initWorld in
  generationRef (hook_of 0 w) <> 1%N
  /\ step (Data 0 (JStr "slow-data")) w = w
  /\ forall r o, observe 0 r o (step (Data 0 (JStr "slow-data")) w) = observe 0 r o w.
Proof.
  refine (C1_stale_rejection (run race_trace initWorld) 0 1
            (mkClosure 0 1 false true 1 0 None true)
            (mkClosure 0 2 true true 2 0 None false)
            (JStr "slow-data") _ _ _ _ _).
  - by exists race_trace.
  - reflexivity.
  - reflexivity.
  - reflexivity.
  - lia.
Defined.

(** ** The value returned *)

Lemma observe_value (i : nat) (r : Source) (o : UseSubscribeOptions) (w : World) :
  observe i r o w = useSubscribe_value (hook_of i w) r o.
Proof. done. Qed.

Lemma useSubscribe_fst (i : nat) (r : Source) (query : nat) (o : UseSubscribeOptions)
    (w : World) :
  (useSubscribe i r query o w).1 = useSubscribe_value (hook_of i w) r o.
Proof. done. Qed.

(** C3. With [keepPreviousData] false, a render that finds the source or the
    dependency list changed since the effect last ran returns the default,
    whatever the snapshot and the cache hold: the stale snapshot is still in
    place (its reset is only requested by the cleanup that runs afterwards). *)
Theorem C3_reset_on_transition (w : World) (i : nat) (f : Fiber) (r : Source)
    (query : nat) (o : UseSubscribeOptions) :
  reachable w ->
  fibers w.2 !! i = Some f ->
  keepPreviousData_of o = false ->
  r <> prevRRef (hook f) \/ dependencies_of o <> prevDepsRef (hook f) ->
  (useSubscribe i r query o w).1 = def_of o.
Proof.
  intros Hr Hi Hkeep Hchange.
  destruct (reachable_wf w Hr) as [_ (Hf & _)].
  destruct (Hf i f Hi) as (Hrun & _).
  rewrite useSubscribe_fst. unfold hook_of. rewrite Hi. simpl.
  unfold useSubscribe_value. rewrite Hkeep.
  assert (hasTransitioned (hook f) r (dependencies_of o) = true) as ->; [| done].
  unfold hasTransitioned. rewrite Hrun, andb_true_r, orb_true_iff.
  destruct Hchange as [H | H].
  - left. by rewrite negb_true_iff, bool_decide_eq_false.
  - right. by apply depsChanged_true, deps_differ_neq.
Qed.

Lemma C3_witness :
  snapshot (hook_of 0 (run (loaded_trace false) initWorld)) = JStr "data1"
  /\ (useSubscribe 0 repB 0 (opts "default" false) (run (loaded_trace false) initWorld)).1
     = JStr "default".
Proof.
  split; [reflexivity |].
  refine (C3_reset_on_transition (run (loaded_trace false) initWorld) 0
            (mkFiber (mkHook (JStr "data1") (JStr "data1") 1 repA [] true)
                     (Some [JRef 1]) (Some 0) true)
            repB 0 (opts "default" false) _ _ _ _).
  - by exists (loaded_trace false).
  - reflexivity.
  - reflexivity.
  - left. discriminate.
Defined.

(** ** Batching and failure isolation *)

Lemma sched_ok_logged {Cb R : Type} (e : JsVal) (w : Sched Cb * R) :
  sched_ok w.1 -> sched_ok (logged e w).1.
Proof. done. Qed.

Lemma call_guarded_ok {Cb R : Type} (invoke : Cb -> Js (Sched Cb * R) unit) :
  (forall cb w', sched_ok w'.1 -> sched_ok (final (invoke cb w')).1) ->
  forall cb w', sched_ok w'.1 -> sched_ok (call_guarded invoke w' cb).1.
Proof.
  intros H cb w' Hw. unfold call_guarded. specialize (H cb w' Hw).
  destruct (invoke cb w') as [[] w1 | e w1]; simpl in *; done.
Qed.

(** C6. When a callback of the queue throws during a flush, [doCallback]
    still returns normally: the exception is printed with [console.error] on
    the heap the callback left, and every callback queued after it is then
    called, in order.  The queue and the flag were reset before the first
    call, so whenever the callbacks themselves respect the scheduler (thrown
    or not), the promise job leaves it consistent for the next tick. *)
Theorem C6_callback_failure_isolated {Cb R : Type} (invoke : Cb -> Js (Sched Cb * R) unit)
    (w w_thrown : Sched Cb * R) (before after : list Cb) (bad : Cb) (e : JsVal) :
  callbacks w.1 = before ++ bad :: after ->
  invoke bad (foldl (call_guarded invoke) (flush_start w) before) = Threw e w_thrown ->
  doCallback invoke w
  = Returned tt (foldl (call_guarded invoke) (logged e w_thrown) after)
  /\ ((forall cb w', sched_ok w'.1 -> sched_ok (final (invoke cb w')).1) ->
      sched_ok w.1 -> sched_ok (run_microtask invoke w).1).
Proof.
  intros Hq Hthrow. split.
  - rewrite doCallback_fold, Hq, foldl_app. simpl.
    unfold call_guarded at 2. by rewrite Hthrow.
  - intros Hcb Hok. apply run_microtask_ok; [| done]. by apply call_guarded_ok.
Qed.

Lemma C6_witness :
  let w : Sched TestCb * list nat :=
    (mkSched [Trecord 1; Tthrow (JStr "boom"); Trecord 3] true 1 [], []) in
  doCallback test_invoke w
  = Returned tt (mkSched [] false 1 [JStr "boom"], [1; 3])
  /\ ((forall cb w', sched_ok w'.1 -> sched_ok (final (test_invoke cb w')).1) ->
      sched_ok w.1 -> sched_ok (run_microtask test_invoke w).1).
Proof.
  exact (C6_callback_failure_isolated test_invoke
           (mkSched [Trecord 1; Tthrow (JStr "boom"); Trecord 3] true 1 [], [])
           (mkSched [] false 1 [], [1])
           [Trecord 1] [Trecord 3] (Tthrow (JStr "boom")) (JStr "boom")
           eq_refl eq_refl).
Defined.

Lemma onData_sched (k : nat) (data : JsVal) (w : World) :
  (onData k data w).1
  = if accepts k w then schedule (mkCallback k data) w.1 else w.1.
Proof.
  unfold onData, accepts. destruct (closures w.2 !! k) as [c|]; [| done].
  destruct (fibers w.2 !! cl_inst c) as [f|]; [| done].
  by destruct (bool_decide _).
Qed.

Lemma step_sched_not_tick (e : Event) (w : World) :
  is_Tick e = false ->
  (step e w).1 = w.1
  \/ exists k data, e = Data k data /\ (step e w).1 = schedule (mkCallback k data) w.1.
Proof.
  destruct e as [i r q o | k data | | i]; intros H; try done.
  - left. simpl. by destruct (alive _).
  - simpl. rewrite onData_sched. destruct (accepts k w); [right; by eauto | by left].
  - left. simpl. unfold unmount. destruct (fibers w.2 !! i) as [f|]; [| done].
    by destruct (alive f).
Qed.

Lemma tick_idle (w : World) : microtasks w.1 = 0 -> step Tick w = w.
Proof. intros H. simpl. unfold run_microtask. by rewrite H. Qed.

Lemma jobs_run_ticks (n : nat) (w : World) :
  sched_ok w.1 -> jobs_run (repeat Tick n) w <= microtasks w.1.
Proof.
  revert w. induction n as [|n IH]; intros w Hok; simpl; [lia |].
  destruct (microtasks w.1) as [|m] eqn:Hm.
  - rewrite run_microtask_hook, Hm.
    specialize (IH w Hok). rewrite Hm in IH. simpl. lia.
  - rewrite run_microtask_hook, Hm.
    destruct Hok as [Hmt Hq]. rewrite Hm in Hmt.
    assert (m = 0) as -> by (destruct (hasPendingCallback w.1); lia).
    set (w' := (mkSched [] false 0 (console w.1), foldl apply_cb w.2 (callbacks w.1)) : World).
    assert (sched_ok w'.1) as Hok' by (by split).
    specialize (IH w' Hok'). simpl in IH. lia.
Qed.

Lemma jobs_run_no_tick (ds rest : list Event) (w : World) :
  forallb (fun e => negb (is_Tick e)) ds = true ->
  jobs_run (ds ++ rest) w = jobs_run rest (run ds w).
Proof.
  revert w. induction ds as [|e ds IH]; intros w H; simpl; [done |].
  simpl in H. apply andb_true_iff in H as [He Hds].
  rewrite IH by done. by destruct e.
Qed.

(** ** Render passes of a tick *)

Lemma invoke_cb_tracked_apply (cb : Callback) (w : RWorld) :
  invoke_cb_tracked cb w = Returned tt (w.1, apply_cb_tracked w.2 cb).
Proof.
  unfold invoke_cb_tracked, apply_cb_tracked. destruct w as [s h]. simpl.
  destruct (closures h.1 !! cb_closure cb) as [c|]; [| done]. by destruct (isMounted c).
Qed.

Lemma flush_apply_tracked (cbs : list Callback) (w : RWorld) :
  foldl (call_guarded invoke_cb_tracked) w cbs = (w.1, foldl apply_cb_tracked w.2 cbs).
Proof.
  revert w. induction cbs as [|cb cbs IH]; intros w; simpl; [by destruct w |].
  unfold call_guarded at 2. rewrite invoke_cb_tracked_apply. by rewrite IH.
Qed.

Lemma run_microtask_tracked (w : RWorld) :
  run_microtask invoke_cb_tracked w
  = match microtasks w.1 with
    | O => w
    | S n => (mkSched [] false n (console w.1), foldl apply_cb_tracked w.2 (callbacks w.1))
    end.
Proof.
  unfold run_microtask. destruct (microtasks w.1) as [|n]; [done |].
  rewrite doCallback_fold. simpl. by rewrite flush_apply_tracked.
Qed.

Lemma apply_cb_tracked_store (h : Store * Renderer) (cb : Callback) :
  (apply_cb_tracked h cb).1 = apply_cb h.1 cb.
Proof.
  unfold apply_cb_tracked, apply_cb. destruct (closures h.1 !! cb_closure cb) as [c|]; [| done].
  by destruct (isMounted c).
Qed.

Lemma apply_cb_tracked_renderer (h : Store * Renderer) (cb : Callback) :
  (apply_cb_tracked h cb).2
  = mkRenderer (updated h.2 ++ update_of h.1 cb) (passLog h.2).
Proof.
  unfold apply_cb_tracked, update_of.
  assert (h.2 = mkRenderer (updated h.2 ++ []) (passLog h.2)) as Hid.
  { rewrite app_nil_r. by destruct h.2. }
  destruct (closures h.1 !! cb_closure cb) as [c|]; [| done].
  destruct (isMounted c); [| done]. simpl.
  destruct (fibers h.1 !! cl_inst c) as [f|]; [| done]. by destruct (alive f).
Qed.

Lemma update_of_same (st st' : Store) (cb : Callback) :
  closures st' = closures st -> same_ctrl st st' -> update_of st' cb = update_of st cb.
Proof.
  intros Hcl Hctl. unfold update_of. rewrite Hcl.
  destruct (closures st !! cb_closure cb) as [c|]; [| done].
  destruct (isMounted c); [| done]. specialize (Hctl (cl_inst c)).
  destruct (fibers st' !! cl_inst c) as [f'|], (fibers st !! cl_inst c) as [f|];
    simpl in Hctl; try done.
  assert (ctrl f' = ctrl f) as E by congruence. ctrl_fields E. by rewrite Ectl.
Qed.

(** A flush on the tracked heap: the store is the one of the plain flush,
    and the instances updated are those of the callbacks that call
    [setSnapshot], in order. *)
Lemma apply_all_tracked (cbs : list Callback) (h : Store * Renderer) :
  foldl apply_cb_tracked h cbs
  = (foldl apply_cb h.1 cbs,
     mkRenderer (updated h.2 ++ flat_map (update_of h.1) cbs) (passLog h.2)).
Proof.
  revert h. induction cbs as [|cb cbs IH]; intros h; simpl.
  - rewrite app_nil_r. by destruct h as [st []].
  - rewrite IH, apply_cb_tracked_store, apply_cb_tracked_renderer. simpl.
    rewrite <- app_assoc. do 4 f_equal.
    apply flat_map_ext. intros cb'.
    apply update_of_same; [apply apply_cb_closures | apply apply_cb_ctrl].
Qed.

Lemma erase_tick_step (t : TickEvent) (w : RWorld) :
  erase (tick_step t w) = run (hook_events [t]) (erase w).
Proof.
  destruct t as [k data | |].
  - change (run (hook_events [Deliver k data]) (erase w)) with (onData k data (erase w)).
    unfold tick_step, erase. cbn [fst snd]. by destruct (onData k data (w.1, w.2.1)).
  - change (run (hook_events [Job]) (erase w)) with (run_microtask invoke_cb (erase w)).
    unfold tick_step. rewrite run_microtask_tracked, run_microtask_hook. unfold erase.
    cbn [fst snd]. destruct (microtasks w.1); [done |]. cbn [fst snd].
    by rewrite apply_all_tracked.
  - change (run (hook_events [Pass]) (erase w)) with (erase w).
    unfold tick_step, erase, run_pass. cbn [fst snd]. by destruct (updated w.2.2).
Qed.

Lemma erase_tick_run (ts : list TickEvent) (w : RWorld) :
  erase (tick_run ts w) = run (hook_events ts) (erase w).
Proof.
  revert w. induction ts as [|t ts IH]; intros w; [done |].
  change (tick_run (t :: ts) w) with (tick_run ts (tick_step t w)).
  assert (hook_events (t :: ts) = hook_events [t] ++ hook_events ts) as ->
    by (simpl; by rewrite app_nil_r).
  rewrite IH, erase_tick_step. unfold run. by rewrite foldl_app.
Qed.

(** Deliveries never render: while no job runs, the framework has nothing
    to do, whenever it gets control. *)
Lemma deliveries_do_not_render (ds : list TickEvent) (w : RWorld) :
  forallb (fun t => negb (is_Job t)) ds = true ->
  updated w.2.2 = [] ->
  (tick_run ds w).2.2 = w.2.2 /\ tick_jobs ds w = 0.
Proof.
  revert w. induction ds as [|t ds IH]; intros w Hds Hup; [done |].
  simpl in Hds. apply andb_true_iff in Hds as [Ht Hds].
  change (tick_run (t :: ds) w) with (tick_run ds (tick_step t w)).
  assert ((tick_step t w).2.2 = w.2.2) as Hsame.
  { destruct t as [k data | |]; [done | done |]. simpl. unfold run_pass. by rewrite Hup. }
  destruct (IH (tick_step t w) Hds) as [H1 H2]; [by rewrite Hsame |].
  split; [by rewrite H1 |]. simpl. rewrite H2. by destruct t.
Qed.

Lemma tick_jobs_app (ts1 ts2 : list TickEvent) (w : RWorld) :
  tick_jobs (ts1 ++ ts2) w = tick_jobs ts1 w + tick_jobs ts2 (tick_run ts1 w).
Proof.
  revert w. induction ts1 as [|t ts1 IH]; intros w; simpl; [done |].
  rewrite IH. unfold tick_run. simpl. lia.
Qed.

(** After the deliveries: the jobs and the passes that can still run. *)
Lemma drain_bound (rest : list TickEvent) (w : RWorld) :
  forallb (fun t => negb (is_Deliver t)) rest = true ->
  microtasks w.1 <= 1 ->
  (updated w.2.2 <> [] -> microtasks w.1 = 0) ->
  tick_jobs rest w <= microtasks w.1
  /\ length (passLog (tick_run rest w).2.2)
     <= length (passLog w.2.2)
        + (match updated w.2.2 with [] => microtasks w.1 | _ :: _ => 1 end).
Proof.
  revert w. induction rest as [|t rest IH]; intros w Hrest Hle Hup.
  - simpl. split; [lia |]. destruct (updated w.2.2); lia.
  - simpl in Hrest. apply andb_true_iff in Hrest as [Ht Hrest].
    change (tick_run (t :: rest) w) with (tick_run rest (tick_step t w)).
    destruct t as [k data | |]; [done | |].
    + (* the job *)
      simpl tick_jobs. simpl tick_step. rewrite run_microtask_tracked.
      destruct (microtasks w.1) as [|n] eqn:Hm.
      * destruct (IH w Hrest) as [H1 H2]; [lia | done |]. rewrite Hm in H1, H2.
        split; [lia | done].
      * assert (n = 0) as -> by lia.
        assert (updated w.2.2 = []) as Hup0.
        { destruct (updated w.2.2) eqn:E; [done |]. by discriminate Hup. }
        set (w1 := (mkSched [] false 0 (console w.1),
                    foldl apply_cb_tracked w.2 (callbacks w.1))).
        destruct (IH w1 Hrest) as [H1 H2]; [simpl; lia | done |].
        simpl in H1. split; [lia |].
        unfold w1 in H2 at 2 3 4. cbn [fst snd] in H2. rewrite apply_all_tracked in H2.
        cbn [fst snd updated passLog microtasks] in H2. rewrite Hup0 in *. simpl in H2.
        destruct (flat_map (update_of w.2.1) (callbacks w.1)); lia.
    + (* a pass *)
      destruct (updated w.2.2) as [|i0 l0] eqn:E.
      * assert (tick_step Pass w = w) as Hid.
        { unfold tick_step, run_pass. rewrite E. by destruct w. }
        change (tick_jobs (Pass :: rest) w) with (0 + tick_jobs rest (tick_step Pass w)).
        rewrite Hid.
        destruct (IH w Hrest Hle) as [H1 H2]; [by rewrite E |]. rewrite E in H2.
        split; [lia | done].
      * assert (microtasks w.1 = 0) as Hm0 by (by apply Hup).
        change (tick_jobs (Pass :: rest) w) with (0 + tick_jobs rest (tick_step Pass w)).
        destruct (IH (tick_step Pass w) Hrest) as [H1 H2]; [done | |].
        { simpl. unfold run_pass. by rewrite E. }
        change (tick_step Pass w).1 with w.1 in H1. split; [lia |].
        etrans; [exact H2 |]. simpl. unfold run_pass. rewrite E. simpl.
        rewrite length_app. simpl. lia.
Qed.

(** C4. [doCallback] first replaces the queue by an empty one and clears the
    flag, then calls each callback it captured, in the order they were
    pushed, and returns.  A callback that is pushed while the flush runs is
    not called by it: it stays in the new queue, the flag is set again and
    one new promise job is queued for it.  On the hook's heap at most one
    job is ever pending; so after any events of one tick (Data events of any
    subscriptions of any instances), [doCallback] runs at most once however
    long the job queue is then drained, and that one run applies every
    queued callback in order and leaves the queue empty and the flag clear.
    With the framework's render passes in the picture: while results are
    only delivered the framework has nothing to render, whenever it gets
    control; however deliveries and passes interleave and however long the
    two queues are drained afterwards, the tick has at most one flush and at
    most one render pass; and the pass that follows the job renders, once
    each, exactly the instances whose [setSnapshot] the job called, every
    one with the snapshot the job left. *)
Theorem C4_batching :
  (forall (Cb R : Type) (invoke : Cb -> Js (Sched Cb * R) unit) (w : Sched Cb * R),
     doCallback invoke w
     = Returned tt (foldl (call_guarded invoke) (flush_start w) (callbacks w.1))
     /\ callbacks (flush_start w).1 = []
     /\ hasPendingCallback (flush_start w).1 = false
     /\ forall cb, callbacks (schedule cb (flush_start w).1) = [cb]
                   /\ hasPendingCallback (schedule cb (flush_start w).1) = true
                   /\ microtasks (schedule cb (flush_start w).1) = S (microtasks w.1))
  /\ (forall (Cb R : Type) (invoke : Cb -> Js (Sched Cb * R) unit)
        (enq : Cb -> list Cb) (act : Cb -> R -> R) (w : Sched Cb * R),
        (forall cb w', cb ∈ callbacks w.1 ->
           invoke cb w'
           = Returned tt (foldl (fun s c => schedule c s) w'.1 (enq cb), act cb w'.2)) ->
        let w' := final (doCallback invoke w) in
        let pushed := concat (map enq (callbacks w.1)) in
        callbacks w'.1 = pushed
        /\ w'.2 = foldl (fun h cb => act cb h) w.2 (callbacks w.1)
        /\ hasPendingCallback w'.1 = match pushed with [] => false | _ :: _ => true end
        /\ microtasks w'.1
           = match pushed with [] => microtasks w.1 | _ :: _ => S (microtasks w.1) end)
  /\ (forall (es ds : list Event) (n : nat),
        forallb (fun e => negb (is_Tick e)) ds = true ->
        let w := run es initWorld in
        let w' := run ds w in
        microtasks w'.1 <= 1
        /\ jobs_run (ds ++ repeat Tick n) w <= 1
        /\ callbacks (step Tick w').1 = []
        /\ hasPendingCallback (step Tick w').1 = false
        /\ microtasks (step Tick w').1 = 0
        /\ (step Tick w').2 = foldl apply_cb w'.2 (callbacks w'.1)
        /\ step Tick (step Tick w') = step Tick w')
  /\ (forall (w : World) (k : nat) (data : JsVal),
        callbacks (step (Data k data) w).1
        = callbacks w.1 ++ (if accepts k w then [mkCallback k data] else [])
        /\ microtasks (step (Data k data) w).1
           = if accepts k w && negb (hasPendingCallback w.1)
             then S (microtasks w.1) else microtasks w.1)
  /\ (forall (es : list Event) (log : list (list (nat * JsVal)))
             (ds rest : list TickEvent),
        forallb (fun t => negb (is_Job t)) ds = true ->
        forallb (fun t => negb (is_Deliver t)) rest = true ->
        let w0 := run es initWorld in
        let w : RWorld := (w0.1, (w0.2, mkRenderer [] log)) in
        let w1 := tick_run ds w in
        let w2 := tick_run (ds ++ rest) w in
        let wj := tick_step Job w1 in
        let wp := tick_step Pass wj in
        erase w2 = run (hook_events (ds ++ rest)) w0
        /\ w1.2.2 = mkRenderer [] log
        /\ tick_jobs (ds ++ rest) w <= 1
        /\ length (passLog w2.2.2) <= S (length log)
        /\ updated wj.2.2 = flat_map (update_of w1.2.1) (callbacks w1.1)
        /\ passLog wj.2.2 = log
        /\ updated wp.2.2 = []
        /\ passLog wp.2.2
           = log ++ match updated wj.2.2 with
                    | [] => []
                    | _ :: _ =>
                        [(fun i => (i, snapshot (hook_of i (step Tick (erase w1)))))
                           <$> remove_dups (updated wj.2.2)]
                    end
        /\ (forall cb c, cb ∈ callbacks w1.1 ->
              closures w1.2.1 !! cb_closure cb = Some c -> isMounted c = true ->
              cl_inst c ∈ updated wj.2.2)).
Proof.
  split; [| split; [| split; [| split]]].
  - intros Cb R invoke w. split; [apply doCallback_fold |]. split; [done |].
    split; [done |]. intros cb. by repeat split.
  - intros Cb R invoke enq act w H w' pushed. unfold w'.
    rewrite doCallback_fold. simpl. rewrite (flush_enqueuing invoke enq act) by done.
    simpl. fold pushed. rewrite schedule_all_callbacks, schedule_all_flag,
      schedule_all_microtasks. simpl. by destruct pushed.
  - intros es ds n Hds w w'.
    assert (wf w') as [Hok _] by (apply wf_run, wf_run, wf_init).
    assert (microtasks w'.1 <= 1) as Hle.
    { destruct Hok as [-> _]. destruct (hasPendingCallback w'.1); lia. }
    split; [done |]. split.
    { rewrite jobs_run_no_tick by done. fold w'.
      etrans; [by apply jobs_run_ticks | done]. }
    simpl. rewrite run_microtask_hook.
    destruct (microtasks w'.1) as [|m] eqn:Hm.
    + destruct Hok as [Hmt Hq].
      assert (hasPendingCallback w'.1 = false) as Hflag.
      { destruct (hasPendingCallback w'.1); [lia | done]. }
      rewrite run_microtask_hook, Hm, (Hq Hflag). by repeat split.
    + assert (m = 0) as -> by lia. rewrite run_microtask_hook. simpl. by repeat split.
  - intros w k data. simpl. rewrite onData_sched.
    destruct (accepts k w); simpl; [| by rewrite app_nil_r].
    rewrite schedule_callbacks, schedule_microtasks.
    by destruct (hasPendingCallback w.1).
  - intros es log ds rest Hds Hrest w0 w w1 w2 wj wp.
    assert (erase w = w0) as Her by (unfold erase, w; simpl; by destruct w0).
    assert (erase w1 = run (hook_events ds) w0) as Her1
      by (unfold w1; by rewrite erase_tick_run, Her).
    assert (wf (erase w1)) as Hwf1 by (rewrite Her1; apply wf_run, wf_run, wf_init).
    destruct (deliveries_do_not_render ds w Hds eq_refl) as [Hre1 Hj1]. fold w1 in Hre1.
    change w.2.2 with (mkRenderer [] log) in Hre1.
    pose proof Hwf1 as [[Hmt Hq] (Hf & Hk & _)].
    change (erase w1).1 with w1.1 in Hmt, Hq. change (erase w1).2 with w1.2.1 in Hf, Hk.
    assert (microtasks w1.1 <= 1) as Hle by (rewrite Hmt; destruct (hasPendingCallback w1.1); lia).
    destruct (drain_bound rest w1 Hrest Hle) as [Hjobs Hpasses]; [by rewrite Hre1 |].
    rewrite Hre1 in Hpasses. simpl in Hpasses.
    assert (w2 = tick_run rest w1) as Hw2 by (unfold w2, w1, tick_run; by rewrite foldl_app).
    assert (wj.2 = (foldl apply_cb w1.2.1 (callbacks w1.1),
                    mkRenderer (flat_map (update_of w1.2.1) (callbacks w1.1)) log)) as Hwj.
    { unfold wj, tick_step. rewrite run_microtask_tracked.
      destruct (microtasks w1.1) as [|n] eqn:Hm.
      - rewrite Hq by (destruct (hasPendingCallback w1.1); [lia | done]). simpl.
        rewrite <- Hre1. by destruct w1 as [s [st re]].
      - simpl. rewrite apply_all_tracked, Hre1. done. }
    assert (erase wj = step Tick (erase w1)) as Herj by apply (erase_tick_step Job).
    split; [unfold w2; by rewrite erase_tick_run, Her |]. split; [done |]. split.
    { rewrite tick_jobs_app. fold w1. lia. }
    split; [rewrite Hw2; lia |]. split; [by rewrite Hwj |]. split; [by rewrite Hwj |].
    assert (passLog wj.2.2 = log) as Hlog by (by rewrite Hwj).
    assert (wp.2 = run_pass wj.2) as -> by done.
    split; [| split].
    + unfold run_pass. destruct (updated wj.2.2) eqn:E; [exact E | done].
    + unfold run_pass. rewrite <- Herj.
      destruct (updated wj.2.2) eqn:E; cbn [snd passLog]; rewrite Hlog;
        [by rewrite app_nil_r | done].
    + intros cb c Hcb Hc Hm. rewrite Hwj. simpl.
      apply list_elem_of_In, in_flat_map. exists cb. split; [by apply list_elem_of_In |].
      destruct (Hk _ _ Hc) as (f & Hfi & _ & Hreg). specialize (Hreg Hm).
      destruct (Hf _ f Hfi) as (_ & _ & H3). destruct (H3 _ Hreg) as (Hal & _).
      unfold update_of. rewrite Hc, Hm, Hfi, Hal. by left.
Qed.

Lemma C4_witness :
  (let w : Sched TestCb * list nat := (mkSched [Tenqueue 7; Trecord 1] true 0 [], []) in
   let w' := final (doCallback test_invoke w) in
   callbacks w'.1 = [Trecord 7] /\ w'.2 = [1]
   /\ hasPendingCallback w'.1 = true /\ microtasks w'.1 = 1)
  /\ (let w := run batch_prefix initWorld in
      let w' := run batch_data w in
      callbacks w'.1 = [mkCallback 0 (JStr "a1"); mkCallback 1 (JStr "b2")]
      /\ microtasks w'.1 <= 1
      /\ jobs_run (batch_data ++ repeat Tick 3) w <= 1
      /\ callbacks (step Tick w').1 = []
      /\ snapshot (hook_of 0 (step Tick w')) = JStr "a1"
      /\ snapshot (hook_of 1 (step Tick w')) = JStr "b2")
  /\ (let w0 := run batch_prefix initWorld in
      let w : RWorld := (w0.1, (w0.2, mkRenderer [] [])) in
      let w2 := tick_run (batch_tick ++ [Pass; Job; Job; Pass; Pass]) w in
      tick_jobs (batch_tick ++ [Pass; Job; Job; Pass; Pass]) w <= 1
      /\ length (passLog w2.2.2) <= 1
      /\ passLog (tick_step Pass (tick_step Job (tick_run batch_tick w))).2.2
         = [[(0, JStr "a1"); (1, JStr "b2")]]).
Proof.
  destruct C4_batching as (_ & H2 & H3 & _ & H5). split; [| split].
  - apply (H2 TestCb (list nat) test_invoke test_enq test_act
             (mkSched [Tenqueue 7; Trecord 1] true 0 [], [])).
    intros cb w' Hin. simpl in Hin.
    apply elem_of_cons in Hin as [-> | Hin]; [reflexivity |].
    apply elem_of_cons in Hin as [-> | Hin]; [reflexivity |].
    by apply elem_of_nil in Hin.
  - destruct (H3 batch_prefix batch_data 3 eq_refl) as (Ha & Hb & Hc & _).
    split; [reflexivity |]. split; [exact Ha |]. split; [exact Hb |].
    split; [exact Hc |]. split; reflexivity.
  - destruct (H5 batch_prefix [] batch_tick [Pass; Job; Job; Pass; Pass] eq_refl eq_refl)
      as (_ & _ & Hj & Hp & _ & _ & _ & Hlog & _).
    split; [exact Hj |]. split; [exact Hp |]. exact Hlog.
Defined.

(** ** Renders on a well-formed heap *)

Lemma cleanup_fiber_ctrl (keep : bool) (f : Fiber) : ctrl (cleanup_fiber keep f) = ctrl f.
Proof. unfold cleanup_fiber. destruct keep; simpl; [done |]. by destruct (alive f). Qed.

Lemma torn_down_ctrl (f0 : Fiber) (st : Store) : ctrl (torn_down f0 st) = ctrl f0.
Proof.
  unfold torn_down. destruct (registered_keep f0 st); [apply cleanup_fiber_ctrl | done].
Qed.

(** A render whose effect re-runs, on a well-formed heap: only instance [i]
    and the closure of its registered cleanup change, and one closure is
    added when the source is present. *)
Lemma render_rerun_wf (i : nat) (r : Source) (query : nat) (o : UseSubscribeOptions)
    (w : World) :
  wf w ->
  let f0 := default initFiber (fibers w.2 !! i) in
  let f1 := torn_down f0 w.2 in
  let w1 := step (Render i r query o) w in
  alive f0 = true -> effect_reruns f0 r o = true ->
  exists h',
    w1.1 = w.1
    /\ fibers w1.2
       = <[i := mkFiber h' (Some (src_val r :: dependencies_of o))
                        (if absent r then None else Some (length (closures w.2))) true]>
           (fibers w.2)
    /\ closures w1.2
       = teardown_closures (destroy f0) (closures w.2)
         ++ new_closures i r query o (generationRef h')
    /\ hasRunEffectRef h' = true /\ prevRRef h' = r /\ prevDepsRef h' = dependencies_of o
    /\ snapshot h' = snapshot (hook f1)
    /\ prevSnapshotRef h'
       = (if negb (absent r)
             && (keepPreviousData_of o && negb (is_undefined (snapshot (hook f0))))
          then snapshot (hook f0) else prevSnapshotRef (hook f1))
    /\ generationRef h'
       = (if absent r then generationRef (hook f0) else generationRef (hook f0) + 1)%N.
Proof.
  intros [_ (Hf & Hk & Hg)] f0 f1 w1 Hal Hrerun.
  destruct (render_rerun i r query o w Hal Hrerun)
    as (f1' & h' & Hf1 & Hs & Hfib & Hcl & Hrun & HR & HD & Hsnap & Hprev & Hgen).
  fold f0 in Hf1, Hfib, Hcl, Hprev.
  set (st0 := mkStore (<[i:=f0]> (fibers w.2)) (closures w.2)) in *.
  set (st1 := match destroy f0 with Some k => cleanup k st0 | None => st0 end) in *.
  (* the registered cleanup is a closure of instance [i] *)
  assert (forall k, destroy f0 = Some k ->
            exists c, closures w.2 !! k = Some c /\ cl_inst c = i) as Hd0.
  { intros k Hd. unfold f0 in Hd. destruct (fibers w.2 !! i) as [f|] eqn:Hi; [| done].
    simpl in Hd. destruct (Hf i f Hi) as (_ & _ & H3).
    destruct (H3 k Hd) as (_ & _ & c & ? & ? & _). by exists c. }
  assert (forall j, fibers st1 !! j = if decide (i = j) then Some f1 else fibers w.2 !! j)
    as Hst1.
  { intros j. unfold st1, f1, torn_down, registered_keep.
    destruct (destroy f0) as [k|] eqn:Hd.
    - destruct (Hd0 k eq_refl) as (c & Hc & Hci).
      rewrite (cleanup_lookup k j c st0) by done. rewrite Hc, Hci. simpl.
      case_decide; subst; [by rewrite lookup_insert_eq | by rewrite lookup_insert_ne].
    - simpl. case_decide; subst; [by rewrite lookup_insert_eq | by rewrite lookup_insert_ne]. }
  assert (f1' = f1) as ->.
  { specialize (Hst1 i). rewrite decide_True in Hst1 by done. congruence. }
  assert (closures st1 = teardown_closures (destroy f0) (closures w.2)) as Hcl1.
  { change (closures w.2) with (closures st0). unfold st1, teardown_closures.
    destruct (destroy f0); [apply cleanup_closures | done]. }
  assert (ctrl f1 = ctrl f0) as E by apply torn_down_ctrl. ctrl_fields E.
  exists h'. split; [done |]. split; [| split].
  - fold w1 in Hfib. rewrite Hfib. apply map_eq. intros j.
    rewrite lookup_alter. case_decide; subst.
    + rewrite !lookup_insert_eq. simpl. rewrite Hcl1, teardown_length. by rewrite Ectl, Hal.
    + rewrite !lookup_insert_ne by done. rewrite Hst1. by rewrite decide_False.
  - fold w1 in Hcl. rewrite Hcl, Hcl1. done.
  - repeat split; try done. rewrite Hgen. by rewrite Ectl5.
Qed.

(** What a promise job leaves in the cells of an instance. *)
Lemma apply_cb_prev (st : Store) (cb : Callback) (j : nat) :
  (fun f => (ctrl f, prevSnapshotRef (hook f))) <$> fibers (apply_cb st cb) !! j
  = (fun f => (ctrl f, prevSnapshotRef (hook f))) <$> fibers st !! j.
Proof.
  rewrite apply_cb_lookup. destruct (closures st !! cb_closure cb) as [c|]; [| done].
  destruct (isMounted c && bool_decide (cl_inst c = j)); [| done].
  destruct (fibers st !! j) as [f|]; [| done]. simpl. by destruct (alive f).
Qed.

Lemma apply_all_prev (cbs : list Callback) (st : Store) (j : nat) :
  (fun f => (ctrl f, prevSnapshotRef (hook f))) <$> fibers (foldl apply_cb st cbs) !! j
  = (fun f => (ctrl f, prevSnapshotRef (hook f))) <$> fibers st !! j.
Proof.
  revert st. induction cbs as [|cb cbs IH]; intros st; simpl; [done |].
  by rewrite IH, apply_cb_prev.
Qed.

(** Callbacks of closures that are unmounted, or that belong to other
    instances, leave instance [i] as it is. *)
Lemma apply_all_quiet (cbs : list Callback) (st : Store) (i : nat) :
  (forall cb c, cb ∈ cbs -> closures st !! cb_closure cb = Some c ->
                isMounted c = true -> cl_inst c <> i) ->
  fibers (foldl apply_cb st cbs) !! i = fibers st !! i.
Proof.
  revert st. induction cbs as [|cb cbs IH]; intros st H; simpl; [done |].
  rewrite IH.
  - rewrite apply_cb_lookup. destruct (closures st !! cb_closure cb) as [c|] eqn:Hc; [| done].
    destruct (isMounted c) eqn:Hm; [| done]. simpl.
    rewrite bool_decide_eq_false_2; [done |]. eapply H; [apply list_elem_of_here | done..].
  - intros cb' c Hin Hc Hm. rewrite apply_cb_closures in Hc.
    eapply H; [by apply list_elem_of_further | done..].
Qed.

(** The last callback queued for a mounted closure decides the snapshot. *)
Lemma apply_all_last (cbs : list Callback) (st : Store) (k : nat) (data : JsVal)
    (c : Closure) (f : Fiber) :
  closures st !! k = Some c -> isMounted c = true ->
  fibers st !! cl_inst c = Some f -> alive f = true ->
  exists f', fibers (foldl apply_cb st (cbs ++ [mkCallback k data])) !! cl_inst c = Some f'
    /\ snapshot (hook f') = data
    /\ prevSnapshotRef (hook f') = prevSnapshotRef (hook f)
    /\ ctrl f' = ctrl f.
Proof.
  intros Hc Hm Hf Hal. rewrite foldl_app. simpl.
  set (st' := foldl apply_cb st cbs).
  pose proof (apply_all_prev cbs st (cl_inst c)) as Hp. fold st' in Hp.
  rewrite Hf in Hp. simpl in Hp.
  destruct (fibers st' !! cl_inst c) as [f1|] eqn:Hf1; simpl in Hp; [| done].
  assert (ctrl f1 = ctrl f /\ prevSnapshotRef (hook f1) = prevSnapshotRef (hook f))
    as [E Hprev] by (split; congruence).
  pose proof E as E'. ctrl_fields E'.
  rewrite apply_cb_lookup. simpl. unfold st'. rewrite apply_all_closures, Hc, Hm. simpl.
  rewrite bool_decide_eq_true_2 by done. fold st'. rewrite Hf1. simpl.
  assert (alive f1 = true) as -> by congruence.
  eexists. split; [done |]. simpl. by repeat split.
Qed.

Lemma tick_lookup_quiet (w : World) (i : nat) :
  (forall cb c, cb ∈ callbacks w.1 -> closures w.2 !! cb_closure cb = Some c ->
                isMounted c = true -> cl_inst c <> i) ->
  fibers (step Tick w).2 !! i = fibers w.2 !! i.
Proof.
  intros H. simpl. rewrite run_microtask_hook.
  destruct (microtasks w.1); [done |]. simpl. by apply apply_all_quiet.
Qed.

(** An instance without a registered cleanup has no mounted closure. *)
Lemma no_cleanup_no_mounted (w : World) (i : nat) (f : Fiber) :
  wf w -> fibers w.2 !! i = Some f -> destroy f = None ->
  forall (cb : Callback) c, closures w.2 !! cb_closure cb = Some c ->
                            isMounted c = true -> cl_inst c <> i.
Proof.
  intros [_ (_ & Hk & _)] Hi Hd cb c Hc Hm Hci.
  destruct (Hk _ _ Hc) as (f' & Hf' & _ & Hmo). rewrite Hci in Hf'.
  specialize (Hmo Hm). congruence.
Qed.

(** ** A result delivered by the live subscription *)

(** The live closure of an instance delivers [data] and the next promise job
    runs: the cache takes the value at once, the snapshot at the flush. *)
Lemma live_data_tick (w : World) (i k : nat) (f : Fiber) (data : JsVal) :
  wf w -> fibers w.2 !! i = Some f -> destroy f = Some k ->
  let w1 := step (Data k data) w in
  let w2 := step Tick w1 in
  fibers w1.2 !! i = Some (with_hook (set_prevSnapshotRef data) f)
  /\ closures w1.2 = closures w.2
  /\ closures w2.2 = closures w.2
  /\ exists f2, fibers w2.2 !! i = Some f2
       /\ snapshot (hook f2) = data /\ prevSnapshotRef (hook f2) = data
       /\ ctrl f2 = ctrl f.
Proof.
  intros Hwf Hi Hd w1 w2.
  pose proof Hwf as [Hok (Hf & _)].
  destruct (Hf i f Hi) as (_ & _ & H3).
  destruct (H3 k Hd) as (Hal & _ & c & Hc & Hci & Hm & Hg).
  assert (w1 = (schedule (mkCallback k data) w.1, write_prevSnapshotRef i data w.2)) as Hw1.
  { unfold w1. simpl. unfold onData. rewrite Hc, Hci, Hi.
    by rewrite bool_decide_eq_true_2. }
  assert (fibers w1.2 !! i = Some (with_hook (set_prevSnapshotRef data) f)) as Hi1.
  { rewrite Hw1. simpl. by rewrite lookup_alter_eq, Hi. }
  assert (closures w1.2 = closures w.2) as Hcl1 by (by rewrite Hw1).
  assert (microtasks w1.1 = 1) as Hm1.
  { assert (sched_ok w1.1) as [Hmt _] by (rewrite Hw1; by apply schedule_ok).
    rewrite Hmt. rewrite Hw1. simpl. by rewrite schedule_flag. }
  assert (w2 = (mkSched [] false 0 (console w1.1),
                foldl apply_cb w1.2 (callbacks w.1 ++ [mkCallback k data]))) as Hw2.
  { unfold w2. simpl. rewrite run_microtask_hook, Hm1. rewrite Hw1 at 3. simpl.
    by rewrite schedule_callbacks. }
  split; [done |]. split; [done |]. split.
  { rewrite Hw2. simpl. by rewrite apply_all_closures. }
  rewrite <- Hcl1 in Hc. rewrite <- Hci in Hi1.
  destruct (apply_all_last (callbacks w.1) w1.2 k data c _ Hc Hm Hi1 Hal)
    as (f2 & Hf2 & Hs2 & Hp2 & E2).
  exists f2. rewrite Hw2. simpl. rewrite <- Hci. by repeat split.
Qed.

Lemma value_of_snapshot (h : HookState) (r : Source) (o : UseSubscribeOptions) :
  snapshot h <> JUndefined ->
  hasTransitioned h r (dependencies_of o) && negb (keepPreviousData_of o) = false ->
  useSubscribe_value h r o = snapshot h.
Proof.
  intros Hs Ht. unfold useSubscribe_value. rewrite Ht. by destruct (snapshot h).
Qed.

Lemma value_keep_snapshot (h : HookState) (r : Source) (o : UseSubscribeOptions) :
  snapshot h <> JUndefined -> keepPreviousData_of o = true ->
  useSubscribe_value h r o = snapshot h.
Proof. intros Hs Hk. apply value_of_snapshot; [done |]. rewrite Hk. apply andb_false_r. Qed.

Lemma value_empty (h : HookState) (r : Source) (o : UseSubscribeOptions) :
  snapshot h = JUndefined -> prevSnapshotRef h = JUndefined ->
  useSubscribe_value h r o = def_of o.
Proof.
  intros Hs Hp. unfold useSubscribe_value. rewrite Hs, Hp. simpl.
  rewrite andb_false_r. by destruct (_ && _).
Qed.

(** The render value is the default, or a cell that does not hold
    [undefined]. *)
Lemma value_cases (h : HookState) (r : Source) (o : UseSubscribeOptions) :
  let v := useSubscribe_value h r o in
  v = def_of o
  \/ (v <> JUndefined
      /\ (v = snapshot h
          \/ (v = prevSnapshotRef h /\ snapshot h = JUndefined
              /\ keepPreviousData_of o = true))).
Proof.
  unfold useSubscribe_value.
  destruct (hasTransitioned h r (dependencies_of o) && negb (keepPreviousData_of o));
    [by left |].
  destruct (is_undefined (snapshot h)) eqn:Hs.
  - destruct (keepPreviousData_of o) eqn:Hk; simpl; [| by left].
    destruct (is_undefined (prevSnapshotRef h)) eqn:Hp; simpl; [by left |].
    right. split; [by destruct (prevSnapshotRef h) |]. right.
    by destruct (snapshot h).
  - right. split; [by destruct (snapshot h) | by left].
Qed.

(** The state of an instance after a render whose source or dependencies
    changed, when what it tears down was registered with [keepPreviousData]. *)
Lemma render_keeps_snapshot (w : World) (i : nat) (f : Fiber) (r : Source) (query : nat)
    (o : UseSubscribeOptions) :
  wf w -> fibers w.2 !! i = Some f ->
  (forall k c, destroy f = Some k -> closures w.2 !! k = Some c -> cl_keep c = true) ->
  exists f', fibers (step (Render i r query o) w).2 !! i = Some f'
    /\ snapshot (hook f') = snapshot (hook f)
    /\ (absent r = false -> keepPreviousData_of o = true ->
        snapshot (hook f) <> JUndefined ->
        prevSnapshotRef (hook f) = snapshot (hook f) ->
        prevSnapshotRef (hook f') = snapshot (hook f))
    /\ (snapshot (hook f) = JUndefined -> prevSnapshotRef (hook f) = JUndefined ->
        prevSnapshotRef (hook f') = JUndefined)
    /\ (forall k c, destroy f' = Some k ->
          closures (step (Render i r query o) w).2 !! k = Some c ->
          keepPreviousData_of o = true -> cl_keep c = true).
Proof.
  intros Hwf Hi Hkeep.
  assert (default initFiber (fibers w.2 !! i) = f) as Hf0 by (by rewrite Hi).
  destruct (alive f) eqn:Hal; [destruct (effect_reruns f r o) eqn:Hre |].
  - set (w1 := step (Render i r query o) w).
    destruct (render_rerun_wf i r query o w Hwf) as
      (h' & Hs1 & Hfib1 & Hcl1 & _ & _ & _ & Hsnap1 & Hprev1 & Hgen1);
      rewrite ?Hf0; try done.
    fold w1 in Hs1, Hfib1, Hcl1. rewrite Hf0 in *.
    assert (snapshot (hook (torn_down f w.2)) = snapshot (hook f)
            /\ (prevSnapshotRef (hook (torn_down f w.2)) = prevSnapshotRef (hook f)
                \/ prevSnapshotRef (hook (torn_down f w.2)) = JUndefined)) as [Ht1 Ht2].
    { unfold torn_down, registered_keep. destruct (destroy f) as [k|] eqn:Hd; [| by auto].
      destruct (closures w.2 !! k) as [c|] eqn:Hc; simpl; [| by auto].
      rewrite (Hkeep k c) by done. unfold cleanup_fiber. simpl. auto. }
    eexists. rewrite Hfib1, lookup_insert_eq. split; [done |]. simpl.
    split; [congruence |]. split; [| split].
    + intros Hr Hk Hs Hp. rewrite Hprev1, Hr, Hk. simpl.
      by destruct (snapshot (hook f)).
    + intros Hs Hp. rewrite Hprev1, Hs. simpl. rewrite !andb_false_r.
      destruct Ht2 as [-> | ->]; done.
    + intros k c Hk Hc Hko. rewrite Hcl1 in Hc.
      destruct r as [| |a]; simpl in Hk; try done.
      injection Hk as <-. rewrite <- (teardown_length (destroy f)) in Hc.
      unfold new_closures in Hc.
      rewrite list_lookup_middle in Hc by done. injection Hc as <-. done.
  - rewrite render_skip by (right; by rewrite Hf0).
    exists f. split; [done |]. split; [done |]. split; [| split].
    + congruence.
    + done.
    + intros k c Hk Hc _. by eapply Hkeep.
  - rewrite render_skip by (left; by rewrite Hf0).
    exists f. split; [done |]. split; [done |]. split; [| split].
    + congruence.
    + done.
    + intros k c Hk Hc _. by eapply Hkeep.
Qed.

(** ** Where the values in the cells come from *)

Lemma teardown_lookup_fwd (d : option nat) (cls : list Closure) (k : nat) (c : Closure) :
  cls !! k = Some c ->
  exists c', teardown_closures d cls !! k = Some c' /\ cl_inst c' = cl_inst c.
Proof.
  intros Hc. unfold teardown_closures. destruct d as [k0|]; [| by eauto].
  destruct (cls !! k0) as [c0|] eqn:H0; [| by eauto].
  destruct (decide (k0 = k)) as [-> | Hne].
  - exists (unmounted c0). rewrite list_lookup_insert_eq by (by eapply lookup_lt_Some).
    split; [done |]. simpl. congruence.
  - exists c. by rewrite list_lookup_insert_ne.
Qed.

Lemma cells_from_mono (i : nat) (D D' : list JsVal) (w : World) :
  D ⊆ D' -> cells_from i D w -> cells_from i D' w.
Proof.
  intros Hsub [H1 H2]. split.
  - intros f Hf. destruct (H1 f Hf) as [Ha Hb].
    split; (eapply list_subseteq_skip; [exact Hsub | done]).
  - intros cb Hcb. destruct (H2 cb Hcb) as (c & Hc & Hd). exists c. split; [done |].
    intros Hi. apply Hsub. by apply Hd.
Qed.

Lemma cleanup_fiber_cells (keep : bool) (f : Fiber) (D : list JsVal) :
  snapshot (hook f) ∈ JUndefined :: D -> prevSnapshotRef (hook f) ∈ JUndefined :: D ->
  snapshot (hook (cleanup_fiber keep f)) ∈ JUndefined :: D
  /\ prevSnapshotRef (hook (cleanup_fiber keep f)) ∈ JUndefined :: D.
Proof.
  intros Hs Hp. unfold cleanup_fiber. destruct keep; simpl.
  - split; [done | apply list_elem_of_here].
  - destruct (alive f); simpl; split; try done; apply list_elem_of_here.
Qed.

Lemma torn_down_cells (f : Fiber) (st : Store) (D : list JsVal) :
  snapshot (hook f) ∈ JUndefined :: D -> prevSnapshotRef (hook f) ∈ JUndefined :: D ->
  snapshot (hook (torn_down f st)) ∈ JUndefined :: D
  /\ prevSnapshotRef (hook (torn_down f st)) ∈ JUndefined :: D.
Proof.
  intros Hs Hp. unfold torn_down. destruct (registered_keep f st); [| done].
  by apply cleanup_fiber_cells.
Qed.

Lemma apply_all_cells (cbs : list Callback) (st : Store) (i : nat) (D : list JsVal) :
  (forall cb, cb ∈ cbs ->
     exists c, closures st !! cb_closure cb = Some c /\ (cl_inst c = i -> cb_data cb ∈ D)) ->
  (forall f, fibers st !! i = Some f ->
     snapshot (hook f) ∈ JUndefined :: D /\ prevSnapshotRef (hook f) ∈ JUndefined :: D) ->
  forall f, fibers (foldl apply_cb st cbs) !! i = Some f ->
    snapshot (hook f) ∈ JUndefined :: D /\ prevSnapshotRef (hook f) ∈ JUndefined :: D.
Proof.
  revert st. induction cbs as [|cb cbs IH]; intros st Hcbs Hst; simpl; [done |].
  apply IH.
  - intros cb' Hin. rewrite apply_cb_closures. apply Hcbs. by apply list_elem_of_further.
  - intros f. rewrite apply_cb_lookup.
    destruct (Hcbs cb (list_elem_of_here _ _)) as (c & Hc & Hd). rewrite Hc.
    destruct (isMounted c && bool_decide (cl_inst c = i)) eqn:Hb; [| apply Hst].
    apply andb_true_iff in Hb as [_ Hb]. apply bool_decide_eq_true in Hb.
    destruct (fibers st !! i) as [f0|] eqn:Hf0; simpl; [| done].
    intros [= <-]. destruct (Hst f0 eq_refl) as [Hs Hp].
    destruct (alive f0); simpl; [| done]. split; [| done].
    apply list_elem_of_further. by apply Hd.
Qed.

Lemma cells_step (i : nat) (D : list JsVal) (e : Event) (w : World) :
  wf w -> cells_from i D w -> cells_from i (D ++ delivered i [e] w) (step e w).
Proof.
  intros Hwf Hcells.
  assert (D ⊆ D ++ delivered i [e] w) as Hsub by (by apply list_subseteq_app_l).
  destruct e as [j r q o | k data | | j].
  - (* Render *)
    simpl delivered. rewrite app_nil_r.
    set (f0 := default initFiber (fibers w.2 !! j)).
    destruct (alive f0) eqn:Hal; [destruct (effect_reruns f0 r o) eqn:Hre |].
    2:{ rewrite render_skip; [done | by right]. }
    2:{ rewrite render_skip; [done | by left]. }
    destruct (render_rerun_wf j r q o w Hwf Hal Hre) as
      (h' & Hs1 & Hfib1 & Hcl1 & _ & _ & _ & Hsnap1 & Hprev1 & _).
    fold f0 in Hcl1, Hsnap1, Hprev1.
    set (w1 := step (Render j r q o) w) in *.
    destruct Hcells as [H1 H2]. split.
    + intros f. rewrite Hfib1. destruct (decide (j = i)) as [-> | Hne].
      * rewrite lookup_insert_eq. intros [= <-]. simpl.
        assert (snapshot (hook f0) ∈ JUndefined :: D
                /\ prevSnapshotRef (hook f0) ∈ JUndefined :: D) as [Ha Hb].
        { unfold f0. destruct (fibers w.2 !! i) as [f|] eqn:Hf; [by apply H1 |].
          simpl. split; apply list_elem_of_here. }
        destruct (torn_down_cells f0 w.2 D Ha Hb) as [Hc Hd].
        rewrite Hsnap1, Hprev1. split; [done |]. by destruct (_ && _).
      * rewrite lookup_insert_ne by done. apply H1.
    + intros cb Hcb. rewrite Hs1 in Hcb. destruct (H2 cb Hcb) as (c & Hc & Hd).
      destruct (teardown_lookup_fwd (destroy f0) _ _ _ Hc) as (c' & Hc' & Hci).
      exists c'. rewrite Hcl1. rewrite lookup_app_l by (by eapply lookup_lt_Some).
      split; [done |]. by rewrite Hci.
  - (* Data *)
    simpl delivered. rewrite app_nil_r. simpl step. unfold onData.
    destruct (closures w.2 !! k) as [c|] eqn:Hc; [| by rewrite app_nil_r].
    destruct (fibers w.2 !! cl_inst c) as [f|] eqn:Hf;
      [| eapply cells_from_mono; [by apply list_subseteq_app_l | done]].
    destruct (negb _); [eapply cells_from_mono; [by apply list_subseteq_app_l | done] |].
    destruct Hcells as [H1 H2]. split; simpl.
    + intros f'. rewrite lookup_alter. case_decide as Hi.
      * rewrite Hi in *.
        destruct (fibers w.2 !! i) as [f0|] eqn:Hf0; simpl; [| done].
        intros [= <-]. simpl. destruct (H1 f0 eq_refl) as [Ha Hb]. split.
        -- eapply list_subseteq_skip; [| exact Ha]. by apply list_subseteq_app_l.
        -- apply list_elem_of_further, elem_of_app. right. apply list_elem_of_here.
      * rewrite app_nil_r. apply H1.
    + intros cb. rewrite schedule_callbacks, elem_of_app, list_elem_of_singleton.
      intros [Hcb | ->].
      * destruct (H2 cb Hcb) as (c' & Hc' & Hd). exists c'. split; [done |].
        intros Hi. apply elem_of_app. left. by apply Hd.
      * exists c. split; [done |]. simpl. intros Hi. rewrite decide_True by done.
        apply elem_of_app. right. apply list_elem_of_here.
  - (* Tick *)
    simpl delivered. rewrite app_nil_r. simpl step. rewrite run_microtask_hook.
    destruct (microtasks w.1) as [|n]; [done |]. destruct Hcells as [H1 H2]. split; simpl.
    + by apply apply_all_cells.
    + intros cb Hcb. by apply elem_of_nil in Hcb.
  - (* Unmount *)
    simpl delivered. rewrite app_nil_r. simpl step. unfold unmount.
    destruct (fibers w.2 !! j) as [f|] eqn:Hj; [| done].
    destruct (alive f) eqn:Hal; [| done].
    destruct Hcells as [H1 H2]. destruct Hwf as [_ (Hf & _)].
    destruct (Hf j f Hj) as (_ & _ & H3).
    set (st1 := match destroy f with Some k => cleanup k w.2 | None => w.2 end).
    assert (closures st1 = teardown_closures (destroy f) (closures w.2)) as Hcl1.
    { unfold st1, teardown_closures. destruct (destroy f); [apply cleanup_closures | done]. }
    assert (forall f1, fibers st1 !! i = Some f1 ->
              snapshot (hook f1) ∈ JUndefined :: D
              /\ prevSnapshotRef (hook f1) ∈ JUndefined :: D) as Hst1.
    { intros f1. unfold st1. destruct (destroy f) as [k|] eqn:Hd; [| apply H1].
      destruct (H3 k eq_refl) as (_ & _ & c & Hc & Hci & _).
      rewrite (cleanup_lookup k i c) by done. case_decide; [| apply H1].
      destruct (fibers w.2 !! i) as [fi|] eqn:Hfi; simpl; [| done].
      intros [= <-]. destruct (H1 fi eq_refl). by apply cleanup_fiber_cells. }
    split; simpl.
    + intros f'. rewrite lookup_alter. case_decide; [| apply Hst1]. subst j.
      destruct (fibers st1 !! i) as [f1|] eqn:Hf1; simpl; [| done].
      intros [= <-]. simpl. by apply Hst1.
    + intros cb Hcb. destruct (H2 cb Hcb) as (c & Hc & Hd).
      destruct (teardown_lookup_fwd (destroy f) _ _ _ Hc) as (c' & Hc' & Hci).
      exists c'. rewrite Hcl1. split; [done |]. by rewrite Hci.
Qed.

Lemma delivered_app (i : nat) (es1 es2 : list Event) (w : World) :
  delivered i (es1 ++ es2) w = delivered i es1 w ++ delivered i es2 (run es1 w).
Proof.
  revert w. induction es1 as [|e es1 IH]; intros w; simpl; [done |].
  by rewrite IH, app_assoc.
Qed.

Lemma cells_run (i : nat) (es : list Event) (D : list JsVal) (w : World) :
  wf w -> cells_from i D w -> cells_from i (D ++ delivered i es w) (run es w).
Proof.
  revert D w. induction es as [|e es IH]; intros D w Hwf Hc; simpl.
  - by rewrite app_nil_r.
  - pose proof (cells_step i D e w Hwf Hc) as H1. simpl in H1. rewrite app_nil_r in H1.
    specialize (IH _ _ (wf_step e w Hwf) H1). by rewrite <- app_assoc in IH.
Qed.

Lemma cells_init (i : nat) : cells_from i [] initWorld.
Proof.
  split.
  - intros f H. simpl in H. by rewrite lookup_empty in H.
  - intros cb H. by apply elem_of_nil in H.
Qed.

(** A value a render returns, unless it is the default, was delivered to
    the instance. *)
Lemma value_provenance (es : list Event) (i : nat) (r : Source) (o : UseSubscribeOptions) :
  let v := useSubscribe_value (hook_of i (run es initWorld)) r o in
  v = def_of o \/ (v <> JUndefined /\ v ∈ delivered i es initWorld).
Proof.
  intros v. unfold v.
  destruct (value_cases (hook_of i (run es initWorld)) r o) as [H | [Hne H]]; [by left |].
  right. split; [done |].
  pose proof (cells_run i es [] initWorld wf_init (cells_init i)) as [Hc _].
  simpl in Hc. unfold hook_of in *.
  destruct (fibers (run es initWorld).2 !! i) as [f|] eqn:Hf.
  - destruct (Hc f eq_refl) as [Ha Hb]. simpl in *.
    destruct H as [H | (H & _ & _)]; rewrite H in *.
    + apply elem_of_cons in Ha as [Ha | Ha]; [done | done].
    + apply elem_of_cons in Hb as [Hb | Hb]; [done | done].
  - simpl in *. destruct H as [H | (H & _ & _)]; by rewrite H in Hne.
Qed.

Lemma hook_of_lookup (i : nat) (w : World) (f : Fiber) :
  fibers w.2 !! i = Some f -> hook_of i w = hook f.
Proof. intros H. unfold hook_of. by rewrite H. Qed.

(** C7. [null] delivered by the live subscription is data: it is written to
    [prevSnapshotRef] at once and to the snapshot by the flush; from then on
    a render returns [null] (whatever the default is) unless it is a
    transition render without retention.  Across a transition with
    [keepPreviousData] (the subscription it replaces was set up with it too)
    the transition render and the renders after it still return [null], and
    when the new source is present the cache holds [null] again after the
    effect. *)
Theorem C7_null_is_data (w : World) (i k : nat) (f : Fiber) :
  reachable w ->
  fibers w.2 !! i = Some f ->
  destroy f = Some k ->
  let w1 := step (Data k JNull) w in
  let w2 := step Tick w1 in
  JNull <> JUndefined
  /\ prevSnapshotRef (hook_of i w1) = JNull
  /\ snapshot (hook_of i w2) = JNull
  /\ prevSnapshotRef (hook_of i w2) = JNull
  /\ (forall r o,
        hasTransitioned (hook_of i w2) r (dependencies_of o)
        && negb (keepPreviousData_of o) = false ->
        observe i r o w2 = JNull)
  /\ (forall r query o,
        keepPreviousData_of o = true ->
        cleanup_keeps true f w.2 ->
        let w3 := step (Render i r query o) w2 in
        observe i r o w2 = JNull
        /\ snapshot (hook_of i w3) = JNull
        /\ (absent r = false -> prevSnapshotRef (hook_of i w3) = JNull)
        /\ forall r' o', keepPreviousData_of o' = true -> observe i r' o' w3 = JNull).
Proof.
  intros Hr Hi Hd w1 w2. subst w1 w2.
  pose proof (reachable_wf w Hr) as Hwf.
  destruct (live_data_tick w i k f JNull Hwf Hi Hd) as (Hi1 & Hcl1 & Hcl2 & f2 & Hi2 & Hs2 & Hp2 & E).
  set (w1 := step (Data k JNull) w) in *. set (w2 := step Tick w1) in *.
  assert (wf w2) as Hwf2 by (apply wf_step, wf_step, Hwf).
  pose proof E as E'. ctrl_fields E'.
  split; [done |]. split; [by rewrite (hook_of_lookup i w1 _ Hi1) |].
  rewrite (hook_of_lookup i w2 _ Hi2). split; [done |]. split; [done |]. split.
  { intros r o Ht. rewrite observe_value, (hook_of_lookup i w2 _ Hi2).
    rewrite value_of_snapshot; [done | by rewrite Hs2 | done]. }
  intros r query o Hko Hkeep w3. subst w3. set (w3 := step (Render i r query o) w2) in *.
  destruct (render_keeps_snapshot w2 i f2 r query o Hwf2 Hi2) as (f3 & Hi3 & Hs3 & Hp3 & _).
  { intros k' c' Hd' Hc'. rewrite Hcl2 in Hc'. eapply Hkeep; [| done]. congruence. }
  rewrite (hook_of_lookup i w3 _ Hi3).
  split; [| split; [| split]].
  - rewrite observe_value, (hook_of_lookup i w2 _ Hi2).
    rewrite value_keep_snapshot; [done | by rewrite Hs2 | done].
  - congruence.
  - intros Hab. rewrite Hp3; try done; congruence.
  - intros r' o' Hko'. rewrite observe_value, (hook_of_lookup i w3 _ Hi3).
    rewrite value_keep_snapshot; [congruence | rewrite Hs3, Hs2; done | done].
Qed.

Lemma C7_witness :
  let w := run null_trace initWorld in
  let w2 := step Tick (step (Data 0 JNull) w) in
  let w3 := step (Render 0 repB 0 (opts "default" true)) w2 in
  observe 0 repA (opts "default" true) w2 = JNull
  /\ observe 0 repB (opts "default" true) w2 = JNull
  /\ prevSnapshotRef (hook_of 0 w3) = JNull
  /\ observe 0 repB (opts "default" true) w3 = JNull.
Proof.
  pose proof (C7_null_is_data (run null_trace initWorld) 0 0
                (mkFiber (mkHook JUndefined JUndefined 1 repA [] true)
                         (Some [JRef 1]) (Some 0) true)
                (ex_intro _ null_trace eq_refl) eq_refl eq_refl) as H.
  cbv zeta in H. destruct H as (_ & _ & _ & _ & H5 & H6).
  destruct (H6 repB 0 (opts "default" true) eq_refl) as (Ha & _ & Hb & Hc).
  { intros k c [= <-] [= <-]. reflexivity. }
  split; [apply H5; reflexivity |]. split; [exact Ha |].
  split; [by apply Hb | by apply Hc].
Defined.

(** C8. A render returns the default or a value that is not [undefined];
    such a value is the snapshot or, under retention with no snapshot, the
    cache, and it was delivered by a subscription of this instance.  When
    the live subscription delivers [undefined] the cache is overwritten with
    [undefined] at once, whatever it held, the flush makes the snapshot
    [undefined], and every render then returns the default. *)
Theorem C8_value_or_default :
  (forall (w : World) (i : nat) (r : Source) (query : nat) (o : UseSubscribeOptions),
     let v := (useSubscribe i r query o w).1 in
     v = def_of o
     \/ (v <> JUndefined
         /\ (v = snapshot (hook_of i w)
             \/ (v = prevSnapshotRef (hook_of i w) /\ snapshot (hook_of i w) = JUndefined
                 /\ keepPreviousData_of o = true))))
  /\ (forall (es : list Event) (i : nat) (r : Source) (query : nat) (o : UseSubscribeOptions),
        let v := (useSubscribe i r query o (run es initWorld)).1 in
        v = def_of o \/ (v <> JUndefined /\ v ∈ delivered i es initWorld))
  /\ (forall (w : World) (i k : nat) (f : Fiber),
        reachable w -> fibers w.2 !! i = Some f -> destroy f = Some k ->
        let w1 := step (Data k JUndefined) w in
        let w2 := step Tick w1 in
        prevSnapshotRef (hook_of i w1) = JUndefined
        /\ snapshot (hook_of i w2) = JUndefined
        /\ prevSnapshotRef (hook_of i w2) = JUndefined
        /\ forall r query o, (useSubscribe i r query o w2).1 = def_of o).
Proof.
  split; [| split].
  - intros w i r query o. rewrite useSubscribe_fst. apply value_cases.
  - intros es i r query o v. unfold v. rewrite useSubscribe_fst. apply value_provenance.
  - intros w i k f Hr Hi Hd w1 w2. subst w1 w2.
    pose proof (reachable_wf w Hr) as Hwf.
    destruct (live_data_tick w i k f JUndefined Hwf Hi Hd)
      as (Hi1 & _ & _ & f2 & Hi2 & Hs2 & Hp2 & _).
    set (w1 := step (Data k JUndefined) w) in *. set (w2 := step Tick w1) in *.
    split; [by rewrite (hook_of_lookup i w1 _ Hi1) |].
    rewrite (hook_of_lookup i w2 _ Hi2). split; [done |]. split; [done |].
    intros r query o. rewrite useSubscribe_fst, (hook_of_lookup i w2 _ Hi2).
    by apply value_empty.
Qed.

Lemma C8_witness :
  let w := run (loaded_trace true) initWorld in
  let w1 := step (Data 0 JUndefined) w in
  let w2 := step Tick w1 in
  prevSnapshotRef (hook_of 0 w) = JStr "data1"
  /\ prevSnapshotRef (hook_of 0 w1) = JUndefined
  /\ snapshot (hook_of 0 w2) = JUndefined
  /\ (useSubscribe 0 repA 0 (opts "default" true) w2).1 = JStr "default".
Proof.
  destruct C8_value_or_default as (_ & _ & H3).
  destruct (H3 (run (loaded_trace true) initWorld) 0 0
              (mkFiber (mkHook (JStr "data1") (JStr "data1") 1 repA [] true)
                       (Some [JRef 1]) (Some 0) true)
              (ex_intro _ (loaded_trace true) eq_refl) eq_refl eq_refl)
    as (Ha & Hb & _ & Hd).
  split; [reflexivity |]. split; [exact Ha |]. split; [exact Hb |].
  exact (Hd repA 0 (opts "default" true)).
Defined.

(** ** Events of other instances *)

Lemma teardown_lookup_keep (d : option nat) (cls : list Closure) (k : nat) (c' : Closure) :
  teardown_closures d cls !! k = Some c' ->
  exists c, cls !! k = Some c /\ cl_inst c' = cl_inst c /\ cl_keep c' = cl_keep c.
Proof.
  unfold teardown_closures. destruct d as [k0|]; [| by eauto].
  destruct (cls !! k0) as [c0|] eqn:H0; [| by eauto].
  rewrite list_lookup_insert_Some. intros [(-> & <- & Hlt) | (Hne & H)]; by eauto.
Qed.

Lemma unmount_spec (j : nat) (w : World) (fj : Fiber) :
  wf w -> fibers w.2 !! j = Some fj -> alive fj = true ->
  (unmount j w).1 = w.1
  /\ fibers (unmount j w).2
     = <[j := mkFiber (hook (torn_down fj w.2)) (effectDeps fj) None false]> (fibers w.2)
  /\ closures (unmount j w).2 = teardown_closures (destroy fj) (closures w.2).
Proof.
  intros [_ (Hf & _)] Hj Hal. unfold unmount. rewrite Hj, Hal. simpl.
  destruct (Hf j fj Hj) as (_ & _ & H3).
  split; [done |]. split.
  - apply map_eq. intros i. rewrite lookup_alter. unfold torn_down, registered_keep.
    destruct (destroy fj) as [k|] eqn:Hd.
    + destruct (H3 k eq_refl) as (_ & _ & c & Hc & Hci & _). rewrite Hc. simpl.
      case_decide; subst.
      * rewrite (cleanup_lookup k _ c) by done. rewrite decide_True by done.
        rewrite Hj, lookup_insert_eq. simpl. f_equal.
        pose proof (cleanup_fiber_ctrl (cl_keep c) fj) as E. ctrl_fields E.
        by rewrite Ectl1.
      * rewrite (cleanup_lookup k _ c) by done. rewrite decide_False by congruence.
        by rewrite lookup_insert_ne.
    + case_decide; subst; [by rewrite Hj, lookup_insert_eq | by rewrite lookup_insert_ne].
  - unfold teardown_closures. destruct (destroy fj); [apply cleanup_closures | done].
Qed.

(** The closures after a step: the old ones, with their instance and their
    captured [keepPreviousData], and at most one new one, created by a
    render for its own instance. *)
Lemma step_closures (e : Event) (w : World) (k : nat) (c' : Closure) :
  wf w -> closures (step e w).2 !! k = Some c' ->
  (exists c, closures w.2 !! k = Some c /\ cl_inst c' = cl_inst c /\ cl_keep c' = cl_keep c)
  \/ (exists j r q o, e = Render j r q o /\ cl_inst c' = j
                      /\ cl_keep c' = keepPreviousData_of o /\ length (closures w.2) <= k).
Proof.
  intros Hwf. destruct e as [j r q o | k0 data | | j].
  - set (f0 := default initFiber (fibers w.2 !! j)).
    destruct (alive f0) eqn:Hal; [destruct (effect_reruns f0 r o) eqn:Hre |].
    2:{ rewrite render_skip; [by eauto | by right]. }
    2:{ rewrite render_skip; [by eauto | by left]. }
    destruct (render_rerun_wf j r q o w Hwf Hal Hre) as (h' & _ & _ & Hcl1 & _).
    rewrite Hcl1. rewrite lookup_app_Some. intros [H | [Hlen H]].
    + left. by apply teardown_lookup_keep in H.
    + right. exists j, r, q, o. rewrite teardown_length in Hlen.
      destruct r as [| |a]; simpl in H; try done.
      apply list_lookup_singleton_Some in H as [_ <-]. by repeat split.
  - simpl. unfold onData. destruct (closures w.2 !! k0) as [c|]; [| by eauto].
    destruct (fibers w.2 !! cl_inst c); [| by eauto].
    destruct (negb _); simpl; by eauto.
  - simpl. rewrite run_microtask_hook. destruct (microtasks w.1); [by eauto |].
    simpl. rewrite apply_all_closures. by eauto.
  - simpl. destruct (fibers w.2 !! j) as [fj|] eqn:Hj.
    2:{ unfold unmount. rewrite Hj. by eauto. }
    destruct (alive fj) eqn:Hal.
    2:{ unfold unmount. rewrite Hj, Hal. by eauto. }
    destruct (unmount_spec j w fj Hwf Hj Hal) as (_ & _ & ->).
    intros H. left. by apply teardown_lookup_keep in H.
Qed.

(** Renders and unmounts of other instances leave instance [i] alone. *)
Lemma step_other_instance (e : Event) (w : World) (i : nat) :
  wf w ->
  match e with
  | Render j _ _ _ | Unmount j => j <> i
  | _ => False
  end ->
  fibers (step e w).2 !! i = fibers w.2 !! i.
Proof.
  intros Hwf. destruct e as [j r q o | | | j]; try done; intros Hne.
  - set (f0 := default initFiber (fibers w.2 !! j)).
    destruct (alive f0) eqn:Hal; [destruct (effect_reruns f0 r o) eqn:Hre |].
    2:{ rewrite render_skip; [done | by right]. }
    2:{ rewrite render_skip; [done | by left]. }
    destruct (render_rerun_wf j r q o w Hwf Hal Hre) as (h' & _ & -> & _).
    by rewrite lookup_insert_ne.
  - simpl. destruct (fibers w.2 !! j) as [fj|] eqn:Hj.
    2:{ unfold unmount. by rewrite Hj. }
    destruct (alive fj) eqn:Hal.
    2:{ unfold unmount. by rewrite Hj, Hal. }
    destruct (unmount_spec j w fj Hwf Hj Hal) as (_ & -> & _).
    by rewrite lookup_insert_ne.
Qed.

Lemma pending_for_false (i : nat) (w : World) :
  pending_for i w = false ->
  forall cb c, cb ∈ callbacks w.1 -> closures w.2 !! cb_closure cb = Some c ->
               isMounted c = true -> cl_inst c <> i.
Proof.
  unfold pending_for. intros H cb c Hin Hc Hm Hi.
  assert (existsb (fun cb =>
             match closures w.2 !! cb_closure cb with
             | Some c => isMounted c && bool_decide (cl_inst c = i)
             | None => false
             end) (callbacks w.1) = true) as Ht; [| congruence].
  apply existsb_exists. exists cb. split; [by apply list_elem_of_In |].
  rewrite Hc, Hm. simpl. by apply bool_decide_eq_true_2.
Qed.

Lemma onData_lookup (k : nat) (data : JsVal) (w : World) (i : nat) :
  fibers (onData k data w).2 !! i
  = match closures w.2 !! k with
    | Some c =>
        if accepts k w && bool_decide (cl_inst c = i)
        then with_hook (set_prevSnapshotRef data) <$> fibers w.2 !! i
        else fibers w.2 !! i
    | None => fibers w.2 !! i
    end.
Proof.
  unfold onData, accepts. destruct (closures w.2 !! k) as [c|]; [| done].
  destruct (fibers w.2 !! cl_inst c) as [f|] eqn:Hf; [| done].
  destruct (bool_decide (generationRef (hook f) = currentGen c)); simpl; [| done].
  rewrite lookup_alter. by case_decide; case_bool_decide; subst.
Qed.

(** ** Retention across transitions *)

Lemma onData_closures (k : nat) (data : JsVal) (w : World) :
  closures (onData k data w).2 = closures w.2.
Proof.
  unfold onData. destruct (closures w.2 !! k) as [c|]; [| done].
  destruct (fibers w.2 !! cl_inst c); [| done]. by destruct (negb _).
Qed.

Lemma tick_closures (w : World) : closures (step Tick w).2 = closures w.2.
Proof.
  simpl. rewrite run_microtask_hook. destruct (microtasks w.1); [done |].
  apply apply_all_closures.
Qed.

Lemma cleanup_keeps_step (b : bool) (e : Event) (w : World) (i : nat) (f : Fiber) :
  wf w -> fibers w.2 !! i = Some f -> cleanup_keeps b f w.2 ->
  cleanup_keeps b f (step e w).2.
Proof.
  intros Hwf Hi Hkeep k c' Hd Hc'.
  pose proof Hwf as [_ (Hf & _)]. destruct (Hf i f Hi) as (_ & _ & H3).
  destruct (H3 k Hd) as (_ & _ & c & Hc & _).
  destruct (step_closures e w k c' Hwf Hc') as [(c0 & Hc0 & _ & Hk) | (j & r & q & o & _ & _ & _ & Hlen)].
  - rewrite Hk. by eapply Hkeep.
  - apply lookup_lt_Some in Hc. lia.
Qed.

Lemma torn_down_keeps (f : Fiber) (st : Store) :
  cleanup_keeps true f st ->
  snapshot (hook (torn_down f st)) = snapshot (hook f)
  /\ (prevSnapshotRef (hook f) = JUndefined ->
      prevSnapshotRef (hook (torn_down f st)) = JUndefined).
Proof.
  intros Hkeep. unfold torn_down, registered_keep.
  destruct (destroy f) as [k|] eqn:Hd; [| done].
  destruct (closures st !! k) as [c|] eqn:Hc; simpl; [| done].
  rewrite (Hkeep k c) by done. by unfold cleanup_fiber.
Qed.

(** One event of a window in which instance [i] renders with retention and
    no delivered value is applied to it. *)
Lemma window_step (i : nat) (e : Event) (w : World) (f : Fiber) :
  wf w -> fibers w.2 !! i = Some f -> cleanup_keeps true f w.2 ->
  renders_with i true e = true -> applies_to i e w = false ->
  exists f', fibers (step e w).2 !! i = Some f'
    /\ snapshot (hook f') = snapshot (hook f)
    /\ cleanup_keeps true f' (step e w).2
    /\ (snapshot (hook f) = JUndefined -> prevSnapshotRef (hook f) = JUndefined ->
        delivers_to i e w = false -> prevSnapshotRef (hook f') = JUndefined).
Proof.
  intros Hwf Hi Hkeep Hrw Hap.
  destruct e as [j r q o | k data | | j].
  - destruct (decide (j = i)) as [-> | Hne].
    + simpl in Hrw. rewrite decide_True in Hrw by done. apply bool_decide_eq_true in Hrw.
      destruct (render_keeps_snapshot w i f r q o Hwf Hi Hkeep)
        as (f' & Hi' & Hs' & _ & Hp' & Hk').
      exists f'. split; [done |]. split; [done |]. split.
      * intros k c Hd Hc. by eapply Hk'.
      * intros Hs Hp _. by apply Hp'.
    + exists f. rewrite step_other_instance by done. split; [done |]. split; [done |].
      split; [by eapply cleanup_keeps_step | done].
  - exists (if accepts k w && bool_decide (delivers_to i (Data k data) w = true)
            then with_hook (set_prevSnapshotRef data) f else f).
    split; [| split; [| split]].
    + simpl step. rewrite onData_lookup. simpl. destruct (closures w.2 !! k) as [c|].
      * destruct (accepts k w); simpl; [| done].
        destruct (bool_decide (cl_inst c = i)) eqn:Hb; simpl; by rewrite Hi.
      * rewrite andb_false_r. done.
    + by destruct (_ && _).
    + pose proof (cleanup_keeps_step true (Data k data) w i f Hwf Hi Hkeep) as H.
      intros k' c' Hd Hc. eapply H; [| done]. by destruct (_ && _).
    + intros _ Hp Hdel. rewrite Hdel. by rewrite andb_false_r.
  - exists f. split; [| split; [done |]; split; [| done]].
    + simpl in Hap. apply andb_false_iff in Hap as [Hm | Hp].
      * apply negb_false_iff, Nat.eqb_eq in Hm. by rewrite tick_idle.
      * rewrite tick_lookup_quiet; [done |]. by apply pending_for_false.
    + by eapply cleanup_keeps_step.
  - destruct (decide (j = i)) as [-> | Hne].
    + destruct (alive f) eqn:Hal.
      * destruct (unmount_spec i w f Hwf Hi Hal) as (_ & Hfib & _).
        destruct (torn_down_keeps f w.2 Hkeep) as [Hs Hp].
        eexists. simpl step. rewrite Hfib, lookup_insert_eq. split; [done |]. simpl.
        split; [done |]. split; [done |]. intros _ Hp0 _. by apply Hp.
      * exists f. simpl step. unfold unmount. rewrite Hi, Hal. by repeat split.
    + exists f. rewrite step_other_instance by done. split; [done |]. split; [done |].
      split; [by eapply cleanup_keeps_step | done].
Qed.

(** C2 (as amended). Retention holds the committed snapshot, not the last
    value ever seen.  Take an instance whose registered cleanup captured
    [keepPreviousData = true] and a stretch of events in which the instance
    renders with [keepPreviousData = true] (transitions included) and no
    promise job applies a delivered value to it.  If the snapshot holds a
    real value at the start, every render with retention during and after the
    stretch returns that value, never the default.  If the snapshot and the
    cache are both [undefined] at the start (nothing was delivered yet, or
    the last result was [undefined]) and no Data event reaches the instance,
    every render returns the default. *)
Theorem C2_retained_snapshot (w : World) (i : nat) (f : Fiber) (es : list Event)
    (r : Source) (o : UseSubscribeOptions) :
  reachable w ->
  fibers w.2 !! i = Some f ->
  cleanup_keeps true f w.2 ->
  window (fun e w => renders_with i true e && negb (applies_to i e w)) es w = true ->
  keepPreviousData_of o = true ->
  (snapshot (hook f) <> JUndefined ->
   observe i r o w = snapshot (hook f)
   /\ observe i r o (run es w) = snapshot (hook f))
  /\ (snapshot (hook f) = JUndefined ->
      prevSnapshotRef (hook f) = JUndefined ->
      window (fun e w => negb (delivers_to i e w)) es w = true ->
      observe i r o (run es w) = def_of o).
Proof.
  intros Hr Hi Hkeep Hwin Hko.
  pose proof (reachable_wf w Hr) as Hwf. clear Hr.
  assert (exists f', fibers (run es w).2 !! i = Some f'
            /\ snapshot (hook f') = snapshot (hook f)
            /\ (snapshot (hook f) = JUndefined -> prevSnapshotRef (hook f) = JUndefined ->
                window (fun e w => negb (delivers_to i e w)) es w = true ->
                prevSnapshotRef (hook f') = JUndefined)) as (f' & Hi' & Hs' & Hp').
  { revert w f Hwf Hi Hkeep Hwin. induction es as [|e es IH]; intros w f Hwf Hi Hkeep Hwin.
    - exists f. by repeat split.
    - simpl in Hwin. apply andb_true_iff in Hwin as [He Hwin].
      apply andb_true_iff in He as [Hrw Hap]. apply negb_true_iff in Hap.
      destruct (window_step i e w f Hwf Hi Hkeep Hrw Hap) as (f1 & Hi1 & Hs1 & Hk1 & Hp1).
      destruct (IH (step e w) f1 (wf_step e w Hwf) Hi1 Hk1 Hwin) as (f' & Hi' & Hs' & Hp').
      exists f'. split; [done |]. split; [congruence |].
      intros Hs Hp Hdel. simpl in Hdel. apply andb_true_iff in Hdel as [Hd Hdel].
      apply negb_true_iff in Hd. apply Hp'; [congruence | by apply Hp1 | done]. }
  split.
  - intros Hs. rewrite !observe_value.
    rewrite (hook_of_lookup i w f Hi), (hook_of_lookup i (run es w) f' Hi').
    rewrite !value_keep_snapshot by (done || by rewrite Hs'). done.
  - intros Hs Hp Hdel. rewrite observe_value, (hook_of_lookup i (run es w) f' Hi').
    apply value_empty; [congruence | by apply Hp'].
Qed.

(** The query answered ["a1"], then [undefined]: the caller saw ["a1"], but
    after a transition with retention the hook returns the default. *)
Lemma C2_counterexample : ~ no_flash_as_stated.
Proof.
  intros H.
  specialize (H vanished_trace [] 0 repB repB 0 (opts "default" true) (opts "default" true)
                eq_refl eq_refl eq_refl eq_refl eq_refl).
  vm_compute in H. discriminate H.
Qed.

Lemma C2_witness :
  let w := run (loaded_trace true) initWorld in
  observe 0 repB (opts "default" true) w = JStr "data1"
  /\ observe 0 repB (opts "default" true) (run switch_trace w) = JStr "data1".
Proof.
  refine (proj1 (C2_retained_snapshot (run (loaded_trace true) initWorld) 0
                   (mkFiber (mkHook (JStr "data1") (JStr "data1") 1 repA [] true)
                            (Some [JRef 1]) (Some 0) true)
                   switch_trace repB (opts "default" true) _ _ _ _ _) _).
  - by exists (loaded_trace true).
  - reflexivity.
  - intros k c [= <-] [= <-]. reflexivity.
  - reflexivity.
  - reflexivity.
  - discriminate.
Defined.

(** ** Teardown by an absent source *)

Lemma active_absent_reruns (st : Store) (i k : nat) (f : Fiber) (r : Source)
    (o : UseSubscribeOptions) :
  fiber_ok st i f -> destroy f = Some k -> absent r = true ->
  effect_reruns f r o = true.
Proof.
  intros (_ & Hdeps & H3) Hd Hr. destruct (H3 k Hd) as (_ & Hab & _).
  unfold effect_reruns. rewrite Hdeps. simpl.
  destruct (prevRRef (hook f)); [done | done |]. by destruct r.
Qed.

Lemma teardown_lookup_stable (d : option nat) (cls : list Closure) (k : nat) (c : Closure) :
  cls !! k = Some c ->
  exists c', teardown_closures d cls !! k = Some c'
    /\ cl_inst c' = cl_inst c /\ currentGen c' = currentGen c
    /\ (isMounted c = false -> isMounted c' = false).
Proof.
  intros Hc. unfold teardown_closures. destruct d as [k0|]; [| by eauto 10].
  destruct (cls !! k0) as [c0|] eqn:H0; [| by eauto 10].
  destruct (decide (k0 = k)) as [-> | Hne].
  - exists (unmounted c0). rewrite list_lookup_insert_eq by (by eapply lookup_lt_Some).
    assert (c0 = c) as -> by congruence. by repeat split.
  - exists c. by rewrite list_lookup_insert_ne.
Qed.

(** A closure keeps its instance and its generation, and once unmounted it
    stays unmounted. *)
Lemma step_closure_stable (e : Event) (w : World) (k : nat) (c : Closure) :
  wf w -> closures w.2 !! k = Some c ->
  exists c', closures (step e w).2 !! k = Some c'
    /\ cl_inst c' = cl_inst c /\ currentGen c' = currentGen c
    /\ (isMounted c = false -> isMounted c' = false).
Proof.
  intros Hwf Hc. destruct e as [j r q o | k0 data | | j].
  - set (f0 := default initFiber (fibers w.2 !! j)).
    destruct (alive f0) eqn:Hal; [destruct (effect_reruns f0 r o) eqn:Hre |].
    2:{ rewrite render_skip; [by eauto 10 | by right]. }
    2:{ rewrite render_skip; [by eauto 10 | by left]. }
    destruct (render_rerun_wf j r q o w Hwf Hal Hre) as (h' & _ & _ & -> & _).
    destruct (teardown_lookup_stable (destroy f0) _ _ _ Hc) as (c' & Hc' & H).
    exists c'. split; [| done]. rewrite lookup_app_l; [done | by eapply lookup_lt_Some].
  - simpl step. rewrite onData_closures. by eauto 10.
  - rewrite tick_closures. by eauto 10.
  - simpl step. destruct (fibers w.2 !! j) as [fj|] eqn:Hj.
    2:{ unfold unmount. rewrite Hj. by eauto 10. }
    destruct (alive fj) eqn:Hal.
    2:{ unfold unmount. rewrite Hj, Hal. by eauto 10. }
    destruct (unmount_spec j w fj Hwf Hj Hal) as (_ & _ & ->).
    by apply teardown_lookup_stable.
Qed.

Lemma run_closure_stable (es : list Event) (w : World) (k : nat) (c : Closure) :
  wf w -> closures w.2 !! k = Some c ->
  exists c', closures (run es w).2 !! k = Some c'
    /\ cl_inst c' = cl_inst c /\ currentGen c' = currentGen c
    /\ (isMounted c = false -> isMounted c' = false).
Proof.
  revert w c. induction es as [|e es IH]; intros w c Hwf Hc; simpl; [by eauto 10 |].
  destruct (step_closure_stable e w k c Hwf Hc) as (c1 & Hc1 & Ei & Eg & Em).
  destruct (IH (step e w) c1 (wf_step e w Hwf) Hc1) as (c2 & Hc2 & Ei2 & Eg2 & Em2).
  exists c2. split; [done |]. split; [congruence |]. split; [congruence |]. auto.
Qed.

(** An unmounted closure whose generation is still the current one: its
    instance has no cleanup registered. *)
Lemma stale_current_no_cleanup (w : World) (k : nat) (c : Closure) (f : Fiber) :
  wf w -> closures w.2 !! k = Some c -> isMounted c = false ->
  fibers w.2 !! cl_inst c = Some f -> currentGen c = generationRef (hook f) ->
  destroy f = None.
Proof.
  intros [_ (Hf & _ & Hg)] Hc Hm Hi Hgen.
  destruct (destroy f) as [k'|] eqn:Hd; [| done]. exfalso.
  destruct (Hf _ f Hi) as (_ & _ & H3).
  destruct (H3 k' Hd) as (_ & _ & c' & Hc' & Hci' & Hm' & Hg').
  destruct (Nat.lt_trichotomy k k') as [Hlt | [-> | Hlt]].
  - pose proof (Hg k k' c c' Hc Hc' (eq_sym Hci') Hlt). lia.
  - congruence.
  - pose proof (Hg k' k c' c Hc' Hc Hci' Hlt). lia.
Qed.

(** C5. A render with an absent source tears the active subscription down
    (its closure is unmounted and unsubscribed) but the effect returns before
    it touches the generation counter, which still equals the generation the
    torn-down closure captured.  From then on, as long as the counter has not
    moved (no new subscription was set up), a Data event of that closure
    passes the generation check: it overwrites [prevSnapshotRef] with its
    value and queues a callback.  When the flush calls that callback the
    closure's [isMounted] is false, and the snapshot stays as it was; the
    same callback of a mounted closure would have set it. *)
Theorem C5_absent_source_keeps_generation (w : World) (i k : nat) (f : Fiber)
    (r : Source) (query : nat) (o : UseSubscribeOptions) (data : JsVal) :
  reachable w ->
  fibers w.2 !! i = Some f ->
  destroy f = Some k ->
  absent r = true ->
  let w1 := step (Render i r query o) w in
  generationRef (hook_of i w1) = generationRef (hook f)
  /\ (exists c, closures w1.2 !! k = Some c /\ cl_inst c = i
                /\ isMounted c = false /\ cl_unsubscribed c = true
                /\ currentGen c = generationRef (hook_of i w1))
  /\ length (closures w1.2) = length (closures w.2)
  /\ (forall es,
        generationRef (hook_of i (run es w1)) = generationRef (hook f) ->
        let w2 := run es w1 in
        let w3 := step (Data k data) w2 in
        let w4 := step Tick w3 in
        accepts k w2 = true
        /\ prevSnapshotRef (hook_of i w3) = data
        /\ callbacks w3.1 = callbacks w2.1 ++ [mkCallback k data]
        /\ snapshot (hook_of i w3) = snapshot (hook_of i w2)
        /\ snapshot (hook_of i w4) = snapshot (hook_of i w2))
  /\ (forall st c' f', closures st !! k = Some c' -> isMounted c' = true ->
        fibers st !! cl_inst c' = Some f' -> alive f' = true ->
        snapshot (hook (default initFiber
                          (fibers (apply_cb st (mkCallback k data)) !! cl_inst c'))) = data).
Proof.
  intros Hr Hi Hd Habs w1.
  pose proof (reachable_wf w Hr) as Hwf.
  pose proof Hwf as [_ (Hf & Hk & _)].
  pose proof (Hf i f Hi) as Hfok. pose proof Hfok as (_ & _ & H3).
  destruct (H3 k Hd) as (Hal & _ & c & Hc & Hci & Hm & Hg).
  assert (default initFiber (fibers w.2 !! i) = f) as Hf0 by (by rewrite Hi).
  destruct (render_rerun_wf i r query o w Hwf) as
    (h' & Hs1 & Hfib1 & Hcl1 & _ & _ & _ & Hsnap1 & Hprev1 & Hgen1).
  { by rewrite Hf0. }
  { rewrite Hf0. by eapply active_absent_reruns. }
  fold w1 in Hs1, Hfib1, Hcl1. rewrite Hf0 in *. rewrite Habs in *.
  assert (new_closures i r query o (generationRef h') = []) as Hnew by (by destruct r).
  rewrite Hnew, app_nil_r in Hcl1. unfold teardown_closures in Hcl1. rewrite Hd, Hc in Hcl1.
  assert (closures w1.2 !! k = Some (unmounted c)) as Hc1.
  { rewrite Hcl1. apply list_lookup_insert_eq. by eapply lookup_lt_Some. }
  set (f1 := mkFiber h' (Some (src_val r :: dependencies_of o)) None true) in *.
  assert (fibers w1.2 !! i = Some f1) as Hi1 by (by rewrite Hfib1, lookup_insert_eq).
  assert (hook_of i w1 = h') as Hh1 by (unfold hook_of; by rewrite Hi1).
  assert (wf w1) as Hwf1 by (by apply wf_step).
  split; [by rewrite Hh1, Hgen1 |]. split.
  { exists (unmounted c). rewrite Hh1, Hgen1. repeat split; try done; simpl; congruence. }
  split; [by rewrite Hcl1, length_insert |]. split.
  - intros es Hgen w2 w3 w4.
    assert (wf w2) as Hwf2 by (by apply wf_run).
    destruct (run_closure_stable es w1 k (unmounted c) Hwf1 Hc1)
      as (c2 & Hc2 & Ei2 & Eg2 & Em2).
    fold w2 in Hc2, Hgen. simpl in Ei2, Eg2. specialize (Em2 eq_refl).
    pose proof Hwf2 as [_ (_ & Hk2 & _)].
    destruct (Hk2 k c2 Hc2) as (f2 & Hi2 & _). rewrite Ei2, Hci in Hi2.
    rewrite (hook_of_lookup i w2 f2 Hi2) in Hgen.
    assert (currentGen c2 = generationRef (hook f2)) as Hcur by congruence.
    assert (accepts k w2 = true) as Hacc.
    { unfold accepts. rewrite Hc2, Ei2, Hci, Hi2. by apply bool_decide_eq_true_2. }
    assert (w3 = (schedule (mkCallback k data) w2.1,
                  write_prevSnapshotRef i data w2.2)) as Hw3.
    { unfold w3. simpl. unfold onData. rewrite Hc2, Ei2, Hci, Hi2.
      by rewrite bool_decide_eq_true_2. }
    assert (fibers w3.2 !! i = Some (with_hook (set_prevSnapshotRef data) f2)) as Hi3.
    { rewrite Hw3. simpl. rewrite lookup_alter_eq. by rewrite Hi2. }
    assert (wf w3) as Hwf3 by (by apply wf_step).
    assert (closures w3.2 !! k = Some c2) as Hc3 by (by rewrite Hw3).
    assert (fibers w4.2 !! i = fibers w3.2 !! i) as Hi4.
    { apply tick_lookup_quiet. intros cb c0 _.
      apply (no_cleanup_no_mounted w3 i _ Hwf3 Hi3).
      eapply (stale_current_no_cleanup w3 k c2); try done; by rewrite Ei2, Hci. }
    split; [done |]. split; [by rewrite (hook_of_lookup i w3 _ Hi3) |].
    split; [rewrite Hw3; apply schedule_callbacks |].
    split; [by rewrite (hook_of_lookup i w3 _ Hi3), (hook_of_lookup i w2 _ Hi2) |].
    unfold hook_of. by rewrite Hi4, Hi3, Hi2.
  - intros st c' f' Hc' Hm' Hf' Hal'. rewrite apply_cb_lookup. simpl.
    rewrite Hc', Hm'. simpl. rewrite bool_decide_eq_true_2 by done.
    rewrite Hf'. simpl. by rewrite Hal'.
Qed.

Lemma C5_witness :
  let w := run (loaded_trace true) initWorld in
  let w1 := step (Render 0 SrcNull 0 (opts "default" true)) w in
  let w2 := step (Data 0 (JStr "stale")) w1 in
  let w3 := step Tick w2 in
  generationRef (hook_of 0 w1) = 1%N
  /\ prevSnapshotRef (hook_of 0 w1) = JUndefined
  /\ accepts 0 w1 = true
  /\ prevSnapshotRef (hook_of 0 w2) = JStr "stale"
  /\ snapshot (hook_of 0 w3) = JStr "data1"
  /\ observe 0 SrcNull (opts "default" true) w3 = JStr "data1".
Proof.
  pose proof (C5_absent_source_keeps_generation
                (run (loaded_trace true) initWorld) 0 0
                (mkFiber (mkHook (JStr "data1") (JStr "data1") 1 repA [] true)
                         (Some [JRef 1]) (Some 0) true)
                SrcNull 0 (opts "default" true) (JStr "stale")
                (ex_intro _ (loaded_trace true) eq_refl) eq_refl eq_refl eq_refl) as H.
  cbv zeta in H. destruct H as (H1 & _ & _ & H4 & _).
  destruct (H4 [] eq_refl) as (Ha & Hb & _ & _ & He).
  split; [exact H1 |]. split; [reflexivity |]. split; [exact Ha |]. split; [exact Hb |].
  split; [exact (eq_trans He eq_refl) | reflexivity].
Defined.

(** ** Absent source *)

Lemma torn_down_nokeep (i : nat) (w : World) :
  wf w -> nokeep_inv i w ->
  let f0 := default initFiber (fibers w.2 !! i) in
  alive f0 = true -> snapshot (hook (torn_down f0 w.2)) = JUndefined.
Proof.
  intros [_ (Hf & _)] [Hcl Hsn] f0 Hal. unfold torn_down, registered_keep.
  destruct (destroy f0) as [k|] eqn:Hd.
  - unfold f0 in *. destruct (fibers w.2 !! i) as [f|] eqn:Hi; [| done]. simpl in *.
    destruct (Hf i f Hi) as (_ & _ & H3).
    destruct (H3 k Hd) as (_ & _ & c & Hc & Hci & _). rewrite Hc. simpl.
    rewrite (Hcl k c Hc Hci). unfold cleanup_fiber. simpl. by rewrite Hal.
  - unfold f0 in *. destruct (fibers w.2 !! i) as [f|] eqn:Hi; [| done]. simpl in *.
    by apply Hsn.
Qed.

Lemma nokeep_step (i : nat) (e : Event) (w : World) :
  wf w -> nokeep_inv i w -> renders_with i false e = true -> nokeep_inv i (step e w).
Proof.
  intros Hwf Hinv Hrw. pose proof Hinv as [Hcl Hsn]. split.
  - intros k c' Hc' Hci.
    destruct (step_closures e w k c' Hwf Hc')
      as [(c & Hc & Ei & Ek) | (j & r & q & o & -> & Ej & Ek & _)].
    + rewrite Ek. apply (Hcl k c Hc). congruence.
    + simpl in Hrw. rewrite decide_True in Hrw by congruence.
      apply bool_decide_eq_true in Hrw. congruence.
  - destruct e as [j r q o | k data | | j].
    + destruct (decide (j = i)) as [-> | Hne];
        [| by rewrite step_other_instance].
      set (f0 := default initFiber (fibers w.2 !! i)).
      destruct (alive f0) eqn:Hal; [destruct (effect_reruns f0 r o) eqn:Hre |].
      2:{ rewrite render_skip; [done | by right]. }
      2:{ rewrite render_skip; [done | by left]. }
      destruct (render_rerun_wf i r q o w Hwf Hal Hre) as
        (h' & _ & -> & _ & _ & _ & _ & Hsnap & _).
      rewrite lookup_insert_eq. intros f' [= <-] _. simpl. rewrite Hsnap.
      by apply (torn_down_nokeep i w).
    + simpl step. intros f'. rewrite onData_lookup.
      destruct (closures w.2 !! k) as [c|]; [| apply Hsn].
      destruct (accepts k w && bool_decide (cl_inst c = i)); [| apply Hsn].
      destruct (fibers w.2 !! i) as [f|] eqn:Hi; simpl; [| done].
      intros [= <-]. simpl. by apply Hsn.
    + intros f' Hi' Hd'.
      destruct (same_ctrl_lookup w.2 (step Tick w).2 i f') as (f & Hi & E).
      { simpl. rewrite run_microtask_hook. destruct (microtasks w.1); [apply same_ctrl_refl |].
        apply apply_all_ctrl. }
      { done. }
      ctrl_fields E.
      rewrite tick_lookup_quiet in Hi'.
      * assert (f' = f) as -> by congruence. apply Hsn; [done | congruence].
      * intros cb c _. eapply (no_cleanup_no_mounted w i f); [done | done | congruence].
    + destruct (decide (j = i)) as [-> | Hne];
        [| by rewrite step_other_instance].
      simpl step. destruct (fibers w.2 !! i) as [f|] eqn:Hi.
      2:{ unfold unmount. rewrite Hi. by rewrite Hi. }
      destruct (alive f) eqn:Hal.
      2:{ unfold unmount. rewrite Hi, Hal. rewrite Hi. intros f' [= <-]. by apply Hsn. }
      destruct (unmount_spec i w f Hwf Hi Hal) as (_ & -> & _).
      rewrite lookup_insert_eq. intros f' [= <-] _. simpl.
      pose proof (torn_down_nokeep i w Hwf Hinv) as H. rewrite Hi in H. by apply H.
Qed.

Lemma nokeep_run (i : nat) (es : list Event) (w : World) :
  wf w -> nokeep_inv i w -> forallb (renders_with i false) es = true ->
  nokeep_inv i (run es w).
Proof.
  revert w. induction es as [|e es IH]; intros w Hwf Hinv Hall; simpl; [done |].
  simpl in Hall. apply andb_true_iff in Hall as [He Hall].
  apply IH; [by apply wf_step | by apply nokeep_step | done].
Qed.

Lemma nokeep_init (i : nat) : nokeep_inv i initWorld.
Proof.
  split.
  - intros k c H. done.
  - intros f H. simpl in H. by rewrite lookup_empty in H.
Qed.

Lemma absent_src_val (r r' : Source) :
  absent r = true -> Object_is (src_val r) (src_val r') = true -> absent r' = true.
Proof.
  intros Hr H. apply Object_is_true in H. by destruct r, r'.
Qed.

(** After a render whose source is absent the instance has no cleanup
    registered and no closure was added. *)
Lemma absent_render_no_subscription (w : World) (i : nat) (r : Source) (query : nat)
    (o : UseSubscribeOptions) :
  wf w -> absent r = true ->
  length (closures (step (Render i r query o) w).2) = length (closures w.2)
  /\ forall f', fibers (step (Render i r query o) w).2 !! i = Some f' -> destroy f' = None.
Proof.
  intros Hwf Hr. pose proof Hwf as [_ (Hf & _)].
  set (f0 := default initFiber (fibers w.2 !! i)).
  assert (effect_reruns f0 r o = false \/ alive f0 = false ->
          forall f', fibers w.2 !! i = Some f' -> destroy f' = None) as Hskip.
  { intros Hno f' Hi. unfold f0 in Hno. rewrite Hi in Hno. simpl in Hno.
    destruct (destroy f') as [k|] eqn:Hd; [| done]. exfalso.
    destruct (Hf i f' Hi) as (_ & Hdeps & H3).
    destruct (H3 k Hd) as (Hal & Hab & _).
    destruct Hno as [Hno | Hno]; [| congruence].
    unfold effect_reruns in Hno. rewrite Hdeps in Hno. simpl in Hno.
    apply negb_false_iff, andb_true_iff in Hno as [Hno _].
    apply (absent_src_val r) in Hno; [congruence | done]. }
  destruct (alive f0) eqn:Hal; [destruct (effect_reruns f0 r o) eqn:Hre |].
  - destruct (render_rerun_wf i r query o w Hwf Hal Hre) as (h' & _ & -> & -> & _).
    rewrite Hr. split.
    + rewrite length_app, teardown_length. destruct r; simpl; try done; lia.
    + rewrite lookup_insert_eq. by intros f' [= <-].
  - rewrite render_skip by (by right). split; [done |]. apply Hskip. by left.
  - rewrite render_skip by (by left). split; [done |]. apply Hskip. by right.
Qed.

(** Queued callbacks belong to closures that exist. *)
Lemma queue_closures_exist (w : World) :
  reachable w -> forall cb, cb ∈ callbacks w.1 -> is_Some (closures w.2 !! cb_closure cb).
Proof.
  intros [es ->] cb Hcb.
  pose proof (cells_run 0 es [] initWorld wf_init (cells_init 0)) as [_ Hcells].
  destruct (Hcells cb Hcb) as (c & Hc & _). by exists c.
Qed.

(** The snapshot of an instance that renders with retention stays, as long
    as no delivered value is applied to it. *)
Lemma retained_run (i : nat) (es : list Event) (w : World) (f : Fiber) :
  wf w -> fibers w.2 !! i = Some f -> cleanup_keeps true f w.2 ->
  window (fun e w => renders_with i true e && negb (applies_to i e w)) es w = true ->
  exists f', fibers (run es w).2 !! i = Some f' /\ snapshot (hook f') = snapshot (hook f).
Proof.
  revert w f. induction es as [|e es IH]; intros w f Hwf Hi Hkeep Hwin; [by eauto |].
  simpl in Hwin. apply andb_true_iff in Hwin as [He Hwin].
  apply andb_true_iff in He as [Hrw Hap]. apply negb_true_iff in Hap.
  destruct (window_step i e w f Hwf Hi Hkeep Hrw Hap) as (f1 & Hi1 & Hs1 & Hk1 & _).
  destruct (IH (step e w) f1 (wf_step e w Hwf) Hi1 Hk1 Hwin) as (f' & Hi' & Hs').
  exists f'. split; [done | congruence].
Qed.

(** An instance whose cells are both empty and whose queued callbacks all
    belong to unmounted closures: one event that delivers nothing to it. *)
Lemma emptied_step (i : nat) (e : Event) (w : World) (f : Fiber) :
  reachable w -> fibers w.2 !! i = Some f ->
  snapshot (hook f) = JUndefined -> prevSnapshotRef (hook f) = JUndefined ->
  (forall cb c, cb ∈ callbacks w.1 -> closures w.2 !! cb_closure cb = Some c ->
                cl_inst c = i -> isMounted c = false) ->
  delivers_to i e w = false ->
  exists f', fibers (step e w).2 !! i = Some f'
    /\ snapshot (hook f') = JUndefined /\ prevSnapshotRef (hook f') = JUndefined
    /\ (forall cb c, cb ∈ callbacks (step e w).1 ->
          closures (step e w).2 !! cb_closure cb = Some c ->
          cl_inst c = i -> isMounted c = false).
Proof.
  intros Hr Hi Hs Hp Hq Hdel. pose proof (reachable_wf w Hr) as Hwf.
  (* the callbacks already queued stay with unmounted closures *)
  assert (forall cb c', cb ∈ callbacks w.1 ->
            closures (step e w).2 !! cb_closure cb = Some c' ->
            cl_inst c' = i -> isMounted c' = false) as Hold.
  { intros cb c' Hcb Hc' Hci.
    destruct (queue_closures_exist w Hr cb Hcb) as [c Hc].
    destruct (step_closure_stable e w _ c Hwf Hc) as (c'' & Hc'' & Ei & _ & Em).
    assert (c'' = c') as -> by congruence. apply Em. apply (Hq cb c Hcb Hc). congruence. }
  assert (forall h, snapshot (hook f) = JUndefined -> prevSnapshotRef (hook f) = JUndefined ->
            snapshot (hook (torn_down f h)) = JUndefined
            /\ prevSnapshotRef (hook (torn_down f h)) = JUndefined) as Htd.
  { intros h Hs0 Hp0. unfold torn_down. destruct (registered_keep f h) as [b|]; [| done].
    unfold cleanup_fiber. destruct b; simpl; [done |]. by destruct (alive f). }
  destruct e as [j r q o | k data | | j].
  - assert ((step (Render j r q o) w).1 = w.1) as Hsched.
    { simpl. by destruct (alive _). }
    destruct (decide (j = i)) as [-> | Hne].
    + set (f0 := default initFiber (fibers w.2 !! i)).
      assert (f0 = f) as Hf0 by (unfold f0; by rewrite Hi).
      destruct (alive f0) eqn:Hal; [destruct (effect_reruns f0 r o) eqn:Hre |].
      2:{ rewrite render_skip by (by right). by eauto 10. }
      2:{ rewrite render_skip by (by left). by eauto 10. }
      destruct (render_rerun_wf i r q o w Hwf Hal Hre) as
        (h' & _ & Hfib & _ & _ & _ & _ & Hsn & Hpv & _).
      fold f0 in Hsn, Hpv. rewrite Hf0 in *.
      destruct (Htd w.2 Hs Hp) as [Ht1 Ht2].
      set (w1 := step (Render i r q o) w) in *.
      eexists. rewrite Hfib, lookup_insert_eq. split; [done |]. cbn [hook].
      split; [congruence |]. split.
      * rewrite Hpv, Hs. simpl. by rewrite !andb_false_r.
      * intros cb c. rewrite Hsched. apply Hold.
    + exists f. rewrite step_other_instance by done. split; [done |]. split; [done |].
      split; [done |]. intros cb c. rewrite Hsched. apply Hold.
  - change (step (Data k data) w) with (onData k data w) in *.
    exists f. split; [| split; [done |]; split; [done |]].
    + rewrite onData_lookup. simpl in Hdel.
      destruct (closures w.2 !! k) as [c|]; [| done]. by rewrite Hdel, andb_false_r.
    + intros cb c Hcb Hc Hci. rewrite onData_sched in Hcb.
      destruct (accepts k w); [| by apply (Hold cb c)].
      rewrite schedule_callbacks in Hcb. apply elem_of_app in Hcb as [Hcb | Hcb].
      * by apply (Hold cb c).
      * apply list_elem_of_singleton in Hcb as ->. rewrite onData_closures in Hc.
        simpl in Hc, Hdel. rewrite Hc in Hdel. apply bool_decide_eq_false in Hdel. done.
  - exists f. split; [| split; [done |]; split; [done |]].
    + rewrite tick_lookup_quiet; [done |]. intros cb c Hcb Hc Hm Hci.
      specialize (Hq cb c Hcb Hc Hci). congruence.
    + intros cb c Hcb. assert (cb ∈ callbacks w.1) as Hcb0; [| by apply Hold].
      simpl step in Hcb. rewrite run_microtask_hook in Hcb.
      destruct (microtasks w.1); [done | by apply elem_of_nil in Hcb].
  - assert ((step (Unmount j) w).1 = w.1) as Hsched.
    { simpl. unfold unmount. destruct (fibers w.2 !! j) as [fj|]; [| done].
      by destruct (alive fj). }
    destruct (decide (j = i)) as [-> | Hne].
    + destruct (alive f) eqn:Hal.
      * destruct (unmount_spec i w f Hwf Hi Hal) as (_ & Hfib & _).
        destruct (Htd w.2 Hs Hp) as [Ht1 Ht2].
        set (w1 := step (Unmount i) w) in *.
        eexists. unfold w1 at 1. simpl step. rewrite Hfib, lookup_insert_eq.
        split; [done |]. cbn [hook]. split; [done |]. split; [done |].
        intros cb c. rewrite Hsched. apply Hold.
      * exists f. simpl step. unfold unmount. rewrite Hi, Hal. by repeat split.
    + exists f. rewrite step_other_instance by done. split; [done |]. split; [done |].
      split; [done |]. intros cb c. rewrite Hsched. apply Hold.
Qed.

Lemma emptied_run (i : nat) (es : list Event) (w : World) (f : Fiber) :
  reachable w -> fibers w.2 !! i = Some f ->
  snapshot (hook f) = JUndefined -> prevSnapshotRef (hook f) = JUndefined ->
  (forall cb c, cb ∈ callbacks w.1 -> closures w.2 !! cb_closure cb = Some c ->
                cl_inst c = i -> isMounted c = false) ->
  window (fun e w => negb (delivers_to i e w)) es w = true ->
  exists f', fibers (run es w).2 !! i = Some f'
    /\ snapshot (hook f') = JUndefined /\ prevSnapshotRef (hook f') = JUndefined.
Proof.
  revert w f. induction es as [|e es IH]; intros w f Hr Hi Hs Hp Hq Hwin; [by eauto |].
  simpl in Hwin. apply andb_true_iff in Hwin as [He Hwin]. apply negb_true_iff in He.
  destruct (emptied_step i e w f Hr Hi Hs Hp Hq He) as (f1 & Hi1 & Hs1 & Hp1 & Hq1).
  exact (IH (step e w) f1 (reachable_step e w Hr) Hi1 Hs1 Hp1 Hq1 Hwin).
Qed.

(** A render with an absent source while a live subscription is pending
    returns what the cache holds, and the commit then drops it. *)
Lemma C10_counterexample : ~ absent_source_as_stated.
Proof.
  intros H.
  destruct (H pending_lost_trace 0 SrcNull 0 (opts "default" true) eq_refl eq_refl eq_refl)
    as [_ Hin].
  - exists (JStr "v"). split; [apply list_elem_of_here | done].
  - apply elem_of_cons in Hin as [Hin | Hin]; [discriminate Hin |].
    by apply elem_of_nil in Hin.
Qed.

(** C10 (as amended). A call of the hook with an absent source returns a
    value (the hook is a total function of the heap: nothing in it throws),
    adds no subscription and leaves none registered.  The value is the
    default, or a value other than [undefined] that a subscription of this
    instance delivered earlier; for an instance that passes the same
    [keepPreviousData] on every render, with false it is the default.  With
    [keepPreviousData] true the value is fixed by the two cells.  When the
    snapshot holds a real value the hook returns it, on this render and
    (when what the commit tears down was set up with retention) on every
    later render with retention until a delivered value is applied.  When
    the snapshot is [undefined] the hook returns the cache if that holds a
    real value, else the default; and if a subscription was live, its
    cleanup empties the cache, so a value that was received but not yet
    applied is dropped: every later render returns the default until the
    next Data event of the instance.  An instance that renders for the first
    time gets the default. *)
Theorem C10_absent_source (es : list Event) (i : nat) (r : Source) (query : nat)
    (o : UseSubscribeOptions) :
  absent r = true ->
  let w := run es initWorld in
  let v := (useSubscribe i r query o w).1 in
  let w' := (useSubscribe i r query o w).2 in
  length (closures w'.2) = length (closures w.2)
  /\ (forall f', fibers w'.2 !! i = Some f' -> destroy f' = None)
  /\ (v = def_of o
      \/ (v <> JUndefined /\ v ∈ delivered i es initWorld
          /\ (v = snapshot (hook_of i w)
              \/ (v = prevSnapshotRef (hook_of i w) /\ keepPreviousData_of o = true))))
  /\ (forallb (renders_with i (keepPreviousData_of o)) es = true ->
      v = def_of o
      \/ (keepPreviousData_of o = true /\ v <> JUndefined
          /\ v ∈ delivered i es initWorld))
  /\ (forall f, fibers w.2 !! i = Some f -> keepPreviousData_of o = true ->
        snapshot (hook f) <> JUndefined ->
        v = snapshot (hook f)
        /\ (cleanup_keeps true f w.2 ->
            forall es' r' o',
              window (fun e w => renders_with i true e && negb (applies_to i e w)) es' w'
              = true ->
              keepPreviousData_of o' = true ->
              observe i r' o' (run es' w') = snapshot (hook f)))
  /\ (forall f, fibers w.2 !! i = Some f -> keepPreviousData_of o = true ->
        snapshot (hook f) = JUndefined ->
        v = (if is_undefined (prevSnapshotRef (hook f)) then def_of o
             else prevSnapshotRef (hook f))
        /\ (is_Some (destroy f) ->
            forall es' r' o',
              window (fun e w => negb (delivers_to i e w)) es' w' = true ->
              observe i r' o' (run es' w') = def_of o'))
  /\ (fibers w.2 !! i = None -> v = def_of o).
Proof.
  intros Hr w v w'.
  assert (wf w) as Hwf by apply wf_run, wf_init.
  assert (reachable w) as Hreach by (by exists es).
  destruct (absent_render_no_subscription w i r query o Hwf Hr) as [H1 H2].
  split; [exact H1 |]. split; [exact H2 |].
  assert (v = def_of o \/ (v <> JUndefined /\ v ∈ delivered i es initWorld)) as Hprov.
  { unfold v. rewrite useSubscribe_fst. apply value_provenance. }
  split.
  { destruct Hprov as [H | [Hne Hin]]; [by left |].
    unfold v in *. rewrite useSubscribe_fst in *.
    destruct (value_cases (hook_of i w) r o) as [H | [_ [H | (H & _ & Hk)]]];
      [by left | right; by repeat split; [| | left] | right].
    split; [done |]. split; [done |]. by right. }
  split.
  { intros Hall. destruct (keepPreviousData_of o) eqn:Hk.
    - destruct Hprov as [H | [Hne Hin]]; [by left | right; by repeat split].
    - left. unfold v. rewrite useSubscribe_fst. unfold useSubscribe_value. rewrite Hk. simpl.
      rewrite andb_true_r.
      destruct (hasTransitioned (hook_of i w) r (dependencies_of o)) eqn:Ht; [done |].
      assert (snapshot (hook_of i w) = JUndefined) as ->; [| done].
      pose proof (nokeep_run i es initWorld wf_init (nokeep_init i) Hall) as [_ Hsn].
      fold w in Hsn. unfold hook_of in *.
      destruct (fibers w.2 !! i) as [f|] eqn:Hi; [| done]. simpl in *.
      pose proof Hwf as [_ (Hf & _)]. destruct (Hf i f Hi) as (Hrun & _ & H3).
      apply Hsn; [done |]. destruct (destroy f) as [k|] eqn:Hd; [| done]. exfalso.
      destruct (H3 k eq_refl) as (_ & Hab & _).
      unfold hasTransitioned in Ht. rewrite Hrun, andb_true_r in Ht.
      apply orb_false_iff in Ht as [Ht _].
      apply negb_false_iff, bool_decide_eq_true in Ht. congruence. }
  assert (w' = step (Render i r query o) w) as Hw' by done.
  split; [| split].
  - (* the snapshot holds a real value *)
    intros f Hi Hk Hs. split.
    { unfold v. rewrite useSubscribe_fst, (hook_of_lookup i w f Hi).
      by apply value_keep_snapshot. }
    intros Hkeep es' r' o' Hwin Hk'.
    destruct (retained_run i (Render i r query o :: es') w f Hwf Hi Hkeep)
      as (f' & Hi' & Hs').
    { cbn [window renders_with applies_to]. rewrite decide_True by done.
      rewrite Hk, bool_decide_eq_true_2 by done. exact Hwin. }
    change (run (Render i r query o :: es') w) with (run es' w') in Hi'.
    rewrite observe_value, (hook_of_lookup i _ f' Hi').
    rewrite value_keep_snapshot; [done | by rewrite Hs' | done].
  - (* the snapshot is empty *)
    intros f Hi Hk Hs. split.
    { unfold v. rewrite useSubscribe_fst, (hook_of_lookup i w f Hi).
      unfold useSubscribe_value. rewrite Hs, Hk. simpl. rewrite andb_false_r.
      by destruct (is_undefined (prevSnapshotRef (hook f))). }
    intros [k Hd] es' r' o' Hwin.
    pose proof Hwf as [_ (Hf & _)]. pose proof (Hf i f Hi) as Hfok.
    destruct Hfok as (_ & _ & H3). destruct (H3 k Hd) as (Hal & _ & c & Hc & _).
    assert (default initFiber (fibers w.2 !! i) = f) as Hf0 by (by rewrite Hi).
    destruct (render_rerun_wf i r query o w Hwf) as
      (h' & _ & Hfib & _ & _ & _ & _ & Hsn & Hpv & _); rewrite ?Hf0; try done.
    { by apply (active_absent_reruns w.2 i k f r o (Hf i f Hi)). }
    rewrite <- Hw' in Hfib. rewrite Hf0, Hr in *. simpl in Hpv.
    assert (torn_down f w.2 = cleanup_fiber (cl_keep c) f) as Htd.
    { unfold torn_down, registered_keep. by rewrite Hd, Hc. }
    rewrite Htd in Hsn, Hpv.
    assert (fibers w'.2 !! i
            = Some (mkFiber h' (Some (src_val r :: dependencies_of o)) None true)) as Hi'
      by (by rewrite Hfib, lookup_insert_eq).
    assert (reachable w') as Hreach' by (rewrite Hw'; by apply reachable_step).
    destruct (emptied_run i es' w' _ Hreach' Hi') as (f' & Hf' & Hs' & Hp'); [| | | done |].
    + cbn [hook]. rewrite Hsn. unfold cleanup_fiber.
      destruct (cl_keep c); simpl; [done |]. by destruct (alive f).
    + cbn [hook]. rewrite Hpv. unfold cleanup_fiber.
      destruct (cl_keep c); simpl; [done |]. by destruct (alive f).
    + intros cb c0 _ Hc0 Hci. destruct (isMounted c0) eqn:Hm; [| done]. exfalso.
      by apply (no_cleanup_no_mounted w' i _ (reachable_wf w' Hreach') Hi' eq_refl cb c0).
    + rewrite observe_value, (hook_of_lookup i _ f' Hf'). by apply value_empty.
  - (* the first render *)
    intros Hi. unfold v. rewrite useSubscribe_fst. unfold hook_of. rewrite Hi.
    by apply value_empty.
Qed.

Lemma C10_witness :
  (useSubscribe 0 SrcNull 0 (opts "a" true) initWorld).1 = JStr "a"
  /\ closures (useSubscribe 0 SrcNull 0 (opts "a" true) initWorld).2.2 = []
  /\ (let w := run (loaded_trace true) initWorld in
      let v := (useSubscribe 0 SrcNull 0 (opts "default" true) w).1 in
      let w' := (useSubscribe 0 SrcNull 0 (opts "default" true) w).2 in
      v = JStr "data1"
      /\ length (closures w'.2) = length (closures w.2)
      /\ (forall f', fibers w'.2 !! 0 = Some f' -> destroy f' = None)
      /\ v ∈ delivered 0 (loaded_trace true) initWorld
      /\ observe 0 SrcUndefined (opts "other" true)
           (run [Data 0 (JStr "late"); Tick] w') = JStr "data1")
  /\ (let w := run [Render 0 repA 0 (opts "default" true); Data 0 (JStr "v")] initWorld in
      let v := (useSubscribe 0 SrcNull 0 (opts "default" true) w).1 in
      let w' := (useSubscribe 0 SrcNull 0 (opts "default" true) w).2 in
      v = JStr "v"
      /\ observe 0 SrcNull (opts "default" true) (run [Tick] w') = JStr "default").
Proof.
  split; [exact (proj2 (proj2 (proj2 (proj2 (proj2 (proj2
            (C10_absent_source [] 0 SrcNull 0 (opts "a" true) eq_refl)))))) eq_refl) |].
  split; [reflexivity |]. split.
  - destruct (C10_absent_source (loaded_trace true) 0 SrcNull 0 (opts "default" true) eq_refl)
      as (H1 & H2 & _ & H4 & H5 & _).
    destruct (H5 (mkFiber (mkHook (JStr "data1") (JStr "data1") 1 repA [] true)
                          (Some [JRef 1]) (Some 0) true)
                 eq_refl eq_refl ltac:(discriminate)) as [Hv Hlater].
    split; [exact Hv |]. split; [exact H1 |]. split; [exact H2 |]. split.
    + destruct (H4 eq_refl) as [H | (_ & _ & H)]; [discriminate H | exact H].
    + apply (Hlater ltac:(intros k c [= <-] [= <-]; reflexivity)
                    [Data 0 (JStr "late"); Tick] SrcUndefined (opts "other" true));
        reflexivity.
  - destruct (C10_absent_source [Render 0 repA 0 (opts "default" true); Data 0 (JStr "v")]
                0 SrcNull 0 (opts "default" true) eq_refl) as (_ & _ & _ & _ & _ & H6 & _).
    destruct (H6 (mkFiber (mkHook JUndefined (JStr "v") 1 repA [] true)
                          (Some [JRef 1]) (Some 0) true)
                 eq_refl eq_refl eq_refl) as [Hv Hlater].
    split; [exact Hv |].
    exact (Hlater (ex_intro _ 0 eq_refl) [Tick] SrcNull (opts "default" true) eq_refl).
Defined.

(** * More of the lifecycle *)

(** ** The generation counter counts the subscriptions (lines 279-283) *)

Lemma teardown_insts (d : option nat) (cls : list Closure) :
  cl_inst <$> teardown_closures d cls = cl_inst <$> cls.
Proof.
  unfold teardown_closures. destruct d as [k|]; [| done].
  destruct (cls !! k) as [c|] eqn:Hc; [| done].
  rewrite list_fmap_insert. simpl. apply list_insert_id.
  by rewrite list_lookup_fmap, Hc.
Qed.

Lemma same_ctrl_generation (st st' : Store) (i : nat) :
  same_ctrl st st' ->
  generationRef (hook (default initFiber (fibers st' !! i)))
  = generationRef (hook (default initFiber (fibers st !! i))).
Proof.
  intros H. specialize (H i).
  destruct (fibers st' !! i) as [f'|], (fibers st !! i) as [f|]; simpl in *; try done.
  assert (ctrl f' = ctrl f) as E by congruence. ctrl_fields E. done.
Qed.

(** One event: the counter and the number of subscriptions of an instance
    move together, by one when the instance subscribes, not at all otherwise. *)
Lemma subscription_step (i : nat) (e : Event) (w : World) :
  wf w ->
  subscriptions_of i (step e w).2
  = subscriptions_of i w.2 + (if subscribes i e w then 1 else 0)
  /\ generationRef (hook_of i (step e w))
     = (generationRef (hook_of i w) + (if subscribes i e w then 1 else 0))%N.
Proof.
  intros Hwf. unfold subscriptions_of, hook_of.
  destruct e as [j r q o | k data | | j].
  - simpl subscribes. set (f0 := default initFiber (fibers w.2 !! j)).
    destruct (alive f0) eqn:Hal; [destruct (effect_reruns f0 r o) eqn:Hre |].
    2:{ rewrite render_skip by (by right). rewrite !andb_false_r. simpl.
        split; [lia | by rewrite N.add_0_r]. }
    2:{ rewrite render_skip by (by left). rewrite !andb_false_r. simpl.
        split; [lia | by rewrite N.add_0_r]. }
    destruct (render_rerun_wf j r q o w Hwf Hal Hre) as
      (h' & _ & -> & -> & _ & _ & _ & _ & _ & Hgen).
    fold f0 in Hgen. rewrite !andb_true_r. split.
    + rewrite fmap_app, filter_app, length_app, teardown_insts. f_equal.
      destruct r as [| |a]; simpl; rewrite ?andb_false_r; try done.
      rewrite andb_true_r. rewrite filter_cons.
      case_decide; case_bool_decide; try done; congruence.
    + destruct (decide (j = i)) as [-> | Hne].
      * rewrite lookup_insert_eq. simpl. rewrite Hgen, bool_decide_eq_true_2 by done.
        fold f0. destruct (absent r); simpl; [by rewrite N.add_0_r | done].
      * rewrite lookup_insert_ne by done. rewrite bool_decide_eq_false_2 by done.
        simpl. by rewrite N.add_0_r.
  - simpl step. rewrite onData_closures. simpl. split; [lia |]. rewrite N.add_0_r.
    rewrite onData_lookup. destruct (closures w.2 !! k) as [c|]; [| done].
    destruct (accepts k w && bool_decide (cl_inst c = i)); [| done].
    by destruct (fibers w.2 !! i).
  - rewrite tick_closures. simpl subscribes. split; [lia |]. rewrite N.add_0_r.
    apply same_ctrl_generation. simpl. rewrite run_microtask_hook.
    destruct (microtasks w.1); [apply same_ctrl_refl | apply apply_all_ctrl].
  - simpl subscribes. simpl step. rewrite N.add_0_r, Nat.add_0_r.
    destruct (fibers w.2 !! j) as [fj|] eqn:Hj.
    2:{ unfold unmount. by rewrite Hj. }
    destruct (alive fj) eqn:Hal.
    2:{ unfold unmount. by rewrite Hj, Hal. }
    destruct (unmount_spec j w fj Hwf Hj Hal) as (_ & -> & ->).
    rewrite teardown_insts. split; [done |].
    destruct (decide (j = i)) as [-> | Hne].
    + rewrite lookup_insert_eq, Hj. simpl.
      pose proof (torn_down_ctrl fj w.2) as E. ctrl_fields E. done.
    + by rewrite lookup_insert_ne.
Qed.

Lemma generation_counts_run (i : nat) (es : list Event) (w : World) :
  wf w ->
  generationRef (hook_of i w) = N.of_nat (subscriptions_of i w.2) ->
  generationRef (hook_of i (run es w)) = N.of_nat (subscriptions_of i (run es w).2)
  /\ (generationRef (hook_of i w) <= generationRef (hook_of i (run es w)))%N.
Proof.
  revert w. induction es as [|e es IH]; intros w Hwf Hw; simpl; [split; [done | lia] |].
  destruct (subscription_step i e w Hwf) as [Hs Hg].
  destruct (IH (step e w) (wf_step e w Hwf)) as [H1 H2].
  { rewrite Hg, Hs, Hw. destruct (subscribes i e w); lia. }
  split; [done |]. rewrite Hg in H2. lia.
Qed.

(** X1. On every heap the events can produce, the generation counter of an
    instance equals the number of subscriptions the instance has created so
    far (it starts at 0 and [++generationRef.current] runs exactly once per
    [r.subscribe]); whatever happens next it never decreases. *)
Theorem X1_generation_counts_subscriptions (w : World) (i : nat) (es : list Event) :
  reachable w ->
  generationRef (hook_of i w) = N.of_nat (subscriptions_of i w.2)
  /\ (generationRef (hook_of i w) <= generationRef (hook_of i (run es w)))%N.
Proof.
  intros [es0 ->]. destruct (generation_counts_run i es0 initWorld wf_init) as [H1 _]; [done |].
  split; [done |].
  by destruct (generation_counts_run i es (run es0 initWorld) (wf_run es0 _ wf_init) H1).
Qed.

Lemma X1_witness :
  let w := run test_multiple_transitions initWorld in
  generationRef (hook_of 0 w) = 4%N
  /\ (4 <= generationRef (hook_of 0 (run test_keep_true w)))%N.
Proof.
  destruct (X1_generation_counts_subscriptions (run test_multiple_transitions initWorld) 0
              test_keep_true (ex_intro _ test_multiple_transitions eq_refl)) as [H1 H2].
  split; [exact H1 |]. exact (N.le_trans _ _ _ (N.eq_le_incl _ _ (eq_sym H1)) H2).
Defined.

(** ** One live subscription per instance (lines 281-283 and 308-310) *)

Lemma teardown_lookup_shape (d : option nat) (cls : list Closure) (k : nat) (c' : Closure) :
  teardown_closures d cls !! k = Some c' ->
  exists c, cls !! k = Some c /\ (c' = c \/ (c' = unmounted c /\ d = Some k)).
Proof.
  unfold teardown_closures. destruct d as [k0|]; [| by eauto].
  destruct (cls !! k0) as [c0|] eqn:H0; [| by eauto].
  rewrite list_lookup_insert_Some. intros [(-> & <- & Hlt) | (Hne & H)]; by eauto.
Qed.

(** The closures after a step, in full: an old closure as it was, the
    closure of the cleanup that ran (it was mounted), or the closure a render
    has just subscribed with. *)
Lemma step_closure_shape (e : Event) (w : World) (k : nat) (c' : Closure) :
  wf w -> closures (step e w).2 !! k = Some c' ->
  (exists c, closures w.2 !! k = Some c
     /\ (c' = c \/ (c' = unmounted c /\ isMounted c = true)))
  \/ (exists j r q o a, e = Render j r q o /\ r = SrcObj a /\ k = length (closures w.2)
        /\ c' = mkClosure j (generationRef (hook_of j (step e w))) true
                   (keepPreviousData_of o) a q (opt_isEqual o) false).
Proof.
  intros Hwf. pose proof Hwf as [_ (Hf & _)].
  assert (forall j fj c, fibers w.2 !! j = Some fj -> destroy fj = Some k ->
            closures w.2 !! k = Some c -> isMounted c = true) as Hmounted.
  { intros j fj c Hj Hd Hc. destruct (Hf j fj Hj) as (_ & _ & H3).
    destruct (H3 k Hd) as (_ & _ & c0 & ? & _ & ? & _). congruence. }
  destruct e as [j r q o | k0 data | | j].
  - set (f0 := default initFiber (fibers w.2 !! j)).
    destruct (alive f0) eqn:Hal; [destruct (effect_reruns f0 r o) eqn:Hre |].
    2:{ rewrite render_skip; [by eauto 10 | by right]. }
    2:{ rewrite render_skip; [by eauto 10 | by left]. }
    destruct (render_rerun_wf j r q o w Hwf Hal Hre) as (h' & _ & Hfib & Hcl & _).
    rewrite Hcl. rewrite lookup_app_Some. intros [H | [Hlen H]].
    + left. destruct (teardown_lookup_shape _ _ _ _ H) as (c & Hc & [-> | [-> Hd]]);
        [by eauto |].
      exists c. split; [done |]. right. split; [done |].
      unfold f0 in Hd. destruct (fibers w.2 !! j) as [fj|] eqn:Hj; [| done].
      by eapply Hmounted.
    + right. rewrite teardown_length in Hlen.
      destruct r as [| |a]; simpl in H; try done.
      apply list_lookup_singleton_Some in H as [Hk <-].
      exists j, (SrcObj a), q, o, a. split; [done |]. split; [done |].
      split; [rewrite teardown_length in Hk; lia |].
      unfold hook_of. by rewrite Hfib, lookup_insert_eq.
  - simpl step. rewrite onData_closures. by eauto 10.
  - rewrite tick_closures. by eauto 10.
  - simpl step. destruct (fibers w.2 !! j) as [fj|] eqn:Hj.
    2:{ unfold unmount. rewrite Hj. by eauto 10. }
    destruct (alive fj) eqn:Hal.
    2:{ unfold unmount. rewrite Hj, Hal. by eauto 10. }
    destruct (unmount_spec j w fj Hwf Hj Hal) as (_ & _ & ->).
    intros H. left.
    destruct (teardown_lookup_shape _ _ _ _ H) as (c & Hc & [-> | [-> Hd]]); [by eauto |].
    exists c. split; [done |]. right. split; [done |]. by eapply Hmounted.
Qed.

(** The instances after a step: an instance keeps its control state, or it
    lost its cleanup, or it has just subscribed. *)
Lemma step_fiber_shape (e : Event) (w : World) (i : nat) (f' : Fiber) :
  wf w -> fibers (step e w).2 !! i = Some f' ->
  (exists f, fibers w.2 !! i = Some f /\ ctrl f' = ctrl f)
  \/ (destroy f' = None /\ (alive f' = true -> absent (prevRRef (hook f')) = true))
  \/ (exists r q o a, e = Render i r q o /\ r = SrcObj a /\ prevRRef (hook f') = r
        /\ destroy f' = Some (length (closures w.2))).
Proof.
  intros Hwf. destruct e as [j r q o | k data | | j].
  - set (f0 := default initFiber (fibers w.2 !! j)).
    destruct (alive f0) eqn:Hal; [destruct (effect_reruns f0 r o) eqn:Hre |].
    2:{ rewrite render_skip; [by eauto | by right]. }
    2:{ rewrite render_skip; [by eauto | by left]. }
    destruct (render_rerun_wf j r q o w Hwf Hal Hre) as (h' & _ & -> & _ & _ & HR & _).
    destruct (decide (j = i)) as [-> | Hne].
    + rewrite lookup_insert_eq. intros [= <-]. simpl. right.
      destruct r as [| |a]; simpl.
      * left. by rewrite HR.
      * left. by rewrite HR.
      * right. exists (SrcObj a), q, o, a. by rewrite HR.
    + rewrite lookup_insert_ne by done. by eauto.
  - simpl step. intros Hi. left.
    destruct (same_ctrl_lookup w.2 (onData k data w).2 i f') as (f & Hf & E); [| done | by eauto].
    unfold onData. destruct (closures w.2 !! k) as [c|]; [| apply same_ctrl_refl].
    destruct (fibers w.2 !! cl_inst c); [| apply same_ctrl_refl].
    destruct (negb _); [apply same_ctrl_refl | apply write_prevSnapshotRef_ctrl].
  - intros Hi. left.
    destruct (same_ctrl_lookup w.2 (step Tick w).2 i f') as (f & Hf & E); [| done | by eauto].
    simpl. rewrite run_microtask_hook.
    destruct (microtasks w.1); [apply same_ctrl_refl | apply apply_all_ctrl].
  - simpl step. destruct (fibers w.2 !! j) as [fj|] eqn:Hj.
    2:{ unfold unmount. rewrite Hj. by eauto. }
    destruct (alive fj) eqn:Hal.
    2:{ unfold unmount. rewrite Hj, Hal. by eauto. }
    destruct (unmount_spec j w fj Hwf Hj Hal) as (_ & -> & _).
    destruct (decide (j = i)) as [-> | Hne].
    + rewrite lookup_insert_eq. intros [= <-]. right. left. by split.
    + rewrite lookup_insert_ne by done. by eauto.
Qed.

Lemma lifecycle_step (e : Event) (w : World) :
  wf w -> lifecycle_inv w.2 -> lifecycle_inv (step e w).2.
Proof.
  intros Hwf (Ha & Hb & Hc). pose proof Hwf as [_ (Hf & _)]. split; [| split].
  - intros k c' Hc'.
    destruct (step_closure_shape e w k c' Hwf Hc')
      as [(c & Hk & [-> | [-> Hm]]) | (j & r & q & o & a & _ & _ & _ & ->)];
      [by apply (Ha k) | done | done].
  - intros i f' k c' Hi' Hd' Hc'.
    destruct (step_fiber_shape e w i f' Hwf Hi')
      as [(f & Hi & E) | [[Hn _] | (r & q & o & a & -> & -> & HR & Hd)]]; [| congruence |].
    + ctrl_fields E.
      destruct (Hf i f Hi) as (_ & _ & H3).
      destruct (H3 k) as (_ & _ & c & Hk & _); [congruence |].
      destruct (step_closure_shape e w k c' Hwf Hc')
        as [(c0 & Hk0 & [-> | [-> Hm]]) | (j & r & q & o & a & _ & _ & Hlen & _)].
      * rewrite Ectl4. apply (Hb i f k c0 Hi); [congruence | done].
      * rewrite Ectl4. simpl. apply (Hb i f k c0 Hi); [congruence | done].
      * apply lookup_lt_Some in Hk. lia.
    + rewrite HR. f_equal.
      destruct (step_closure_shape (Render i (SrcObj a) q o) w k c' Hwf Hc')
        as [(c0 & Hk0 & _) | (j & r' & q' & o' & a' & He & Hr' & _ & ->)].
      * apply lookup_lt_Some in Hk0. rewrite Hd in Hd'. injection Hd' as <-. lia.
      * simpl. congruence.
  - intros i f' Hi' Hal' Hab'.
    destruct (step_fiber_shape e w i f' Hwf Hi')
      as [(f & Hi & E) | [[_ Hn] | (r & q & o & a & _ & _ & _ & Hd)]].
    + ctrl_fields E. rewrite Ectl0. apply (Hc i f Hi); congruence.
    + rewrite Hn in Hab' by done. done.
    + by rewrite Hd.
Qed.

Lemma lifecycle_reachable (w : World) : reachable w -> lifecycle_inv w.2.
Proof.
  intros [es ->]. assert (wf initWorld /\ lifecycle_inv initWorld.2) as [Hwf Hinv].
  { split; [apply wf_init |]. split; [| split].
    - intros k c H. done.
    - intros i f k c H. simpl in H. by rewrite lookup_empty in H.
    - intros i f H. simpl in H. by rewrite lookup_empty in H. }
  revert Hwf Hinv. generalize initWorld.
  induction es as [|e es IH]; intros w Hwf Hinv; simpl; [done |].
  apply IH; [by apply wf_step | by apply lifecycle_step].
Qed.

(** X2. On every heap the events can produce: a closure is unsubscribed
    exactly when it is unmounted; an instance has at most one mounted
    closure, the one whose cleanup is registered, and it is subscribed to the
    source the instance last rendered with; an instance has such a closure
    exactly when it is alive and that source is present.  The registered
    cleanup is therefore always that of a subscription not yet unsubscribed:
    [unsubscribe] is never called a second time. *)
Theorem X2_one_live_subscription (w : World) :
  reachable w ->
  (forall k c, closures w.2 !! k = Some c -> cl_unsubscribed c = negb (isMounted c))
  /\ (forall k1 k2 c1 c2,
        closures w.2 !! k1 = Some c1 -> closures w.2 !! k2 = Some c2 ->
        isMounted c1 = true -> isMounted c2 = true -> cl_inst c1 = cl_inst c2 -> k1 = k2)
  /\ (forall i f k, fibers w.2 !! i = Some f -> destroy f = Some k ->
        exists c, closures w.2 !! k = Some c /\ cl_inst c = i /\ isMounted c = true
                  /\ cl_unsubscribed c = false
                  /\ prevRRef (hook f) = SrcObj (cl_source c)
                  /\ currentGen c = generationRef (hook f))
  /\ (forall i f, fibers w.2 !! i = Some f ->
        is_Some (destroy f) <-> alive f = true /\ absent (prevRRef (hook f)) = false).
Proof.
  intros Hr. pose proof (reachable_wf w Hr) as [_ (Hf & Hk & _)].
  destruct (lifecycle_reachable w Hr) as (Ha & Hb & Hc).
  split; [done |]. split; [| split].
  - intros k1 k2 c1 c2 H1 H2 Hm1 Hm2 Hi.
    destruct (Hk k1 c1 H1) as (f1 & Hf1 & _ & Hd1).
    destruct (Hk k2 c2 H2) as (f2 & Hf2 & _ & Hd2).
    specialize (Hd1 Hm1). specialize (Hd2 Hm2). congruence.
  - intros i f k Hi Hd. destruct (Hf i f Hi) as (_ & _ & H3).
    destruct (H3 k Hd) as (_ & _ & c & Hc' & Hci & Hm & Hg).
    exists c. repeat split; try done.
    + by rewrite (Ha k c Hc'), Hm.
    + by eapply Hb.
  - intros i f Hi. split.
    + intros [k Hd]. destruct (Hf i f Hi) as (_ & _ & H3).
      by destruct (H3 k Hd) as (? & ? & _).
    + intros [Hal Hab]. by eapply Hc.
Qed.

Lemma X2_witness :
  let w := run test_multiple_transitions initWorld in
  (forall k c, closures w.2 !! k = Some c -> cl_unsubscribed c = negb (isMounted c))
  /\ exists c, closures w.2 !! 3 = Some c /\ cl_inst c = 0 /\ isMounted c = true
               /\ cl_unsubscribed c = false /\ repB = SrcObj (cl_source c)
               /\ currentGen c = 4%N.
Proof.
  destruct (X2_one_live_subscription (run test_multiple_transitions initWorld)
              (ex_intro _ test_multiple_transitions eq_refl)) as (H1 & _ & H3 & _).
  split; [exact H1 |].
  exact (H3 0 (mkFiber (mkHook (JStr "dataB2") (JStr "dataB2") 4 repB [JStr "dataB2"] true)
                       (Some [JRef 2; JStr "dataB2"]) (Some 3) true) 3 eq_refl eq_refl).
Defined.

(** ** Which renders re-subscribe (lines 259-261 and 318) *)

Lemma src_val_is (r r' : Source) : Object_is (src_val r) (src_val r') = bool_decide (r = r').
Proof.
  unfold Object_is. apply bool_decide_ext. split; [| by intros ->].
  destruct r, r'; simpl; congruence.
Qed.

Lemma areHookInputsEqual_same_length (a b : list JsVal) :
  length a = length b -> areHookInputsEqual a b = bool_decide (a = b).
Proof.
  revert b. induction a as [|x a IH]; intros [|y b] Hlen; simpl in *; try done.
  rewrite IH by lia. unfold Object_is.
  destruct (decide (x = y)) as [-> | Hne].
  - rewrite bool_decide_eq_true_2 by done. simpl. apply bool_decide_ext.
    split; [by intros -> | congruence].
  - rewrite bool_decide_eq_false_2 by done. simpl. symmetry.
    apply bool_decide_eq_false_2. congruence.
Qed.

Lemma areHookInputsEqual_false (a b : list JsVal) :
  areHookInputsEqual a b = false -> deps_differ a b.
Proof.
  revert b. induction a as [|x a IH]; intros [|y b]; simpl; try done.
  rewrite andb_false_iff, Object_is_false. intros [Hne | H].
  - right. by exists 0, x, y.
  - destruct (IH b H) as [Hlen | (j & u & v & Hu & Hv & Huv)].
    + left. simpl. lia.
    + right. by exists (S j), u, v.
Qed.

Lemma depsChanged_neq (a b : list JsVal) : depsChanged a b = negb (bool_decide (a = b)).
Proof.
  destruct (depsChanged a b) eqn:H.
  - apply depsChanged_true, deps_differ_neq in H. by rewrite bool_decide_eq_false_2.
  - destruct (decide (a = b)) as [-> | Hne]; [by rewrite bool_decide_eq_true_2 |].
    apply deps_differ_neq, depsChanged_true in Hne. congruence.
Qed.

(** X3. On a mounted instance, whenever the framework re-runs the effect the
    render before it was flagged as a transition by the detector; and when
    the dependency list has the length it had at the last effect run the two
    agree exactly: the render-time detector answers yes if and only if the
    effect re-runs after this render. *)
Theorem X3_detector_matches_effect (w : World) (i : nat) (f : Fiber) (r : Source)
    (o : UseSubscribeOptions) :
  reachable w ->
  fibers w.2 !! i = Some f ->
  (effect_reruns f r o = true -> hasTransitioned (hook f) r (dependencies_of o) = true)
  /\ (length (dependencies_of o) = length (prevDepsRef (hook f)) ->
      hasTransitioned (hook f) r (dependencies_of o) = effect_reruns f r o).
Proof.
  intros Hr Hi. pose proof (reachable_wf w Hr) as [_ (Hf & _)].
  destruct (Hf i f Hi) as (Hrun & Hdeps & _).
  unfold effect_reruns, hasTransitioned. rewrite Hdeps, Hrun, andb_true_r. simpl.
  rewrite src_val_is. split.
  - rewrite negb_true_iff, andb_false_iff. intros [H | H].
    + by rewrite H.
    + apply areHookInputsEqual_false, depsChanged_true in H. rewrite H. apply orb_true_r.
  - intros Hlen. rewrite areHookInputsEqual_same_length, depsChanged_neq by done.
    by rewrite negb_andb.
Qed.

Lemma X3_witness :
  let w := run test_multiple_transitions initWorld in
  hasTransitioned (hook_of 0 w) repB [JStr "other"] = true
  /\ hasTransitioned (hook_of 0 w) repB [JStr "other"]
     = effect_reruns (default initFiber (fibers w.2 !! 0)) repB
         (opts_deps "default" true [JStr "other"]).
Proof.
  destruct (X3_detector_matches_effect (run test_multiple_transitions initWorld) 0
              (mkFiber (mkHook (JStr "dataB2") (JStr "dataB2") 4 repB [JStr "dataB2"] true)
                       (Some [JRef 2; JStr "dataB2"]) (Some 3) true)
              repB (opts_deps "default" true [JStr "other"])
              (ex_intro _ test_multiple_transitions eq_refl) eq_refl) as [H1 H2].
  split; [exact (H1 eq_refl) | exact (H2 eq_refl)].
Defined.

(** X4. A render that passes the source and the dependency list of the last
    effect run leaves the whole heap as it is, whatever query, default,
    [isEqual] or [keepPreviousData] it passes: nothing is unsubscribed,
    nothing is subscribed, the generation does not move. *)
Theorem X4_same_inputs_no_resubscription (w : World) (i : nat) (f : Fiber) (r : Source)
    (query : nat) (o : UseSubscribeOptions) :
  reachable w ->
  fibers w.2 !! i = Some f ->
  r = prevRRef (hook f) ->
  dependencies_of o = prevDepsRef (hook f) ->
  step (Render i r query o) w = w.
Proof.
  intros Hr Hi -> Hdeps. pose proof (reachable_wf w Hr) as [_ (Hf & _)].
  destruct (Hf i f Hi) as (_ & Heff & _).
  apply render_skip. right. rewrite Hi. simpl.
  unfold effect_reruns. rewrite Heff, Hdeps. by rewrite areHookInputsEqual_refl.
Qed.

Lemma X4_witness :
  let w := run test_multiple_transitions initWorld in
  step (Render 0 repB 7 (mkOptions JNull (Some [JStr "dataB2"]) (Some 5) (Some false))) w = w.
Proof.
  exact (X4_same_inputs_no_resubscription (run test_multiple_transitions initWorld) 0
           (mkFiber (mkHook (JStr "dataB2") (JStr "dataB2") 4 repB [JStr "dataB2"] true)
                    (Some [JRef 2; JStr "dataB2"]) (Some 3) true)
           repB 7 (mkOptions JNull (Some [JStr "dataB2"]) (Some 5) (Some false))
           (ex_intro _ test_multiple_transitions eq_refl) eq_refl eq_refl eq_refl).
Defined.

(** X5. When a living instance renders with a present source that is not the
    one of the last effect run, or with a dependency list of the same length
    that differs from it, the commit re-subscribes: the closure of the
    registered cleanup is unmounted and unsubscribed, every other closure is
    untouched, the counter grows by one, and one closure is added, for this
    instance, mounted, stamped with the new generation, subscribed to the new
    source with the query and the [isEqual] of this render, and registered as
    the cleanup.  Nothing is queued or scheduled by the commit. *)
Theorem X5_resubscription (w : World) (i : nat) (f : Fiber) (a : nat) (query : nat)
    (o : UseSubscribeOptions) :
  reachable w ->
  fibers w.2 !! i = Some f ->
  alive f = true ->
  SrcObj a <> prevRRef (hook f)
  \/ (length (dependencies_of o) = length (prevDepsRef (hook f))
      /\ dependencies_of o <> prevDepsRef (hook f)) ->
  let w1 := step (Render i (SrcObj a) query o) w in
  let gen := (generationRef (hook f) + 1)%N in
  w1.1 = w.1
  /\ generationRef (hook_of i w1) = gen
  /\ prevRRef (hook_of i w1) = SrcObj a
  /\ prevDepsRef (hook_of i w1) = dependencies_of o
  /\ destroy (default initFiber (fibers w1.2 !! i)) = Some (length (closures w.2))
  /\ closures w1.2
     = teardown_closures (destroy f) (closures w.2)
       ++ [mkClosure i gen true (keepPreviousData_of o) a query (opt_isEqual o) false]
  /\ (forall k c, destroy f = Some k -> closures w.2 !! k = Some c ->
        closures w1.2 !! k = Some (unmounted c))
  /\ (forall k c, destroy f <> Some k -> closures w.2 !! k = Some c ->
        closures w1.2 !! k = Some c).
Proof.
  intros Hr Hi Hal Hchange w1 gen.
  pose proof (reachable_wf w Hr) as Hwf. pose proof Hwf as [_ (Hf & _)].
  destruct (Hf i f Hi) as (Hrun & Heff & _).
  assert (default initFiber (fibers w.2 !! i) = f) as Hf0 by (by rewrite Hi).
  assert (effect_reruns f (SrcObj a) o = true) as Hre.
  { unfold effect_reruns. rewrite Heff. simpl. rewrite (src_val_is (SrcObj a)).
    rewrite negb_true_iff, andb_false_iff.
    destruct Hchange as [H | [Hlen H]].
    - left. by apply bool_decide_eq_false_2.
    - right. rewrite areHookInputsEqual_same_length by done.
      by apply bool_decide_eq_false_2. }
  destruct (render_rerun_wf i (SrcObj a) query o w Hwf) as
    (h' & Hs1 & Hfib & Hcl & _ & HR & HD & _ & _ & Hgen); rewrite ?Hf0; try done.
  fold w1 in Hs1, Hfib, Hcl. rewrite Hf0 in *. simpl in Hgen, Hfib, Hcl.
  assert (hook_of i w1 = h') as Hh by (unfold hook_of; by rewrite Hfib, lookup_insert_eq).
  split; [done |]. rewrite Hh. split; [done |]. split; [done |]. split; [done |].
  split; [by rewrite Hfib, lookup_insert_eq |].
  split; [by rewrite Hcl, Hgen |]. split.
  - intros k c Hd Hc. rewrite Hcl. rewrite lookup_app_l.
    + unfold teardown_closures. rewrite Hd, Hc. apply list_lookup_insert_eq.
      by eapply lookup_lt_Some.
    + rewrite teardown_length. by eapply lookup_lt_Some.
  - intros k c Hd Hc. rewrite Hcl. rewrite lookup_app_l.
    + unfold teardown_closures. destruct (destroy f) as [k0|]; [| done].
      destruct (closures w.2 !! k0); [| done].
      rewrite list_lookup_insert_ne; [done | congruence].
    + rewrite teardown_length. by eapply lookup_lt_Some.
Qed.

Lemma X5_witness :
  let w := run (loaded_trace true) initWorld in
  let w1 := step (Render 0 repB 9 (opts "default" true)) w in
  generationRef (hook_of 0 w1) = 2%N
  /\ closures w1.2
     = [mkClosure 0 1 false true 1 0 None true; mkClosure 0 2 true true 2 9 None false].
Proof.
  destruct (X5_resubscription (run (loaded_trace true) initWorld) 0
              (mkFiber (mkHook (JStr "data1") (JStr "data1") 1 repA [] true)
                       (Some [JRef 1]) (Some 0) true)
              2 9 (opts "default" true)
              (ex_intro _ (loaded_trace true) eq_refl) eq_refl eq_refl
              (or_introl (fun H : repB = repA => ltac:(discriminate H))))
    as (_ & H2 & _ & _ & _ & H6 & _).
  split; [exact H2 | exact H6].
Defined.

(** ** Several results in one tick (lines 284-304) *)

(** A Data event on any heap: the closures, the snapshots and everything the
    effect wrote stay; a callback is pushed when the generation check
    passes. *)
Lemma data_step_frame (k : nat) (data : JsVal) (w : World) :
  closures (step (Data k data) w).2 = closures w.2
  /\ (forall j, (fun f => (ctrl f, snapshot (hook f))) <$> fibers (step (Data k data) w).2 !! j
                = (fun f => (ctrl f, snapshot (hook f))) <$> fibers w.2 !! j)
  /\ callbacks (step (Data k data) w).1
     = callbacks w.1 ++ (if accepts k w then [mkCallback k data] else [])
  /\ (hasPendingCallback w.1 = true -> hasPendingCallback (step (Data k data) w).1 = true).
Proof.
  split; [apply onData_closures |]. split; [| split].
  - intros j. simpl step. rewrite onData_lookup.
    destruct (closures w.2 !! k) as [c|]; [| done].
    destruct (accepts k w && bool_decide (cl_inst c = j)); [| done].
    by destruct (fibers w.2 !! j).
  - simpl step. rewrite onData_sched. destruct (accepts k w).
    + apply schedule_callbacks.
    + by rewrite app_nil_r.
  - intros H. simpl step. rewrite onData_sched.
    destruct (accepts k w); [apply schedule_flag | done].
Qed.

Lemma data_run_frame (ds : list Event) (w : World) :
  forallb is_Data ds = true ->
  closures (run ds w).2 = closures w.2
  /\ (forall j, (fun f => (ctrl f, snapshot (hook f))) <$> fibers (run ds w).2 !! j
                = (fun f => (ctrl f, snapshot (hook f))) <$> fibers w.2 !! j)
  /\ (exists q, callbacks (run ds w).1 = callbacks w.1 ++ q
                /\ forall cb, cb ∈ q -> Data (cb_closure cb) (cb_data cb) ∈ ds)
  /\ (hasPendingCallback w.1 = true -> hasPendingCallback (run ds w).1 = true).
Proof.
  revert w. induction ds as [|e ds IH]; intros w Hds.
  - split; [done |]. split; [done |]. split; [| done].
    exists []. split; [by rewrite app_nil_r |]. intros cb H. by apply elem_of_nil in H.
  - simpl in Hds. apply andb_true_iff in Hds as [He Hds].
    destruct e as [| k data | |]; try done.
    destruct (data_step_frame k data w) as (Hc1 & Hf1 & Hq1 & Hp1).
    destruct (IH (step (Data k data) w) Hds) as (Hc & Hf & (q & Hq & Hin) & Hp).
    change (run (Data k data :: ds) w) with (run ds (step (Data k data) w)).
    split; [congruence |]. split; [intros j; by rewrite Hf, Hf1 |]. split; [| by auto].
    exists ((if accepts k w then [mkCallback k data] else []) ++ q).
    split; [by rewrite Hq, Hq1, app_assoc |].
    intros cb [H | H]%elem_of_app.
    + destruct (accepts k w); [| by apply elem_of_nil in H].
      apply list_elem_of_singleton in H as ->. apply list_elem_of_here.
    + apply list_elem_of_further. by apply Hin.
Qed.

(** Only the closure of the registered cleanup passes the generation check
    of its instance. *)
Lemma data_other_closure (k k' : nat) (data : JsVal) (w : World) (i : nat) (f : Fiber) :
  wf w -> fibers w.2 !! i = Some f -> destroy f = Some k -> k' <> k ->
  fibers (step (Data k' data) w).2 !! i = Some f.
Proof.
  intros [_ (Hf & _ & Hg)] Hi Hd Hne. simpl step. rewrite onData_lookup.
  destruct (closures w.2 !! k') as [c'|] eqn:Hc'; [| done].
  destruct (accepts k' w && bool_decide (cl_inst c' = i)) eqn:Hacc; [| done].
  exfalso. apply andb_true_iff in Hacc as [Ha Hci]. apply bool_decide_eq_true in Hci.
  unfold accepts in Ha. rewrite Hc', Hci, Hi in Ha. apply bool_decide_eq_true in Ha.
  destruct (Hf i f Hi) as (_ & _ & H3).
  destruct (H3 k Hd) as (_ & _ & c & Hc & Hci0 & _ & Hgen).
  destruct (Nat.lt_trichotomy k k') as [Hlt | [-> | Hlt]]; [| done |].
  - pose proof (Hg k k' c c' Hc Hc' ltac:(congruence) Hlt). lia.
  - pose proof (Hg k' k c' c Hc' Hc ltac:(congruence) Hlt). lia.
Qed.

Lemma data_run_other_closures (ds : list Event) (k : nat) (w : World) (i : nat) (f : Fiber) :
  wf w -> fibers w.2 !! i = Some f -> destroy f = Some k ->
  forallb is_Data ds = true ->
  forallb (fun e => negb (is_Data_of k e)) ds = true ->
  fibers (run ds w).2 !! i = Some f.
Proof.
  revert w. induction ds as [|e ds IH]; intros w Hwf Hi Hd Hds Hno; [done |].
  simpl in Hds, Hno. apply andb_true_iff in Hds as [He Hds].
  apply andb_true_iff in Hno as [Hk Hno].
  destruct e as [| k' data | |]; try done.
  change (run (Data k' data :: ds) w) with (run ds (step (Data k' data) w)).
  apply IH; [by apply wf_step | | done | done | done].
  apply (data_other_closure k); [done.. |]. intros ->. simpl in Hk.
  by rewrite bool_decide_eq_true_2 in Hk.
Qed.

(** X6. The live subscription of an instance delivers [v], other results
    arrive before and after it in the same tick (from any subscriptions, but
    none later from this one), and the promise job runs.  The cache holds [v]
    as soon as the tick's Data events are over, the snapshot is untouched
    until the job and holds [v] after it, and the queue is empty: the last
    result delivered wins.  A render with the source and the dependencies of
    the last effect run then returns [v], or the default when [v] is
    [undefined]. *)
Theorem X6_last_delivery_wins (w : World) (i k : nat) (f : Fiber) (ds1 ds2 : list Event)
    (v : JsVal) :
  reachable w ->
  fibers w.2 !! i = Some f ->
  destroy f = Some k ->
  forallb is_Data (ds1 ++ ds2) = true ->
  forallb (fun e => negb (is_Data_of k e)) ds2 = true ->
  let w1 := run (ds1 ++ Data k v :: ds2) w in
  let w2 := step Tick w1 in
  snapshot (hook_of i w1) = snapshot (hook f)
  /\ prevSnapshotRef (hook_of i w1) = v
  /\ snapshot (hook_of i w2) = v
  /\ prevSnapshotRef (hook_of i w2) = v
  /\ callbacks w2.1 = [] /\ microtasks w2.1 = 0
  /\ forall o, dependencies_of o = prevDepsRef (hook f) ->
       observe i (prevRRef (hook f)) o w2 = if is_undefined v then def_of o else v.
Proof.
  intros Hr Hi Hd Hds Hno w1 w2.
  rewrite forallb_app in Hds. apply andb_true_iff in Hds as [Hds1 Hds2].
  pose proof (reachable_wf w Hr) as Hwf.
  (* the results before *)
  set (w0 := run ds1 w).
  assert (wf w0) as Hwf0 by (by apply wf_run).
  destruct (data_run_frame ds1 w Hds1) as (Hcl0 & Hfb0 & _ & _). fold w0 in Hcl0, Hfb0.
  specialize (Hfb0 i). rewrite Hi in Hfb0.
  destruct (fibers w0.2 !! i) as [f0|] eqn:Hi0; [| done]. simpl in Hfb0.
  assert (ctrl f0 = ctrl f /\ snapshot (hook f0) = snapshot (hook f)) as [E0 Hs0]
    by (split; congruence).
  pose proof E0 as E0'. ctrl_fields E0'.
  assert (destroy f0 = Some k) as Hd0 by congruence.
  (* the result of the live subscription *)
  pose proof Hwf0 as [Hok0 (Hf0 & Hk0 & _)].
  destruct (Hf0 i f0 Hi0) as (Hrun & _ & H3).
  destruct (H3 k Hd0) as (Hal & _ & c & Hc & Hci & Hm & Hg).
  set (wk := step (Data k v) w0).
  assert (wk = (schedule (mkCallback k v) w0.1, write_prevSnapshotRef i v w0.2)) as Hwk.
  { unfold wk. simpl. unfold onData. rewrite Hc, Hci, Hi0.
    by rewrite bool_decide_eq_true_2. }
  assert (wf wk) as Hwfk by (by apply wf_step).
  assert (fibers wk.2 !! i = Some (with_hook (set_prevSnapshotRef v) f0)) as Hik.
  { rewrite Hwk. simpl. by rewrite lookup_alter_eq, Hi0. }
  (* the results after *)
  assert (w1 = run ds2 wk) as Hw1.
  { unfold w1, wk, w0, run. by rewrite foldl_app. }
  destruct (data_run_frame ds2 wk Hds2) as (Hcl1 & _ & (q & Hq & Hin) & Hp1).
  rewrite <- Hw1 in Hcl1, Hq, Hp1.
  assert (fibers w1.2 !! i = Some (with_hook (set_prevSnapshotRef v) f0)) as Hi1.
  { rewrite Hw1. by apply (data_run_other_closures ds2 k). }
  assert (wf w1) as Hwf1 by (rewrite Hw1; by apply wf_run).
  assert (closures w1.2 = closures w0.2) as Hcl by (rewrite Hcl1, Hwk; done).
  assert (callbacks w1.1 = (callbacks w0.1 ++ [mkCallback k v]) ++ q) as Hq1.
  { rewrite Hq, Hwk. simpl. by rewrite schedule_callbacks. }
  assert (microtasks w1.1 = 1) as Hm1.
  { destruct Hwf1 as [[Hmt _] _]. rewrite Hmt, Hp1; [done |].
    rewrite Hwk. simpl. apply schedule_flag. }
  (* the promise job *)
  assert (w2 = (mkSched [] false 0 (console w1.1), foldl apply_cb w1.2 (callbacks w1.1)))
    as Hw2.
  { unfold w2. simpl. by rewrite run_microtask_hook, Hm1. }
  rewrite <- Hcl in Hc. rewrite <- Hci in Hi1.
  destruct (apply_all_last (callbacks w0.1) w1.2 k v c _ Hc Hm Hi1 Hal)
    as (f2 & Hf2 & Hs2 & Hp2 & E2).
  assert (fibers w2.2 !! i = Some f2) as Hi2.
  { rewrite Hw2, Hq1. simpl. rewrite foldl_app. rewrite apply_all_quiet; [by rewrite <- Hci |].
    intros cb c' Hcb Hc' Hm' Hci'. rewrite apply_all_closures in Hc'.
    rewrite Hcl in Hc'. destruct (Hk0 _ _ Hc') as (f' & Hf' & _ & Hmo).
    rewrite Hci', Hi0 in Hf'. injection Hf' as <-.
    specialize (Hmo Hm'). apply Hin in Hcb.
    assert (cb_closure cb = k) as Hk by congruence. rewrite Hk in Hcb.
    rewrite forallb_forall in Hno. apply list_elem_of_In, Hno in Hcb. simpl in Hcb.
    by rewrite bool_decide_eq_true_2 in Hcb. }
  rewrite Hci in Hi1. simpl in Hp2.
  rewrite (hook_of_lookup i w1 _ Hi1), (hook_of_lookup i w2 _ Hi2).
  split; [done |]. split; [done |]. split; [done |]. split; [done |].
  split; [by rewrite Hw2 |]. split; [by rewrite Hw2 |].
  intros o Hdeps. rewrite observe_value, (hook_of_lookup i w2 _ Hi2).
  pose proof E2 as E2'. ctrl_fields E2'. simpl in *.
  unfold useSubscribe_value, hasTransitioned.
  assert (prevRRef (hook f2) = prevRRef (hook f)) as -> by congruence.
  assert (prevDepsRef (hook f2) = prevDepsRef (hook f)) as -> by congruence.
  rewrite Hdeps, depsChanged_neq, !bool_decide_eq_true_2 by done. simpl.
  rewrite Hs2, Hp2. destruct (is_undefined v); [| done].
  by rewrite andb_false_r.
Qed.

Lemma X6_witness :
  let w := run [Render 0 repA 0 (opts "default" true)] initWorld in
  let w2 := step Tick (run ([Data 0 (JStr "a"); Data 5 (JStr "x")]
                            ++ Data 0 (JStr "b") :: [Data 7 JNull]) w) in
  snapshot (hook_of 0 w2) = JStr "b" /\ callbacks w2.1 = [].
Proof.
  destruct (X6_last_delivery_wins (run [Render 0 repA 0 (opts "default" true)] initWorld) 0 0
              (mkFiber (mkHook JUndefined JUndefined 1 repA [] true) (Some [JRef 1]) (Some 0) true)
              [Data 0 (JStr "a"); Data 5 (JStr "x")] [Data 7 JNull] (JStr "b")
              (ex_intro _ [Render 0 repA 0 (opts "default" true)] eq_refl)
              eq_refl eq_refl eq_refl eq_refl) as (_ & _ & H3 & _ & H5 & _).
  split; [exact H3 | exact H5].
Defined.

(** ** Without retention: the default until new data is applied (lines 314-316) *)

Lemma torn_down_reset (f : Fiber) (st : Store) :
  snapshot (hook f) = JUndefined \/ (alive f = true /\ is_Some (destroy f)) ->
  cleanup_keeps false f st ->
  (forall k, destroy f = Some k -> is_Some (closures st !! k)) ->
  snapshot (hook (torn_down f st)) = JUndefined.
Proof.
  intros Hs Hkeep Hreg. unfold torn_down, registered_keep.
  destruct (destroy f) as [k|] eqn:Hd.
  - destruct (Hreg k eq_refl) as [c Hc]. rewrite Hc. simpl.
    rewrite (Hkeep k c) by done. unfold cleanup_fiber. simpl.
    destruct (alive f) eqn:Hal; [done |]. simpl. by destruct Hs as [? | [? _]].
  - destruct Hs as [? | [_ [? ?]]]; done.
Qed.

(** One event of a stretch in which instance [i] renders without retention
    and no promise job applies a delivered value to it. *)
Lemma reset_window_step (i : nat) (e : Event) (w : World) (f : Fiber) :
  wf w -> fibers w.2 !! i = Some f ->
  snapshot (hook f) = JUndefined -> cleanup_keeps false f w.2 ->
  renders_with i false e = true -> applies_to i e w = false ->
  exists f', fibers (step e w).2 !! i = Some f'
    /\ snapshot (hook f') = JUndefined
    /\ cleanup_keeps false f' (step e w).2.
Proof.
  intros Hwf Hi Hs Hkeep Hrw Hap.
  pose proof Hwf as [_ (Hf & _)]. destruct (Hf i f Hi) as (_ & _ & H3).
  assert (forall k, destroy f = Some k -> is_Some (closures w.2 !! k)) as Hreg.
  { intros k Hd. destruct (H3 k Hd) as (_ & _ & c & Hc & _). by exists c. }
  destruct e as [j r q o | k data | | j].
  - destruct (decide (j = i)) as [-> | Hne].
    + simpl in Hrw. rewrite decide_True in Hrw by done. apply bool_decide_eq_true in Hrw.
      set (f0 := default initFiber (fibers w.2 !! i)).
      assert (f0 = f) as Hf0 by (unfold f0; by rewrite Hi).
      destruct (alive f0) eqn:Hal; [destruct (effect_reruns f0 r o) eqn:Hre |].
      2:{ rewrite render_skip by (by right). by eauto. }
      2:{ rewrite render_skip by (by left). by eauto. }
      destruct (render_rerun_wf i r q o w Hwf Hal Hre) as
        (h' & _ & Hfib & Hcl & _ & _ & _ & Hsn & _ & Hgen).
      fold f0 in Hsn, Hcl. rewrite Hf0 in *.
      set (w1 := step (Render i r q o) w) in *.
      eexists. rewrite Hfib, lookup_insert_eq. split; [done |]. cbn [hook destroy]. split.
      * rewrite Hsn. apply torn_down_reset; [by left | done | done].
      * intros k c Hd Hc. rewrite Hcl in Hc. destruct r as [| |a]; simpl in Hd; try done.
        injection Hd as <-. rewrite lookup_app_r in Hc by (by rewrite teardown_length).
        rewrite teardown_length, Nat.sub_diag in Hc. simpl in Hc. injection Hc as <-. done.
    + exists f. rewrite step_other_instance by done. split; [done |]. split; [done |].
      by eapply cleanup_keeps_step.
  - destruct (data_step_frame k data w) as (Hcl & Hfb & _). specialize (Hfb i).
    rewrite Hi in Hfb. destruct (fibers (step (Data k data) w).2 !! i) as [f'|]; [| done].
    simpl in Hfb. assert (ctrl f' = ctrl f /\ snapshot (hook f') = snapshot (hook f))
      as [E Hs'] by (split; congruence). ctrl_fields E.
    exists f'. split; [done |]. split; [congruence |].
    intros k' c' Hd Hc. rewrite Hcl in Hc. eapply Hkeep; [| done]. congruence.
  - exists f. split; [| split; [done |]].
    + simpl in Hap. apply andb_false_iff in Hap as [Hm | Hp].
      * apply negb_false_iff, Nat.eqb_eq in Hm. by rewrite tick_idle.
      * rewrite tick_lookup_quiet; [done |]. by apply pending_for_false.
    + by eapply cleanup_keeps_step.
  - destruct (decide (j = i)) as [-> | Hne].
    + destruct (alive f) eqn:Hal.
      * destruct (unmount_spec i w f Hwf Hi Hal) as (_ & Hfib & _).
        eexists. simpl step. rewrite Hfib, lookup_insert_eq. split; [done |]. simpl.
        split; [apply torn_down_reset; [by left | done | done] | done].
      * exists f. simpl step. unfold unmount. rewrite Hi, Hal. by repeat split.
    + exists f. rewrite step_other_instance by done. split; [done |]. split; [done |].
      by eapply cleanup_keeps_step.
Qed.

(** X7. Without retention the reset lasts until new data is applied.  A
    living instance holds a subscription set up with [keepPreviousData]
    false and renders, still with false, with another source or with
    changed dependencies.  The cleanup that the commit runs empties the
    snapshot, and on every later render without retention the hook returns
    the default, through further transitions and while results are only
    delivered, until a promise job applies a delivered value to the
    instance. *)
Theorem X7_reset_lasts_until_data (w : World) (i k : nat) (f : Fiber) (c : Closure)
    (r : Source) (query : nat) (o : UseSubscribeOptions) (es : list Event) :
  reachable w ->
  fibers w.2 !! i = Some f ->
  destroy f = Some k -> closures w.2 !! k = Some c -> cl_keep c = false ->
  keepPreviousData_of o = false ->
  r <> prevRRef (hook f)
  \/ (length (dependencies_of o) = length (prevDepsRef (hook f))
      /\ dependencies_of o <> prevDepsRef (hook f)) ->
  let w1 := step (Render i r query o) w in
  window (fun e w => renders_with i false e && negb (applies_to i e w)) es w1 = true ->
  snapshot (hook_of i w1) = JUndefined
  /\ forall r' o', keepPreviousData_of o' = false ->
       observe i r' o' (run es w1) = def_of o'.
Proof.
  intros Hr Hi Hd Hc Hck Hko Hchange w1 Hwin.
  pose proof (reachable_wf w Hr) as Hwf. pose proof Hwf as [_ (Hf & _)].
  destruct (Hf i f Hi) as (_ & Heff & H3). destruct (H3 k Hd) as (Hal & _).
  assert (default initFiber (fibers w.2 !! i) = f) as Hf0 by (by rewrite Hi).
  assert (effect_reruns f r o = true) as Hre.
  { unfold effect_reruns. rewrite Heff. simpl. rewrite src_val_is.
    rewrite negb_true_iff, andb_false_iff.
    destruct Hchange as [H | [Hlen H]].
    - left. by apply bool_decide_eq_false_2.
    - right. rewrite areHookInputsEqual_same_length by done.
      by apply bool_decide_eq_false_2. }
  assert (cleanup_keeps false f w.2) as Hkeep.
  { intros k' c' Hd' Hc'. congruence. }
  destruct (render_rerun_wf i r query o w Hwf) as
    (h' & _ & Hfib & Hcl & _ & _ & _ & Hsn & _); rewrite ?Hf0; try done.
  fold w1 in Hfib, Hcl. rewrite Hf0 in *.
  assert (snapshot h' = JUndefined) as Hs1.
  { rewrite Hsn. apply torn_down_reset; [right; by eauto | done |].
    intros k' Hd'. exists c. congruence. }
  assert (exists f1, fibers w1.2 !! i = Some f1 /\ snapshot (hook f1) = JUndefined
                     /\ cleanup_keeps false f1 w1.2) as (f1 & Hi1 & Hsf1 & Hk1).
  { eexists. rewrite Hfib, lookup_insert_eq. split; [done |]. split; [done |].
    intros k' c' Hd' Hc'. simpl in Hd'. rewrite Hcl in Hc'.
    destruct r as [| |a]; simpl in Hd'; try done.
    injection Hd' as <-. rewrite lookup_app_r in Hc' by (by rewrite teardown_length).
    rewrite teardown_length, Nat.sub_diag in Hc'. simpl in Hc'. injection Hc' as <-. done. }
  split; [by rewrite (hook_of_lookup i w1 f1 Hi1) |].
  assert (wf w1) as Hwf1 by (by apply wf_step).
  assert (exists f', fibers (run es w1).2 !! i = Some f' /\ snapshot (hook f') = JUndefined)
    as (f' & Hi' & Hs').
  { clear Hfib Hcl. revert Hwf1 Hi1 Hsf1 Hk1 Hwin. generalize w1 f1. clear.
    induction es as [|e es IH]; intros w f Hwf Hi Hs Hk Hwin; [by eauto |].
    simpl in Hwin. apply andb_true_iff in Hwin as [He Hwin].
    apply andb_true_iff in He as [Hrw Hap]. apply negb_true_iff in Hap.
    destruct (reset_window_step i e w f Hwf Hi Hs Hk Hrw Hap) as (f1 & Hi1 & Hs1 & Hk1).
    exact (IH (step e w) f1 (wf_step e w Hwf) Hi1 Hs1 Hk1 Hwin). }
  intros r' o' Hko'. rewrite observe_value, (hook_of_lookup i _ f' Hi').
  unfold useSubscribe_value. rewrite Hs', Hko'. simpl. by destruct (hasTransitioned _ _ _).
Qed.

Lemma X7_witness :
  let w := run (loaded_trace false) initWorld in
  let w1 := step (Render 0 repB 0 (opts "default" false)) w in
  snapshot (hook_of 0 w1) = JUndefined
  /\ observe 0 repB (opts "default" false)
       (run [Data 1 (JStr "b1"); Render 0 repB 0 (opts "default" false)] w1)
     = JStr "default".
Proof.
  destruct (X7_reset_lasts_until_data (run (loaded_trace false) initWorld) 0 0
              (mkFiber (mkHook (JStr "data1") (JStr "data1") 1 repA [] true)
                       (Some [JRef 1]) (Some 0) true)
              (mkClosure 0 1 true false 1 0 None false)
              repB 0 (opts "default" false)
              [Data 1 (JStr "b1"); Render 0 repB 0 (opts "default" false)]
              (ex_intro _ (loaded_trace false) eq_refl) eq_refl eq_refl eq_refl eq_refl eq_refl
              (or_introl (fun H : repB = repA => ltac:(discriminate H))) eq_refl)
    as [H1 H2].
  split; [exact H1 | exact (H2 repB (opts "default" false) eq_refl)].
Defined.

(** ** After the unmount (lines 294-299 and 308-317) *)

(** One event on a heap where instance [i] is unmounted. *)
Lemma unmounted_step (i : nat) (e : Event) (w : World) (f : Fiber) :
  wf w -> fibers w.2 !! i = Some f -> alive f = false ->
  subscriptions_of i (step e w).2 = subscriptions_of i w.2
  /\ exists f', fibers (step e w).2 !! i = Some f'
       /\ ctrl f' = ctrl f /\ snapshot (hook f') = snapshot (hook f).
Proof.
  intros Hwf Hi Hal. split.
  { destruct (subscription_step i e w Hwf) as [-> _].
    assert (subscribes i e w = false) as ->; [| lia].
    destruct e as [j r q o | | |]; try done. unfold subscribes.
    destruct (decide (j = i)) as [-> | Hne].
    - rewrite Hi. cbv zeta. cbn [default]. unfold id. by rewrite Hal, andb_false_r.
    - by rewrite bool_decide_eq_false_2. }
  assert (destroy f = None) as Hd.
  { destruct Hwf as [_ (Hf & _)]. destruct (Hf i f Hi) as (_ & _ & H3).
    destruct (destroy f) as [k|]; [| done]. destruct (H3 k eq_refl) as (? & _). congruence. }
  destruct e as [j r q o | k data | | j].
  - destruct (decide (j = i)) as [-> | Hne].
    + rewrite render_skip; [by eauto |]. left. by rewrite Hi.
    + rewrite step_other_instance by done. by eauto.
  - destruct (data_step_frame k data w) as (_ & Hfb & _). specialize (Hfb i).
    rewrite Hi in Hfb. destruct (fibers (step (Data k data) w).2 !! i) as [f'|]; [| done].
    simpl in Hfb. exists f'. split; [done |]. split; congruence.
  - rewrite tick_lookup_quiet; [by eauto |].
    intros cb c _. by apply (no_cleanup_no_mounted w i f).
  - destruct (decide (j = i)) as [-> | Hne].
    + simpl step. unfold unmount. rewrite Hi, Hal. by eauto.
    + rewrite step_other_instance by done. by eauto.
Qed.

Lemma unmounted_run (i : nat) (es : list Event) (w : World) (f : Fiber) :
  wf w -> fibers w.2 !! i = Some f -> alive f = false ->
  subscriptions_of i (run es w).2 = subscriptions_of i w.2
  /\ exists f', fibers (run es w).2 !! i = Some f'
       /\ ctrl f' = ctrl f /\ snapshot (hook f') = snapshot (hook f).
Proof.
  revert w f. induction es as [|e es IH]; intros w f Hwf Hi Hal; [by eauto |].
  destruct (unmounted_step i e w f Hwf Hi Hal) as (Hs1 & f1 & Hi1 & E1 & Hsn1).
  pose proof E1 as E1'. ctrl_fields E1'.
  destruct (IH (step e w) f1 (wf_step e w Hwf) Hi1 ltac:(congruence))
    as (Hs & f' & Hi' & E & Hsn).
  change (run (e :: es) w) with (run es (step e w)).
  split; [congruence |]. exists f'. split; [done |]. split; congruence.
Qed.

(** X8. The unmount is final.  Once an instance is unmounted, whatever
    happens next, it stays unmounted with no cleanup registered; its
    generation counter and its snapshot never change again; it creates no
    further subscription; all its closures are unmounted and unsubscribed, so
    a callback queued for any of them returns without calling [setSnapshot].
    The cleanup that the unmount ran left the cache empty, but the
    generation check still passes for that last subscription: a result it
    delivers late is written to the cache of the dead instance and a
    callback is queued for it. *)
Theorem X8_unmount_is_final (w : World) (i : nat) (f : Fiber) (es : list Event) :
  reachable w ->
  fibers w.2 !! i = Some f ->
  let w1 := step (Unmount i) w in
  let w2 := run es w1 in
  alive (default initFiber (fibers w2.2 !! i)) = false
  /\ destroy (default initFiber (fibers w2.2 !! i)) = None
  /\ generationRef (hook_of i w2) = generationRef (hook f)
  /\ snapshot (hook_of i w2) = snapshot (hook_of i w1)
  /\ subscriptions_of i w2.2 = subscriptions_of i w.2
  /\ (forall k c, closures w2.2 !! k = Some c -> cl_inst c = i ->
        isMounted c = false /\ cl_unsubscribed c = true)
  /\ (forall cb c, closures w2.2 !! cb_closure cb = Some c -> cl_inst c = i ->
        invoke_cb cb w2 = Returned tt w2)
  /\ (forall k, destroy f = Some k ->
        prevSnapshotRef (hook_of i w1) = JUndefined
        /\ forall data,
             prevSnapshotRef (hook_of i (step (Data k data) w2)) = data
             /\ callbacks (step (Data k data) w2).1 = callbacks w2.1 ++ [mkCallback k data]).
Proof.
  intros Hr Hi w1 w2. pose proof (reachable_wf w Hr) as Hwf.
  assert (reachable w2) as Hr2 by (apply reachable_run, reachable_step, Hr).
  pose proof (reachable_wf w2 Hr2) as Hwf2.
  destruct (lifecycle_reachable w2 Hr2) as (Hun & _ & _).
  assert (wf w1) as Hwf1 by (by apply wf_step).
  (* the unmount *)
  assert (exists f1, fibers w1.2 !! i = Some f1 /\ alive f1 = false
            /\ generationRef (hook f1) = generationRef (hook f)
            /\ (forall k, destroy f = Some k ->
                  prevSnapshotRef (hook f1) = JUndefined
                  /\ exists c, closures w1.2 !! k = Some c /\ cl_inst c = i
                               /\ currentGen c = generationRef (hook f)))
    as (f1 & Hi1 & Hal1 & Hg1 & Hlast).
  { unfold w1. simpl step. destruct (alive f) eqn:Hal.
    - destruct (unmount_spec i w f Hwf Hi Hal) as (_ & Hfib & Hcl).
      eexists. rewrite Hfib, lookup_insert_eq. split; [done |]. split; [done |].
      pose proof (torn_down_ctrl f w.2) as E. ctrl_fields E. split; [done |].
      intros k Hd. destruct Hwf as [_ (Hf & _)]. destruct (Hf i f Hi) as (_ & _ & H3).
      destruct (H3 k Hd) as (_ & _ & c & Hc & Hci & _ & Hg). split.
      + cbn [hook]. unfold torn_down, registered_keep. rewrite Hd, Hc. simpl.
        unfold cleanup_fiber. destruct (cl_keep c); simpl; [done |]. by rewrite Hal.
      + exists (unmounted c). rewrite Hcl. unfold teardown_closures. rewrite Hd, Hc.
        rewrite list_lookup_insert_eq by (by eapply lookup_lt_Some). done.
    - unfold unmount. rewrite Hi, Hal. exists f. split; [done |]. split; [done |].
      split; [done |]. intros k Hd. destruct Hwf as [_ (Hf & _)].
      destruct (Hf i f Hi) as (_ & _ & H3). destruct (H3 k Hd) as (? & _). congruence. }
  assert (subscriptions_of i w1.2 = subscriptions_of i w.2) as Hsub1.
  { destruct (subscription_step i (Unmount i) w Hwf) as [Hs _]. fold w1 in Hs.
    rewrite Hs. simpl. lia. }
  (* what follows *)
  destruct (unmounted_run i es w1 f1 Hwf1 Hi1 Hal1) as (Hsub & f2 & Hi2 & E & Hsn).
  fold w2 in Hsub, Hi2. pose proof E as E'. ctrl_fields E'.
  assert (destroy f2 = None) as Hd2.
  { destruct Hwf2 as [_ (Hf & _)]. destruct (Hf i f2 Hi2) as (_ & _ & H3).
    destruct (destroy f2) as [k|]; [| done]. destruct (H3 k eq_refl) as (? & _). congruence. }
  assert (forall k c, closures w2.2 !! k = Some c -> cl_inst c = i -> isMounted c = false)
    as Hdead.
  { intros k c Hc Hci. destruct (isMounted c) eqn:Hm; [| done]. exfalso.
    by apply (no_cleanup_no_mounted w2 i f2 Hwf2 Hi2 Hd2 (mkCallback k JUndefined) c). }
  rewrite Hi2. cbn [default]. unfold id. rewrite (hook_of_lookup i w2 f2 Hi2), (hook_of_lookup i w1 f1 Hi1).
  split; [congruence |]. split; [done |]. split; [congruence |]. split; [done |].
  split; [congruence |]. split; [| split].
  - intros k c Hc Hci. rewrite (Hun k c Hc), (Hdead k c Hc Hci). done.
  - intros cb c Hc Hci. unfold invoke_cb. by rewrite Hc, (Hdead _ c Hc Hci).
  - intros k Hd. destruct (Hlast k Hd) as (Hp & c1 & Hc1 & Hci1 & Hgc1). split; [done |].
    destruct (run_closure_stable es w1 k c1 Hwf1 Hc1) as (c2 & Hc2 & Hci2 & Hgc2 & _).
    intros data.
    assert (step (Data k data) w2
            = (schedule (mkCallback k data) w2.1, write_prevSnapshotRef i data w2.2)) as Hstep.
    { change (step (Data k data) w2) with (onData k data w2). fold w2 in Hc2.
      unfold onData. rewrite Hc2, Hci2, Hci1, Hi2.
      rewrite bool_decide_eq_true_2; [done | congruence]. }
    rewrite Hstep. split.
    + unfold hook_of. simpl. by rewrite lookup_alter_eq, Hi2.
    + simpl. apply schedule_callbacks.
Qed.

Lemma X8_witness :
  let w := run (loaded_trace true) initWorld in
  let w2 := run [Render 0 repB 0 (opts "default" true); Data 0 (JStr "late"); Tick]
                (step (Unmount 0) w) in
  snapshot (hook_of 0 w2) = JStr "data1"
  /\ subscriptions_of 0 w2.2 = 1
  /\ prevSnapshotRef (hook_of 0 (step (Data 0 (JStr "later")) w2)) = JStr "later".
Proof.
  destruct (X8_unmount_is_final (run (loaded_trace true) initWorld) 0
              (mkFiber (mkHook (JStr "data1") (JStr "data1") 1 repA [] true)
                       (Some [JRef 1]) (Some 0) true)
              [Render 0 repB 0 (opts "default" true); Data 0 (JStr "late"); Tick]
              (ex_intro _ (loaded_trace true) eq_refl) eq_refl)
    as (_ & _ & _ & H4 & H5 & _ & _ & H8).
  split; [exact H4 |]. split; [exact H5 |].
  exact (proj1 (proj2 (H8 0 eq_refl) (JStr "later"))).
Defined.

(** ** Instances do not disturb each other *)

Lemma unconcerned_step (i : nat) (e : Event) (w : World) :
  wf w -> concerns i e w = false -> fibers (step e w).2 !! i = fibers w.2 !! i.
Proof.
  intros Hwf Hc. destruct e as [j r q o | k data | | j]; simpl in Hc.
  - apply step_other_instance; [done |]. by apply bool_decide_eq_false in Hc.
  - simpl step. rewrite onData_lookup. destruct (closures w.2 !! k) as [c|]; [| done].
    by rewrite Hc, andb_false_r.
  - apply andb_false_iff in Hc as [Hm | Hp].
    + apply negb_false_iff, Nat.eqb_eq in Hm. by rewrite tick_idle.
    + apply tick_lookup_quiet. by apply pending_for_false.
  - apply step_other_instance; [done |]. by apply bool_decide_eq_false in Hc.
Qed.

(** X9. Instances are isolated from each other.  Along any events that are
    renders, unmounts and results of other instances, and promise jobs that
    find no callback of this instance's mounted closure in the queue, the
    state and the refs of instance [i] stay exactly as they were, and so does
    the value every render of [i] returns. *)
Theorem X9_instances_are_isolated (w : World) (i : nat) (es : list Event) :
  reachable w ->
  window (fun e w => negb (concerns i e w)) es w = true ->
  fibers (run es w).2 !! i = fibers w.2 !! i
  /\ forall r o, observe i r o (run es w) = observe i r o w.
Proof.
  intros Hr Hwin. pose proof (reachable_wf w Hr) as Hwf. clear Hr.
  assert (fibers (run es w).2 !! i = fibers w.2 !! i) as H.
  { revert w Hwf Hwin. induction es as [|e es IH]; intros w Hwf Hwin; [done |].
    simpl in Hwin. apply andb_true_iff in Hwin as [He Hwin]. apply negb_true_iff in He.
    change (run (e :: es) w) with (run es (step e w)).
    rewrite IH by (by try apply wf_step). by apply unconcerned_step. }
  split; [done |]. intros r o. rewrite !observe_value. unfold hook_of. by rewrite H.
Qed.

Lemma X9_witness :
  let w := run (loaded_trace true) initWorld in
  let es := [Render 1 repB 0 (opts "other" false); Data 1 (JStr "b"); Tick;
             Render 1 repA 0 (opts "other" false); Unmount 1] in
  fibers (run es w).2 !! 0 = fibers w.2 !! 0
  /\ forall r o, observe 0 r o (run es w) = observe 0 r o w.
Proof.
  exact (X9_instances_are_isolated (run (loaded_trace true) initWorld) 0
           [Render 1 repB 0 (opts "other" false); Data 1 (JStr "b"); Tick;
            Render 1 repA 0 (opts "other" false); Unmount 1]
           (ex_intro _ (loaded_trace true) eq_refl) eq_refl).
Defined.

(** ** A result that is overtaken by a transition (lines 294-299 and 308-312) *)

(** X10. A result that the live subscription has delivered but that no
    promise job has applied yet is discarded when the instance re-subscribes
    first.  The render that changes the source or the dependencies commits:
    the cleanup unmounts the closure and empties the cache that held the
    result, and the promise job that follows finds the closure unmounted and
    does not call [setSnapshot].  The snapshot is the one from before the
    result (or [undefined] when the subscription was set up without
    retention), and the cache holds that older snapshot again or nothing. *)
Theorem X10_overtaken_result_is_discarded (w : World) (i k : nat) (f : Fiber)
    (c : Closure) (v : JsVal) (r : Source) (query : nat) (o : UseSubscribeOptions) :
  reachable w ->
  fibers w.2 !! i = Some f ->
  destroy f = Some k ->
  closures w.2 !! k = Some c ->
  r <> prevRRef (hook f)
  \/ (length (dependencies_of o) = length (prevDepsRef (hook f))
      /\ dependencies_of o <> prevDepsRef (hook f)) ->
  let w1 := step (Data k v) w in
  let w2 := step (Render i r query o) w1 in
  let w3 := step Tick w2 in
  prevSnapshotRef (hook_of i w1) = v
  /\ mkCallback k v ∈ callbacks w2.1
  /\ callbacks w3.1 = []
  /\ snapshot (hook_of i w3) = (if cl_keep c then snapshot (hook f) else JUndefined)
  /\ prevSnapshotRef (hook_of i w3)
     = (if negb (absent r)
           && (keepPreviousData_of o && negb (is_undefined (snapshot (hook f))))
        then snapshot (hook f) else JUndefined).
Proof.
  intros Hr Hi Hd Hc Hchange w1 w2 w3.
  pose proof (reachable_wf w Hr) as Hwf.
  destruct (live_data_tick w i k f v Hwf Hi Hd) as (Hi1 & Hcl1 & _).
  fold w1 in Hi1, Hcl1.
  assert (wf w1) as Hwf1 by (by apply wf_step).
  assert (wf w2) as Hwf2 by (by apply wf_step).
  set (f1 := with_hook (set_prevSnapshotRef v) f) in *.
  pose proof Hwf as [_ (Hf & _)]. destruct (Hf i f Hi) as (_ & Heff & H3).
  destruct (H3 k Hd) as (Hal & _ & c' & Hc' & Hci & Hm & Hg).
  assert (c' = c) as -> by congruence.
  (* the queue *)
  destruct (data_step_frame k v w) as (_ & _ & Hq1 & _). fold w1 in Hq1.
  assert (accepts k w = true) as Hacc.
  { unfold accepts. rewrite Hc, Hci, Hi. by apply bool_decide_eq_true_2. }
  rewrite Hacc in Hq1.
  assert (forall cb, cb ∈ callbacks w1.1 -> cb_closure cb < length (closures w.2)) as Hold.
  { intros cb Hcb. rewrite Hq1 in Hcb. apply elem_of_app in Hcb as [Hcb | Hcb].
    - destruct Hr as [es0 ->].
      pose proof (cells_run i es0 [] initWorld wf_init (cells_init i)) as [_ Hcells].
      destruct (Hcells cb Hcb) as (c0 & Hc0 & _). by eapply lookup_lt_Some.
    - apply list_elem_of_singleton in Hcb as ->. simpl. by eapply lookup_lt_Some. }
  (* the transition *)
  assert (default initFiber (fibers w1.2 !! i) = f1) as Hf0 by (by rewrite Hi1).
  assert (effect_reruns f1 r o = true) as Hre.
  { unfold effect_reruns. simpl. rewrite Heff. simpl. rewrite src_val_is.
    rewrite negb_true_iff, andb_false_iff.
    destruct Hchange as [H | [Hlen H]].
    - left. by apply bool_decide_eq_false_2.
    - right. rewrite areHookInputsEqual_same_length by done.
      by apply bool_decide_eq_false_2. }
  destruct (render_rerun_wf i r query o w1 Hwf1) as
    (h' & Hs2 & Hfib & Hcl & _ & _ & _ & Hsn & Hpv & _); rewrite ?Hf0; try done.
  fold w2 in Hs2, Hfib, Hcl. rewrite Hf0 in *.
  assert (torn_down f1 w1.2 = cleanup_fiber (cl_keep c) f1) as Htd.
  { unfold torn_down, registered_keep. simpl. by rewrite Hd, Hcl1, Hc. }
  rewrite Htd in Hsn, Hpv.
  assert (fibers w2.2 !! i
          = Some (mkFiber h' (Some (src_val r :: dependencies_of o))
                          (if absent r then None else Some (length (closures w1.2))) true))
    as Hi2 by (by rewrite Hfib, lookup_insert_eq).
  (* the promise job *)
  assert (fibers w3.2 !! i = fibers w2.2 !! i) as Hi3.
  { apply tick_lookup_quiet. intros cb c2 Hcb Hc2 Hm2 Hci2.
    rewrite Hs2 in Hcb. apply Hold in Hcb.
    destruct Hwf2 as [_ (_ & Hk2 & _)].
    destruct (Hk2 _ _ Hc2) as (f2 & Hf2 & _ & Hreg). rewrite Hci2, Hi2 in Hf2.
    injection Hf2 as <-. specialize (Hreg Hm2). simpl in Hreg.
    destruct (absent r); [done |]. injection Hreg as Hreg. rewrite Hcl1 in Hreg. lia. }
  assert (microtasks w2.1 = 1) as Hm2.
  { rewrite Hs2. destruct Hwf1 as [[Hmt _] _]. rewrite Hmt.
    destruct (data_step_frame k v w) as (_ & _ & _ & Hflag).
    assert (hasPendingCallback w1.1 = true) as ->; [| done].
    unfold w1. simpl step. rewrite onData_sched, Hacc. apply schedule_flag. }
  split; [by rewrite (hook_of_lookup i w1 _ Hi1) |].
  split; [rewrite Hs2, Hq1; apply elem_of_app; right; apply list_elem_of_here |].
  split; [unfold w3; simpl step; by rewrite run_microtask_hook, Hm2 |].
  unfold hook_of at 1 2. rewrite Hi3, Hi2. cbn [default]. unfold id. cbn [hook].
  rewrite Hsn, Hpv. unfold cleanup_fiber. simpl.
  destruct (cl_keep c); simpl; [done |]. by rewrite Hal.
Qed.

Lemma X10_witness :
  let w := run (loaded_trace true) initWorld in
  let w3 := step Tick (step (Render 0 repB 0 (opts "default" true))
                         (step (Data 0 (JStr "data2")) w)) in
  snapshot (hook_of 0 w3) = JStr "data1" /\ prevSnapshotRef (hook_of 0 w3) = JStr "data1".
Proof.
  destruct (X10_overtaken_result_is_discarded (run (loaded_trace true) initWorld) 0 0
              (mkFiber (mkHook (JStr "data1") (JStr "data1") 1 repA [] true)
                       (Some [JRef 1]) (Some 0) true)
              (mkClosure 0 1 true true 1 0 None false) (JStr "data2")
              repB 0 (opts "default" true)
              (ex_intro _ (loaded_trace true) eq_refl) eq_refl eq_refl eq_refl
              (or_introl (fun H : repB = repA => ltac:(discriminate H))))
    as (_ & _ & _ & H4 & H5).
  split; [exact H4 | exact H5].
Defined.

(** * The first revision *)

(** ** The flush without a handler (first revision, lines 20-27) *)

Section FirstFlush.
Context {Cb R : Type}.
Variable invoke : Cb -> Js (Sched Cb * R) unit.

(** While the callbacks return, the two loops do the same. *)
Lemma for_of_returning (before rest : list Cb) (w w_mid : Sched Cb * R) :
  all_return invoke before w = Some w_mid ->
  for_of (before ++ rest) (fun callback => invoke callback) w
  = for_of rest (fun callback => invoke callback) w_mid
  /\ foldl (call_guarded invoke) w before = w_mid.
Proof.
  revert w. induction before as [|cb before IH]; intros w H; simpl in *.
  - by injection H as ->.
  - unfold js_bind at 1, call_guarded at 2.
    destruct (invoke cb w) as [[] w' | e w']; [| done]. by apply IH.
Qed.

Lemma all_return_sched (cbs : list Cb) (w w' : Sched Cb * R) :
  (forall cb w0, (final (invoke cb w0)).1 = w0.1) ->
  all_return invoke cbs w = Some w' -> w'.1 = w.1.
Proof.
  intros Hq. revert w. induction cbs as [|cb cbs IH]; intros w H; simpl in *.
  - by injection H as ->.
  - specialize (Hq cb w). destruct (invoke cb w) as [[] w1 | e w1]; [| done].
    rewrite (IH w1 H). done.
Qed.

(** The plain loop against the guarded one, callback by callback. *)
Lemma for_of_plain (cbs : list Cb) (w : Sched Cb * R) :
  match for_of cbs (fun callback => invoke callback) w with
  | Returned _ w' =>
      all_return invoke cbs w = Some w' /\ foldl (call_guarded invoke) w cbs = w'
  | Threw e w' =>
      exists before bad after w_mid,
        cbs = before ++ bad :: after
        /\ all_return invoke before w = Some w_mid
        /\ invoke bad w_mid = Threw e w'
        /\ foldl (call_guarded invoke) w cbs
           = foldl (call_guarded invoke) (logged e w') after
  end.
Proof.
  revert w. induction cbs as [|cb cbs IH]; intros w; simpl; [done |].
  unfold js_bind at 1, call_guarded at 2 4.
  destruct (invoke cb w) as [[] w1 | e w1] eqn:Hcb.
  - specialize (IH w1).
    destruct (for_of cbs (fun callback => invoke callback) w1) as [[] w' | e w']; [done |].
    destruct IH as (before & bad & after & w_mid & -> & Hret & Hbad & Hfold).
    exists (cb :: before), bad, after, w_mid. simpl. by rewrite Hcb.
  - exists [], cb, cbs, w. by repeat split.
Qed.
End FirstFlush.

(** X11. In the first revision (and in the compiled build) a callback that
    throws ends the flush: [doCallback] throws the same exception from the
    heap the callback left, and the callbacks queued after it are not
    called.  When callbacks leave the scheduler alone they are not kept
    either, since the queue was emptied and the flag cleared before the
    first call.  On the same heap the current revision prints the exception
    and goes on with those callbacks. *)
Theorem X11_first_revision_throw_ends_flush {Cb R : Type}
    (invoke : Cb -> Js (Sched Cb * R) unit)
    (w w_mid w_thrown : Sched Cb * R) (before after : list Cb) (bad : Cb) (e : JsVal) :
  callbacks w.1 = before ++ bad :: after ->
  all_return invoke before (flush_start w) = Some w_mid ->
  invoke bad w_mid = Threw e w_thrown ->
  Rev1.doCallback invoke w = Threw e w_thrown
  /\ ((forall cb w0, (final (invoke cb w0)).1 = w0.1) ->
      callbacks w_thrown.1 = [] /\ hasPendingCallback w_thrown.1 = false)
  /\ doCallback invoke w
     = Returned tt (foldl (call_guarded invoke) (logged e w_thrown) after).
Proof.
  intros Hq Hret Hbad.
  destruct (for_of_returning invoke before (bad :: after) _ _ Hret) as [Hfor Hfold].
  split; [| split].
  - unfold Rev1.doCallback, js_bind at 1 2 3, get_callbacks, set_callbacks,
      set_hasPendingCallback, js_modify. simpl. rewrite Hq.
    change (mkSched [] false (microtasks w.1) (console w.1), w.2) with (flush_start w).
    rewrite Hfor. simpl. unfold js_bind. by rewrite Hbad.
  - intros Hsched. pose proof (all_return_sched invoke before _ _ Hsched Hret) as Hmid.
    specialize (Hsched bad w_mid). rewrite Hbad in Hsched. simpl in Hsched.
    rewrite Hsched, Hmid. done.
  - rewrite doCallback_fold, Hq, foldl_app, Hfold. simpl.
    unfold call_guarded at 2. by rewrite Hbad.
Qed.

Lemma X11_witness :
  let w : Sched TestCb * list nat :=
    (mkSched [Trecord 1; Tthrow (JStr "boom"); Trecord 3] true 0 [], []) in
  Rev1.doCallback test_invoke w = Threw (JStr "boom") (mkSched [] false 0 [], [1])
  /\ doCallback test_invoke w = Returned tt (mkSched [] false 0 [JStr "boom"], [1; 3]).
Proof.
  destruct (X11_first_revision_throw_ends_flush test_invoke
              (mkSched [Trecord 1; Tthrow (JStr "boom"); Trecord 3] true 0 [], [])
              (mkSched [] false 0 [], [1]) (mkSched [] false 0 [], [1])
              [Trecord 1] [Trecord 3] (Tthrow (JStr "boom")) (JStr "boom")
              eq_refl eq_refl eq_refl) as (H1 & _ & H3).
  split; [exact H1 | exact H3].
Defined.

(** X12. The two revisions of [doCallback] compared on any heap and any
    callbacks.  When the first revision returns, the current one returns the
    same heap: the handler changes nothing as long as nothing throws.  When
    the first revision throws, it does so at the first callback that throws,
    and the current revision, from the heap that callback left, prints the
    exception and calls the remaining callbacks. *)
Theorem X12_flush_revisions_compared {Cb R : Type}
    (invoke : Cb -> Js (Sched Cb * R) unit) (w : Sched Cb * R) :
  match Rev1.doCallback invoke w with
  | Returned _ w' =>
      all_return invoke (callbacks w.1) (flush_start w) = Some w'
      /\ doCallback invoke w = Returned tt w'
  | Threw e w' =>
      exists before bad after w_mid,
        callbacks w.1 = before ++ bad :: after
        /\ all_return invoke before (flush_start w) = Some w_mid
        /\ invoke bad w_mid = Threw e w'
        /\ doCallback invoke w
           = Returned tt (foldl (call_guarded invoke) (logged e w') after)
  end.
Proof.
  rewrite doCallback_fold.
  assert (Rev1.doCallback invoke w
          = for_of (callbacks w.1) (fun callback => invoke callback) (flush_start w)) as ->.
  { unfold Rev1.doCallback, js_bind at 1 2 3, get_callbacks, set_callbacks,
      set_hasPendingCallback, js_modify. done. }
  pose proof (for_of_plain invoke (callbacks w.1) (flush_start w)) as H.
  destruct (for_of (callbacks w.1) (fun callback => invoke callback) (flush_start w))
    as [[] w' | e w'].
  - destruct H as [H1 H2]. by rewrite H2.
  - destruct H as (before & bad & after & w_mid & H1 & H2 & H3 & H4).
    exists before, bad, after, w_mid. by rewrite H4.
Qed.

(** ** The hook without the generation check (first revision, lines 63-90) *)

Lemma rev1_for_of_apply (cbs : list Rev1.Callback) (w : Rev1.World) :
  for_of cbs (fun callback => Rev1.invoke_cb callback) w
  = Returned tt (w.1, foldl Rev1.apply_cb w.2 cbs).
Proof.
  revert w. induction cbs as [|cb cbs IH]; intros w; simpl; [by destruct w |].
  unfold js_bind at 1, Rev1.invoke_cb at 1. by rewrite IH.
Qed.

Lemma rev1_run_microtask (w : Rev1.World) :
  Rev1.run_microtask Rev1.invoke_cb w
  = match microtasks w.1 with
    | O => w
    | S n => (mkSched [] false n (console w.1), foldl Rev1.apply_cb w.2 (callbacks w.1))
    end.
Proof.
  unfold Rev1.run_microtask. destruct (microtasks w.1) as [|n]; [done |].
  unfold Rev1.doCallback, js_bind at 1 2 3, get_callbacks, set_callbacks,
    set_hasPendingCallback, js_modify. simpl. by rewrite rev1_for_of_apply.
Qed.

(** Queued callbacks write snapshots only. *)
Lemma rev1_apply_all_frame (cbs : list Rev1.Callback) (st : Rev1.Store) (i : nat)
    (f : Rev1.Fiber) :
  Rev1.fibers st !! i = Some f ->
  exists f', Rev1.fibers (foldl Rev1.apply_cb st cbs) !! i = Some f'
    /\ Rev1.alive f' = Rev1.alive f
    /\ Rev1.prevSnapshotRef (Rev1.hook f') = Rev1.prevSnapshotRef (Rev1.hook f).
Proof.
  revert st f. induction cbs as [|cb cbs IH]; intros st f Hi; simpl; [by eauto |].
  destruct (decide (Rev1.cb_inst cb = i)) as [Heq | Hne].
  - destruct (IH (Rev1.apply_cb st cb)
                (if Rev1.alive f
                 then Rev1.with_hook (fun h => Rev1.mkHook (Rev1.cb_data cb)
                                                 (Rev1.prevSnapshotRef h)) f
                 else f)) as (f' & Hf' & Ha & Hp).
    { unfold Rev1.apply_cb, Rev1.setSnapshot. simpl. by rewrite Heq, lookup_alter_eq, Hi. }
    exists f'. split; [done |].
    destruct (Rev1.alive f) eqn:E; simpl in Ha, Hp; rewrite ?E in Ha; done.
  - apply IH. unfold Rev1.apply_cb, Rev1.setSnapshot. simpl.
    by rewrite lookup_alter_ne.
Qed.

(** X13. In the first revision [onData] has no generation check and the
    queued callback no guard.  Whatever subscription of a living instance a
    result comes from (the current one, or one that was unsubscribed and
    replaced long ago), it is written to the cache at once and the next
    promise job makes it the snapshot, so that the instance then renders it
    (or the default when it is [undefined]). *)
Theorem X13_first_revision_applies_any_result (w : Rev1.World) (k : nat)
    (c : Rev1.Closure) (f : Rev1.Fiber) (data : JsVal) :
  sched_ok w.1 ->
  Rev1.closures w.2 !! k = Some c ->
  Rev1.fibers w.2 !! Rev1.cl_inst c = Some f ->
  Rev1.alive f = true ->
  let i := Rev1.cl_inst c in
  let w1 := Rev1.step (Data k data) w in
  let w2 := Rev1.step Tick w1 in
  Rev1.prevSnapshotRef (Rev1.hook_of i w1) = data
  /\ Rev1.snapshot (Rev1.hook_of i w2) = data
  /\ Rev1.prevSnapshotRef (Rev1.hook_of i w2) = data
  /\ forall r query o,
       (Rev1.useSubscribe i r query o w2).1 = if is_undefined data then def_of o else data.
Proof.
  intros [Hmt _] Hc Hi Hal i w1 w2. fold i in Hi.
  assert (w1 = (schedule (Rev1.mkCallback i data) w.1,
                Rev1.write_prevSnapshotRef i data w.2)) as Hw1.
  { unfold w1. simpl. unfold Rev1.onData. by rewrite Hc. }
  set (f1 := Rev1.with_hook (fun h => Rev1.mkHook (Rev1.snapshot h) data) f).
  assert (Rev1.fibers w1.2 !! i = Some f1) as Hi1.
  { rewrite Hw1. simpl. by rewrite lookup_alter_eq, Hi. }
  assert (microtasks w1.1 = 1) as Hm1.
  { rewrite Hw1. simpl. rewrite schedule_microtasks, Hmt.
    by destruct (hasPendingCallback w.1). }
  assert (w2 = (mkSched [] false 0 (console w1.1),
                foldl Rev1.apply_cb w1.2 (callbacks w.1 ++ [Rev1.mkCallback i data]))) as Hw2.
  { unfold w2. simpl. rewrite rev1_run_microtask, Hm1. rewrite Hw1 at 3. simpl.
    by rewrite schedule_callbacks. }
  destruct (rev1_apply_all_frame (callbacks w.1) w1.2 i f1 Hi1) as (f' & Hf' & Ha' & Hp').
  assert (Rev1.fibers w2.2 !! i
          = Some (Rev1.with_hook (fun h => Rev1.mkHook data (Rev1.prevSnapshotRef h)) f'))
    as Hi2.
  { rewrite Hw2. cbn [snd]. rewrite foldl_app. cbn [foldl]. unfold Rev1.apply_cb at 1.
    unfold Rev1.setSnapshot. cbn [Rev1.fibers Rev1.cb_inst Rev1.cb_data].
    rewrite lookup_alter_eq, Hf'. cbn [fmap option_fmap option_map].
    assert (Rev1.alive f' = true) as -> by (rewrite Ha'; exact Hal). done. }
  unfold Rev1.hook_of. rewrite Hi1. split; [done |].
  unfold Rev1.useSubscribe. rewrite Hi2. simpl.
  split; [done |]. split; [done |]. intros _ _ o.
  unfold Rev1.useSubscribe_value. simpl. rewrite Hp'. simpl.
  destruct (is_undefined data); [| done]. by rewrite andb_false_r.
Qed.

Lemma X13_witness :
  let w := Rev1.run [Render 0 repA 0 (opts "default" true);
                     Render 0 repB 0 (opts "default" true)] Rev1.initWorld in
  let w2 := Rev1.step Tick (Rev1.step (Data 0 (JStr "late")) w) in
  Rev1.closures w.2 !! 0 = Some (Rev1.mkClosure 0 true 1 0 None true)
  /\ Rev1.snapshot (Rev1.hook_of 0 w2) = JStr "late"
  /\ snapshot (hook_of 0 (run late_answer_trace initWorld)) = JUndefined.
Proof.
  split; [reflexivity |]. split; [| reflexivity].
  exact (proj1 (proj2
    (X13_first_revision_applies_any_result
       (Rev1.run [Render 0 repA 0 (opts "default" true);
                  Render 0 repB 0 (opts "default" true)] Rev1.initWorld)
       0 (Rev1.mkClosure 0 true 1 0 None true)
       (Rev1.mkFiber Rev1.initHook (Some [JRef 2]) (Some 1) true) (JStr "late")
       (conj eq_refl (fun _ => eq_refl)) eq_refl eq_refl eq_refl))).
Defined.
